(** * rpi-power-monitor: phase-corrected power measurement and calibration

    A shallow embedding of [rpi_power_monitor/power_monitor.py]:
    - [rebuild_wave], [rebuild_waves]: the waveform reconstructor,
    - [check_phasecal], [calculate_power]: the power/RMS calculator,
    - [find_phasecal] and the [phase] mode of the main block: the
      calibration search.

    Numbers.  Raw converter codes are Python integers and every derived
    quantity is a Python float.  Both are embedded in [Q] with exact
    arithmetic; [int(...)] is truncation toward zero.  [math.sqrt] is a
    library function outside the repository and stays a parameter of the
    calculator.  Exceptions are values of [exn] carried by [result]. *)

From Stdlib Require Import ZArith QArith Qabs Qround List String Bool Lia Lqa.
Import ListNotations.

Local Open Scope Q_scope.

(** ** Exceptions and the error monad *)

Inductive exn : Type :=
| IndexError
| ZeroDivisionError
| ValueError
| UnboundLocalError
| SystemExit.

Inductive result (A : Type) : Type :=
| Return (a : A)
| Raise (e : exn).

Arguments Return {A} a.
Arguments Raise {A} e.

Definition bind {A B : Type} (m : result A) (k : A -> result B) : result B :=
  match m with
  | Return a => k a
  | Raise e => Raise e
  end.

Notation "x <- m ;; k" := (bind m (fun x => k))
  (at level 61, m at next level, right associativity).

Definition exn_eqb (a b : exn) : bool :=
  match a, b with
  | IndexError, IndexError => true
  | ZeroDivisionError, ZeroDivisionError => true
  | ValueError, ValueError => true
  | UnboundLocalError, UnboundLocalError => true
  | SystemExit, SystemExit => true
  | _, _ => false
  end.

(** [try: m except e: handler] *)
Definition try_except {A : Type} (m : result A) (e : exn) (handler : result A)
  : result A :=
  match m with
  | Return a => Return a
  | Raise e' => if exn_eqb e' e then handler else Raise e'
  end.

(** ** Python numeric primitives *)

Definition Qlt_bool (a b : Q) : bool := negb (Qle_bool b a).

(** [int(x)]: truncation toward zero. *)
Definition int (x : Q) : Z := Z.quot (Qnum x) (Zpos (Qden x)).

(** [a / b], raising on a zero divisor. *)
Definition py_div (a b : Q) : result Q :=
  if Qeq_bool b 0 then Raise ZeroDivisionError else Return (a / b).

(** [l[i]] for a non-negative index. *)
Definition subscript {A : Type} (l : list A) (i : nat) : result A :=
  match nth_error l i with
  | Some x => Return x
  | None => Raise IndexError
  end.

(** [for i in range(start, start + count): acc = body(i, acc)] *)
Fixpoint for_range {A : Type} (start count : nat)
         (body : nat -> A -> result A) (acc : A) : result A :=
  match count with
  | O => Return acc
  | S count' => acc' <- body start acc ;; for_range (S start) count' body acc'
  end.

(** ** Waveform reconstructor *)

(** The dictionary returned by [rebuild_wave]. *)
Record rebuilt_wave : Type := {
  new_v : list Q;
  ct : list Q;
  original_v : list Q
}.

(** [for current_point in v_wave[1:]] with the loop variable
    [previous_point]; the appended points are returned in order. *)
Fixpoint rebuild_points (PHASECAL previous_point : Q) (rest : list Q) : list Q :=
  match rest with
  | [] => []
  | current_point :: rest' =>
      let new_point := previous_point + PHASECAL * (current_point - previous_point) in
      new_point :: rebuild_points PHASECAL current_point rest'
  end.

Definition rebuild_wave (samples v_wave : list Q) (PHASECAL : Q)
  : result rebuilt_wave :=
  v0 <- subscript v_wave 0 ;;
  let wave := v0 :: rebuild_points PHASECAL v0 (tl v_wave) in
  Return {| new_v := wave; ct := samples; original_v := v_wave |}.

(** The six current channels, the keys ['ct1'] .. ['ct6']. *)
Inductive channel : Type := ct1 | ct2 | ct3 | ct4 | ct5 | ct6.

(** A dictionary fragment with one entry per channel. *)
Record six (A : Type) : Type := Six {
  at1 : A; at2 : A; at3 : A; at4 : A; at5 : A; at6 : A
}.

Arguments Six {A} _ _ _ _ _ _.
Arguments at1 {A} _.
Arguments at2 {A} _.
Arguments at3 {A} _.
Arguments at4 {A} _.
Arguments at5 {A} _.
Arguments at6 {A} _.

Definition sel {A : Type} (c : channel) (s : six A) : A :=
  match c with
  | ct1 => at1 s
  | ct2 => at2 s
  | ct3 => at3 s
  | ct4 => at4 s
  | ct5 => at5 s
  | ct6 => at6 s
  end.

Definition six_pure {A : Type} (a : A) : six A := Six a a a a a a.

Definition six_map {A B : Type} (f : A -> B) (s : six A) : six B :=
  Six (f (at1 s)) (f (at2 s)) (f (at3 s)) (f (at4 s)) (f (at5 s)) (f (at6 s)).

Definition six_map2 {A B C : Type} (f : A -> B -> C) (s : six A) (t : six B)
  : six C :=
  Six (f (at1 s) (at1 t)) (f (at2 s) (at2 t)) (f (at3 s) (at3 t))
      (f (at4 s) (at4 t)) (f (at5 s) (at5 t)) (f (at6 s) (at6 t)).

(** Six statements in channel order, each of which may raise. *)
Definition six_mapM {A B : Type} (f : A -> result B) (s : six A)
  : result (six B) :=
  b1 <- f (at1 s) ;;
  b2 <- f (at2 s) ;;
  b3 <- f (at3 s) ;;
  b4 <- f (at4 s) ;;
  b5 <- f (at5 s) ;;
  b6 <- f (at6 s) ;;
  Return (Six b1 b2 b3 b4 b5 b6).

(** The dictionary returned by [collect_data] (without its time stamp). *)
Record samples_dict : Type := {
  s_ct : six (list Q);
  s_voltage : list Q
}.

(** The dictionary returned by [rebuild_waves]. *)
Record rebuilt_waves_dict : Type := {
  w_v_ct : six (list Q);
  w_voltage : list Q;
  w_ct : six (list Q)
}.

(** The loop of [rebuild_waves]: one new point per channel and iteration,
    all six computed from the shared [previous_point] and appended to the
    six waves. *)
Fixpoint rebuild_points6 (PHASECAL : six Q) (previous_point : Q)
         (rest : list Q) (waves : six (list Q)) : six (list Q) :=
  match rest with
  | [] => waves
  | current_point :: rest' =>
      let new_point := fun PHASECAL_k =>
        previous_point + PHASECAL_k * (current_point - previous_point) in
      rebuild_points6 PHASECAL current_point rest'
        (six_map2 (fun wave PHASECAL_k => wave ++ [new_point PHASECAL_k])
                  waves PHASECAL)
  end.

Definition rebuild_waves (samples : samples_dict) (PHASECAL : six Q)
  : result rebuilt_waves_dict :=
  let voltage_samples := s_voltage samples in
  v0 <- subscript voltage_samples 0 ;;
  let waves := rebuild_points6 PHASECAL v0 (tl voltage_samples) (six_pure [v0]) in
  Return {| w_v_ct := waves; w_voltage := voltage_samples; w_ct := s_ct samples |}.

(** ** Power/RMS calculator *)

(** The five running sums kept for one channel. *)
Record sums : Type := {
  sum_inst_power : Z;
  sum_squared_current : Z;
  sum_raw_current : Z;
  sum_squared_voltage : Z;
  sum_raw_voltage : Z
}.

Definition sums0 : sums :=
  {| sum_inst_power := 0; sum_squared_current := 0; sum_raw_current := 0;
     sum_squared_voltage := 0; sum_raw_voltage := 0 |}.

(** The body of the sample loop for one channel, after [int(...)]. *)
Definition accumulate (acc : sums) (ct voltage : Z) : sums :=
  {| sum_inst_power := sum_inst_power acc + ct * voltage;
     sum_squared_current := sum_squared_current acc + ct * ct;
     sum_raw_current := sum_raw_current acc + ct;
     sum_squared_voltage := sum_squared_voltage acc + voltage * voltage;
     sum_raw_voltage := sum_raw_voltage acc + voltage |}%Z.

(** The result dictionary of one channel:
    [{'power': .., 'current': .., 'voltage': .., 'pf': ..}]. *)
Record reading : Type := {
  power : Q;
  current : Q;
  voltage : Q;
  pf : Q
}.

(** The result dictionary of [calculate_power]; the constant
    ['type': 'consumption'] entries are left out. *)
Record power_results : Type := {
  r_ct : six reading;
  r_voltage : Q
}.

(** The part of the monitor object the calculator reads. *)
Record monitor : Type := {
  grid_voltage : Q;
  ac_transformer_output_voltage : Q;
  ct_phase_correction : six Q;
  accuracy_calibration : six Q;
  accuracy_calibration_AC : Q
}.

(** [(sum_inst_power / num_samples) - (avg_raw_current * avg_raw_voltage)],
    the factor of [real_power] before scaling. *)
Definition real_power_core (mean_inst_power avg_raw_current avg_raw_voltage : Q)
  : Q :=
  mean_inst_power - avg_raw_current * avg_raw_voltage.

Section Calculator.

(** [math.sqrt] on a non-negative argument. *)
Variable sqrt : Q -> Q.

Definition math_sqrt (x : Q) : result Q :=
  if Qlt_bool x 0 then Raise ValueError else Return (sqrt x).

(** Everything after the sample loop, for one channel: the means, real
    power, the two RMS values and the power factor. *)
Definition channel_reading (num_samples : nat)
           (ct_scaling_factor voltage_scaling_factor : Q) (acc : sums)
  : result reading :=
  let n := inject_Z (Z.of_nat num_samples) in
  avg_raw_current <- py_div (inject_Z (sum_raw_current acc)) n ;;
  avg_raw_voltage <- py_div (inject_Z (sum_raw_voltage acc)) n ;;
  mean_inst_power <- py_div (inject_Z (sum_inst_power acc)) n ;;
  let real_power :=
    real_power_core mean_inst_power avg_raw_current avg_raw_voltage
    * ct_scaling_factor * voltage_scaling_factor in
  mean_square_current <- py_div (inject_Z (sum_squared_current acc)) n ;;
  mean_square_voltage <- py_div (inject_Z (sum_squared_voltage acc)) n ;;
  root_current <-
    math_sqrt (mean_square_current - avg_raw_current * avg_raw_current) ;;
  let rms_current := root_current * ct_scaling_factor in
  root_voltage <-
    math_sqrt (mean_square_voltage - avg_raw_voltage * avg_raw_voltage) ;;
  let rms_voltage := root_voltage * voltage_scaling_factor in
  let apparent_power := rms_voltage * rms_current in
  power_factor <-
    try_except (py_div real_power apparent_power) ZeroDivisionError (Return 0) ;;
  Return {| power := real_power; current := rms_current;
            voltage := rms_voltage; pf := power_factor |}.

(** The loop body of [check_phasecal]. *)
Definition check_phasecal_body (samples rebuilt_wave : list Q)
           (i : nat) (acc : sums) : result sums :=
  ct_i <- subscript samples i ;;
  voltage_i <- subscript rebuilt_wave i ;;
  Return (accumulate acc (int ct_i) (int voltage_i)).

Definition check_phasecal (samples rebuilt_wave : list Q) (board_voltage : Q)
  : result reading :=
  let vref := board_voltage / 1024 in
  let ct_scaling_factor := vref * 100 in
  let voltage_scaling_factor := vref * (253 # 2) in
  let num_samples := List.length rebuilt_wave in
  acc <- for_range 0 num_samples (check_phasecal_body samples rebuilt_wave) sums0 ;;
  channel_reading num_samples ct_scaling_factor voltage_scaling_factor acc.

(** The loop body of [calculate_power]: the six current samples are read
    first, then the six voltage samples, then every sum is updated. *)
Definition calculate_power_body (samples : rebuilt_waves_dict)
           (i : nat) (acc : six sums) : result (six sums) :=
  cts <- six_mapM (fun ct_samples => subscript ct_samples i) (w_ct samples) ;;
  voltages <- six_mapM (fun v_samples => subscript v_samples i) (w_v_ct samples) ;;
  Return (six_map2 (fun a cv => accumulate a (int (fst cv)) (int (snd cv)))
                   acc (six_map2 pair cts voltages)).

(** [calculate_power].  The source spells the statements after the loop
    out six times, stage by stage; here they are grouped per channel in
    [channel_reading].  The grouping does not change which exception is
    raised: the only division that can fail is by [num_samples], the same
    for every channel and the first statement of either order, and every
    later failure is a [ValueError]. *)
Definition calculate_power (self : monitor) (samples : rebuilt_waves_dict)
           (board_voltage : Q) : result power_results :=
  let vref := board_voltage / 1024 in
  let ct_scaling_factor :=
    six_map (fun accuracy => vref * 100 * accuracy) (accuracy_calibration self) in
  ratio <- py_div (grid_voltage self) (ac_transformer_output_voltage self) ;;
  let ac_voltage_ratio := ratio * 11 in
  let voltage_scaling_factor :=
    vref * ac_voltage_ratio * accuracy_calibration_AC self in
  let num_samples := List.length (at1 (w_v_ct samples)) in
  acc <- for_range 0 num_samples (calculate_power_body samples) (six_pure sums0) ;;
  readings <-
    six_mapM (fun p => channel_reading num_samples (fst p) voltage_scaling_factor (snd p))
             (six_map2 pair ct_scaling_factor acc) ;;
  Return {| r_ct := readings; r_voltage := voltage (at1 readings) |}.

End Calculator.

(** ** Calibration search *)

(** [round(x)] to the nearest integer, ties to the even one. *)
Definition round_half_even (y : Q) : Z :=
  let f := Qfloor y in
  let r := y - inject_Z f in
  if Qlt_bool r (1 # 2) then f
  else if Qlt_bool (1 # 2) r then (f + 1)%Z
  else if Z.even f then f else (f + 1)%Z.

(** [round(x, ndigits)] *)
Definition py_round (x : Q) (ndigits : nat) : Q :=
  let scale := inject_Z (10 ^ Z.of_nat ndigits) in
  inject_Z (round_half_even (x * scale)) / scale.

(** The dictionary [best_pf]: [{'pf': .., 'cal': ..}]. *)
Record best : Type := {
  b_pf : Q;
  b_cal : Q
}.

(** The locals of [find_phasecal] that live across loop iterations.
    [new_phasecal] is unbound until its first assignment.  [calls] counts
    the [collect_data] calls made so far. *)
Record walk : Type := {
  cur_pf : Q;
  previous_phasecal : Q;
  previous_pf : Q;
  trends : list Q;
  increment : Q;
  decrement : Q;
  new_phasecal : option Q;
  calls : nat
}.

Definition big_increment : Q := 101 # 100.
Definition big_decrement : Q := 98 # 100.

(** Reading a local variable that may not be bound yet. *)
Definition read_local {A : Type} (x : option A) : result A :=
  match x with
  | Some a => Return a
  | None => Raise UnboundLocalError
  end.

(** How one pass through the body of a [for] loop ends. *)
Inductive flow (A : Type) : Type :=
| Next (a : A)
| Break (a : A).

Arguments Next {A} a.
Arguments Break {A} a.

Section Search.

(** "Collect a live sample and calculate PF using new_phasecal":
    [measure k c] is the power factor obtained from the [k]-th call of
    [collect_data], rebuilt with coefficient [c]. *)
Variable measure : nat -> Q -> result Q.

(** One pass through the body of [for _ in range(75)]. *)
Definition iteration (st : walk) (best_pf : best) : result (flow (walk * best)) :=
  let pf := cur_pf st in
  if Qeq_bool (py_round pf 4) 1 then
    cal <- read_local (new_phasecal st) ;;
    Return (Break (st, {| b_pf := pf; b_cal := cal |}))
  else
    let '(new_phasecal, action) :=
      if Qlt_bool pf 1 then
        (if negb (Qeq_bool (py_round pf 2) 1)
         then previous_phasecal st * big_increment
         else previous_phasecal st * increment st,
         "incremented"%string)
      else
        (if negb (Qeq_bool (py_round pf 2) 1)
         then previous_phasecal st * big_decrement
         else previous_phasecal st * decrement st,
         "decremented"%string) in
    pf <- measure (calls st) new_phasecal ;;
    let best_pf :=
      if Qlt_bool (b_pf best_pf) pf
      then {| b_pf := pf; b_cal := new_phasecal |}
      else best_pf in
    let trends := (trends st ++ [pf - previous_pf st])%list in
    let previous_phasecal := new_phasecal in
    if Nat.eqb (List.length trends) 2 then
      trends_0 <- subscript trends 0 ;;
      trends_1 <- subscript trends 1 ;;
      let '(increment, decrement, new_phasecal) :=
        if Qlt_bool trends_0 0 && Qlt_bool trends_1 0 then
          let increment := 1 + (Qabs (1 - increment st) / 2) in
          let decrement := decrement st + ((1 - decrement st) / 2) in
          (increment, decrement,
           if String.eqb action "increment"
           then previous_phasecal * decrement
           else previous_phasecal * increment)
        else (increment st, decrement st, new_phasecal) in
      (* trends = []; continue *)
      Return (Next ({| cur_pf := pf;
                       previous_phasecal := previous_phasecal;
                       previous_pf := previous_pf st;
                       trends := [];
                       increment := increment;
                       decrement := decrement;
                       new_phasecal := Some new_phasecal;
                       calls := S (calls st) |}, best_pf))
    else
      let new_phasecal :=
        if String.eqb action "increment"
        then previous_phasecal * increment st
        else previous_phasecal * decrement st in
      Return (Next ({| cur_pf := pf;
                       previous_phasecal := previous_phasecal;
                       previous_pf := pf;
                       trends := trends;
                       increment := increment st;
                       decrement := decrement st;
                       new_phasecal := Some new_phasecal;
                       calls := S (calls st) |}, best_pf)).

(** [for _ in range(count)] around [iteration]. *)
Fixpoint round_loop (count : nat) (st : walk) (best_pf : best)
  : result (walk * best) :=
  match count with
  | O => Return (st, best_pf)
  | S count' =>
      r <- iteration st best_pf ;;
      match r with
      | Break out => Return out
      | Next (st', best_pf') => round_loop count' st' best_pf'
      end
  end.

(** One round: a fresh [best_pf], then at most 75 iterations. *)
Definition calibration_round (st : walk) : result (walk * best) :=
  round_loop 75 st {| b_pf := 0; b_cal := 0 |}.

(** [for i, _ in enumerate(range(count), start=1)] *)
Fixpoint rounds (count : nat) (st : walk) (best_pfs : list best)
  : result (list best) :=
  match count with
  | O => Return best_pfs
  | S count' =>
      r <- calibration_round st ;;
      rounds count' (fst r) (best_pfs ++ [snd r])%list
  end.

(** The state on entry to the first round, for the initial power factor
    [pf] and [k] earlier calls of [collect_data]. *)
Definition initial_walk (pf : Q) (k : nat) : walk :=
  {| cur_pf := pf;
     previous_phasecal := 1;
     previous_pf := pf;
     trends := [];
     increment := 1005 # 1000;
     decrement := 995 # 1000;
     new_phasecal := None;
     calls := k |}.

(** [find_phasecal] from the statement [best_pfs = []] on. *)
Definition find_phasecal_search (pf : Q) (k : nat) : result (list best) :=
  rounds 3 (initial_walk pf k) [].

End Search.

(** The hardware the monitor reads: the [k]-th call of [collect_data] and
    the [j]-th call of [get_board_voltage]. *)
Record hardware : Type := {
  collect_data : nat -> samples_dict;
  get_board_voltage : nat -> Q
}.

Section Calibration.

Variable sqrt : Q -> Q.
Variable hw : hardware.

(** The three statements that follow every [collect_data] call of the
    search: rebuild with [PHASECAL], check, read ['pf']. *)
Definition live_pf (ct_selection : channel) (board_voltage : Q)
           (k : nat) (PHASECAL : Q) : result Q :=
  let samples := collect_data hw k in
  rebuilt_wave <-
    rebuild_wave (sel ct_selection (s_ct samples)) (s_voltage samples) PHASECAL ;;
  results <- check_phasecal sqrt (ct rebuilt_wave) (new_v rebuilt_wave) board_voltage ;;
  Return (pf results).

(** [find_phasecal]; [k] is the number of [collect_data] calls made
    before it is entered. *)
Definition find_phasecal (samples : samples_dict) (ct_selection : channel)
           (accuracy_digits : nat) (board_voltage : Q) (k : nat)
  : result (list best) :=
  rebuilt_wave <-
    rebuild_wave (sel ct_selection (s_ct samples)) (s_voltage samples) 1 ;;
  results <- check_phasecal sqrt (ct rebuilt_wave) (new_v rebuilt_wave) board_voltage ;;
  let pf := pf results in
  find_phasecal_search (live_pf ct_selection board_voltage) pf k.

End Calibration.

(** ** The [phase] mode of the main block *)

(** What the operator sees. *)
Inductive message : Type :=
| installed_backwards      (* "Current transformer is installed backwards. ..." *)
| still_backwards          (* "It still looks like the current transformer ..." *)
| please_wait              (* first debug line of [find_phasecal] *)
| update_config (value : Q) (* "Please update the value for ... " *).

Inductive event : Type :=
| Info (m : message)
| Debug (m : message)
| Input                    (* input("[ENTER]") *).

(** [sum([x['cal'] for x in best_pfs]) / len([x['cal'] for x in best_pfs])] *)
Definition avg_phasecal (best_pfs : list best) : result Q :=
  let cals := map b_cal best_pfs in
  py_div (fold_left Qplus cals 0) (inject_Z (Z.of_nat (List.length cals))).

Section PhaseMode.

Variable sqrt : Q -> Q.
Variable hw : hardware.
Variable rpm : monitor.

(** The four statements of an orientation reading: the [k]-th batch,
    rebuilt with [PHASECAL], checked with the [j]-th board voltage. *)
Definition orientation_pf (ct_selection : channel) (PHASECAL : Q) (k j : nat)
  : result Q :=
  let samples := collect_data hw k in
  rebuilt_wave <-
    rebuild_wave (sel ct_selection (s_ct samples)) (s_voltage samples) PHASECAL ;;
  let board_voltage := get_board_voltage hw j in
  results <- check_phasecal sqrt (ct rebuilt_wave) (new_v rebuilt_wave) board_voltage ;;
  Return (pf results).

(** From [samples = rpm.collect_data(2000)] before [find_phasecal] to the
    recommendation, after [k] batches and [j] board voltage readings. *)
Definition search_and_recommend (ct_selection : channel) (log : list event)
           (k j : nat) : list event * result Q :=
  let samples := collect_data hw k in
  let board_voltage := get_board_voltage hw j in
  let log := (log ++ [Debug please_wait])%list in
  match find_phasecal sqrt hw samples ct_selection 3 board_voltage (S k) with
  | Raise e => (log, Raise e)
  | Return best_pfs =>
      match avg_phasecal best_pfs with
      | Raise e => (log, Raise e)
      | Return avg =>
          ((log ++ [Info (update_config (py_round avg 8))])%list, Return avg)
      end
  end.

(** The calibration of one channel, from the first [collect_data] call of
    the [phase] mode to the recommended coefficient. *)
Definition phase_mode (ct_selection : channel) : list event * result Q :=
  match orientation_pf ct_selection
                       (sel ct_selection (ct_phase_correction rpm)) 0 0 with
  | Raise e => ([], Raise e)
  | Return pf =>
      if Qlt_bool pf 0 then
        let log := [Info installed_backwards; Input] in
        match orientation_pf ct_selection 1 1 1 with
        | Raise e => (log, Raise e)
        | Return pf =>
            if Qlt_bool pf 0
            then ((log ++ [Info still_backwards])%list, Raise SystemExit)
            else search_and_recommend ct_selection log 2 2
        end
      else search_and_recommend ct_selection [] 1 1
  end.

End PhaseMode.

(** ** A computable square root for concrete runs *)

(** [sqrt (n / d) = sqrt (n * d) / d], with the integer square root on the
    reduced fraction: exact whenever the argument is the square of a
    rational. *)
Definition Qsqrt_floor (x : Q) : Q :=
  let r := Qred x in
  inject_Z (Z.sqrt (Qnum r * Zpos (Qden r))) / inject_Z (Zpos (Qden r)).

(** ** The recurrences of the reconstructor, as predicates on sequences *)

(** The recurrence on the prior output:
    [V'[0] = V[0]] and [V'[i] = V'[i-1] + c * (V[i] - V'[i-1])]. *)
Definition prior_output_recurrence (c : Q) (V V' : list Q) : Prop :=
  List.length V' = List.length V /\
  nth 0 V' 0 == nth 0 V 0 /\
  forall i, (1 <= i < List.length V)%nat ->
    nth i V' 0 == nth (i - 1) V' 0 + c * (nth i V 0 - nth (i - 1) V' 0).

(** The recurrence on the prior input:
    [V'[0] = V[0]] and [V'[i] = V[i-1] + c * (V[i] - V[i-1])]. *)
Definition prior_input_recurrence (c : Q) (V V' : list Q) : Prop :=
  List.length V' = List.length V /\
  nth 0 V' 0 == nth 0 V 0 /\
  forall i, (1 <= i < List.length V)%nat ->
    nth i V' 0 == nth (i - 1) V 0 + c * (nth i V 0 - nth (i - 1) V 0).

(** ** Integer-truncated waveforms *)

(** A sample after [int(...)], read back as a number. *)
Definition truncated (x : Q) : Q := inject_Z (int x).

Definition truncated_waves (samples : rebuilt_waves_dict) : rebuilt_waves_dict :=
  {| w_v_ct := six_map (map truncated) (w_v_ct samples);
     w_voltage := w_voltage samples;
     w_ct := six_map (map truncated) (w_ct samples) |}.

(** ** Concrete batches and hardware for the examples *)

(** Two samples, current and voltage in phase: power factor 1. *)
Definition in_phase_batch : samples_dict :=
  {| s_ct := six_pure [0; 2]; s_voltage := [0; 2] |}.

(** Power factor positive at coefficient 1, negative at coefficient 3/2. *)
Definition skewed_batch : samples_dict :=
  {| s_ct := six_pure [0; 0; 1]; s_voltage := [0; 10; 6] |}.

(** Power factor negative at every coefficient near 1. *)
Definition reversed_batch : samples_dict :=
  {| s_ct := six_pure [0; 0; 1]; s_voltage := [0; 10; 0] |}.

(** Hardware that delivers [first] and then [later] for ever, on a 3.3 V
    board. *)
Definition bench (first later : samples_dict) : hardware :=
  {| collect_data := fun k => match k with O => first | S _ => later end;
     get_board_voltage := fun _ => 33 # 10 |}.

(** A monitor whose six phase coefficients are all [c]. *)
Definition monitor_with (c : Q) : monitor :=
  {| grid_voltage := 2474 # 10;
     ac_transformer_output_voltage := 2771 # 100;
     ct_phase_correction := six_pure c;
     accuracy_calibration := six_pure 1;
     accuracy_calibration_AC := 1 |}.

(** Measurements replayed from a list: the [k]-th batch yields the [k]-th
    power factor whatever the coefficient, and 0 once the list is used up. *)
Definition replay (pfs : list Q) (k : nat) (c : Q) : result Q :=
  Return (nth k pfs 0).

(** ** Means of integer sequences *)

Definition Zsum (l : list Z) : Z := fold_right Z.add 0%Z l.

(** The element-wise product of two sequences. *)
Fixpoint products (xs ys : list Z) : list Z :=
  match xs, ys with
  | x :: xs', y :: ys' => (x * y)%Z :: products xs' ys'
  | _, _ => []
  end.

Definition mean (l : list Z) : Q :=
  inject_Z (Zsum l) / inject_Z (Z.of_nat (List.length l)).

(** The sums of the sample loop over two integer sequences read in step. *)
Fixpoint sums_over (cts vs : list Z) (acc : sums) : sums :=
  match cts, vs with
  | c :: cts', v :: vs' => sums_over cts' vs' (accumulate acc c v)
  | _, _ => acc
  end.

(** ** Batches for the calculator *)

(** The regression batch of the specification, on all six channels. *)
Definition anchor_waves : rebuilt_waves_dict :=
  {| w_v_ct := six_pure [10; 20; 30; 40];
     w_voltage := [10; 20; 30; 40];
     w_ct := six_pure [10; 20; 30; 40] |}.

(** Six flat channels: constant current and constant voltage. *)
Definition flat_waves : rebuilt_waves_dict :=
  {| w_v_ct := six_pure (repeat 512 4);
     w_voltage := repeat 512 4;
     w_ct := six_pure (repeat 7 4) |}.

(** The batch with every sequence cut to its first [n] elements. *)
Definition clipped (n : nat) (samples : rebuilt_waves_dict) : rebuilt_waves_dict :=
  {| w_v_ct := six_map (firstn n) (w_v_ct samples);
     w_voltage := w_voltage samples;
     w_ct := six_map (firstn n) (w_ct samples) |}.

(** Five current samples for four voltage samples, on all six channels. *)
Definition long_current_waves : rebuilt_waves_dict :=
  {| w_v_ct := six_pure [10; 20; 30; 40];
     w_voltage := [10; 20; 30; 40];
     w_ct := six_pure [10; 20; 30; 40; 50] |}.

(** ** Rounds of the calibration search *)

(** [if pf > best_pf['pf']: best_pf.update(...)] for the probe
    [(coefficient, power factor)]. *)
Definition keep_best (b : best) (probe : Q * Q) : best :=
  if Qlt_bool (b_pf b) (snd probe)
  then {| b_pf := snd probe; b_cal := fst probe |}
  else b.

Definition no_best : best := {| b_pf := 0; b_cal := 0 |}.

(** [best_pf] after the probes [ps], starting from [b]. *)
Definition best_of (b : best) (ps : list (Q * Q)) : best :=
  fold_left keep_best ps b.

Section Probes.

Variable measure : nat -> Q -> result Q.

(** The measurements of a round, in order: the coefficient tried and the
    power factor measured with it, up to the iteration that breaks. *)
Fixpoint probes (count : nat) (st : walk) (best_pf : best) : list (Q * Q) :=
  match count with
  | O => []
  | S count' =>
      match iteration measure st best_pf with
      | Return (Next (st', best_pf')) =>
          (previous_phasecal st', cur_pf st') :: probes count' st' best_pf'
      | _ => []
      end
  end.

(** What a round that starts in [st] leaves behind: the state [st'] and
    the entry [b] of [best_pfs]. *)
Definition round_outcome (st st' : walk) (b : best) : Prop :=
  let ps := probes 75 st no_best in
  let checked := cur_pf st :: map snd ps in
  (List.length ps <= 75)%nat /\
  calls st' = (calls st + List.length ps)%nat /\
  cur_pf st' = nth (List.length ps) checked 0 /\
  (forall i, (i < List.length ps)%nat -> ~ py_round (nth i checked 0) 4 == 1) /\
  (((List.length ps < 75)%nat /\
    py_round (cur_pf st') 4 == 1 /\ b_pf b = cur_pf st')
   \/
   (List.length ps = 75%nat /\
    (forall p, In p ps -> snd p <= b_pf b) /\
    ((b = no_best /\ forall p, In p ps -> snd p <= 0)
     \/ (0 < b_pf b /\ In (b_cal b, b_pf b) ps)))).

End Probes.

(** "Keeps the numerically highest power factor seen and its coefficient":
    [b] is one of the probes and no probe has a higher power factor. *)
Definition keeps_highest_seen (ps : list (Q * Q)) (b : best) : Prop :=
  Exists (fun p => fst p == b_cal b /\ snd p == b_pf b) ps /\
  Forall (fun p => snd p <= b_pf b) ps.

(** ** Acquisition: the converter behind the SPI bus *)

Module Acquisition.

(** [ADC_CHANNELS] / [self.adc_channels]: the converter input of every
    signal. *)
Record adc_channels : Type := {
  ct1_channel : Z;
  ct2_channel : Z;
  ct3_channel : Z;
  ct4_channel : Z;
  ct5_channel : Z;
  ct6_channel : Z;
  board_voltage_channel : Z;
  v_sensor_channel : Z
}.

(** The value of [ADC_CHANNELS] in [config.py]. *)
Definition ADC_CHANNELS : adc_channels :=
  {| ct1_channel := 0; ct2_channel := 1; ct3_channel := 2; ct4_channel := 3;
     ct5_channel := 6; ct6_channel := 7;
     board_voltage_channel := 4; v_sensor_channel := 5 |}.

(** The SPI device: [bus k request] is the answer of [spi.xfer2] to the
    [k]-th transfer of the run. *)
Definition spi : Type := nat -> list Z -> list Z.

(** The list handed to [spi.xfer2]; [8 + adc_num << 4] is
    [(8 + adc_num) << 4]. *)
Definition request (adc_num : Z) : list Z := [1; Z.shiftl (8 + adc_num) 4; 0]%Z.

(** [read_adc], as the [k]-th transfer. *)
Definition read_adc (bus : spi) (k : nat) (adc_num : Z) : result Z :=
  let r := bus k (request adc_num) in
  r_1 <- subscript r 1 ;;
  r_2 <- subscript r 2 ;;
  Return (Z.shiftl (Z.land r_1 3) 8 + r_2)%Z.

(** The seven lists [collect_data] fills. *)
Record raw_lists : Type := {
  ct1_data : list Z;
  ct2_data : list Z;
  ct3_data : list Z;
  ct4_data : list Z;
  ct5_data : list Z;
  ct6_data : list Z;
  v_data : list Z
}.

Definition no_data : raw_lists :=
  {| ct1_data := []; ct2_data := []; ct3_data := []; ct4_data := [];
     ct5_data := []; ct6_data := []; v_data := [] |}.

(** One pass of [for _ in range(num_samples)]: seven reads in the order
    ct1, ct5, ct2, v, ct3, ct4, ct6, then seven appends.  Pass [i] of a
    call that starts at transfer [k0] begins at transfer [k0 + 7 * i]. *)
Definition collect_data_body (bus : spi) (channels : adc_channels) (k0 : nat)
           (i : nat) (acc : raw_lists) : result raw_lists :=
  let k := (k0 + 7 * i)%nat in
  ct1 <- read_adc bus k (ct1_channel channels) ;;
  ct5 <- read_adc bus (k + 1) (ct5_channel channels) ;;
  ct2 <- read_adc bus (k + 2) (ct2_channel channels) ;;
  v <- read_adc bus (k + 3) (v_sensor_channel channels) ;;
  ct3 <- read_adc bus (k + 4) (ct3_channel channels) ;;
  ct4 <- read_adc bus (k + 5) (ct4_channel channels) ;;
  ct6 <- read_adc bus (k + 6) (ct6_channel channels) ;;
  Return {| ct1_data := ct1_data acc ++ [ct1];
            ct2_data := ct2_data acc ++ [ct2];
            ct3_data := ct3_data acc ++ [ct3];
            ct4_data := ct4_data acc ++ [ct4];
            ct5_data := ct5_data acc ++ [ct5];
            ct6_data := ct6_data acc ++ [ct6];
            v_data := v_data acc ++ [v] |}.

(** The dictionary [collect_data] returns, without its time stamp. *)
Definition to_samples (d : raw_lists) : samples_dict :=
  {| s_ct := Six (map inject_Z (ct1_data d)) (map inject_Z (ct2_data d))
                 (map inject_Z (ct3_data d)) (map inject_Z (ct4_data d))
                 (map inject_Z (ct5_data d)) (map inject_Z (ct6_data d));
     s_voltage := map inject_Z (v_data d) |}.

(** [collect_data(num_samples)], starting at transfer [k0]. *)
Definition collect_data (bus : spi) (channels : adc_channels) (k0 : nat)
           (num_samples : nat) : result samples_dict :=
  d <- for_range 0 num_samples (collect_data_body bus channels k0) no_data ;;
  Return (to_samples d).

(** [while len(samples) <= 10] of [get_board_voltage], starting at
    transfer [k]; [None] when [fuel] passes were not enough to leave the
    loop. *)
Fixpoint board_samples (bus : spi) (channels : adc_channels) (fuel k : nat)
         (samples : list Z) : option (result (list Z * nat)) :=
  if Nat.leb (List.length samples) 10 then
    match fuel with
    | O => None
    | S fuel' =>
        match read_adc bus k (board_voltage_channel channels) with
        | Raise e => Some (Raise e)
        | Return data => board_samples bus channels fuel' (S k) (samples ++ [data])
        end
    end
  else Some (Return (samples, k)).

(** [sum(samples)] *)
Definition py_sum (samples : list Z) : Z := fold_left Z.add samples 0%Z.

(** [get_board_voltage], starting at transfer [k], with [fuel] passes
    allowed to its loop: the board voltage and the number of the next
    transfer. *)
Definition get_board_voltage (bus : spi) (channels : adc_channels) (fuel k : nat)
  : option (result (Q * nat)) :=
  match board_samples bus channels fuel k [] with
  | None => None
  | Some (Raise e) => Some (Raise e)
  | Some (Return (samples, k')) =>
      Some (avg_reading <-
              py_div (inject_Z (py_sum samples))
                     (inject_Z (Z.of_nat (List.length samples))) ;;
            Return (avg_reading / 1024 * (331 # 100) * 2, k'))
  end.

(** The first four statements of the loop body of [run_main]: board
    voltage, a batch of 2000 samples, the six rebuilt waves, the power
    calculation.  The results come with the number of the next transfer:
    a batch of 2000 samples takes 7 * 2000 transfers. *)
Definition poll (sqrt : Q -> Q) (bus : spi) (channels : adc_channels)
           (self : monitor) (fuel k : nat)
  : option (result (power_results * nat)) :=
  match get_board_voltage bus channels fuel k with
  | None => None
  | Some (Raise e) => Some (Raise e)
  | Some (Return (board_voltage, k')) =>
      Some (samples <- collect_data bus channels k' 2000 ;;
            rebuilt_waves <- rebuild_waves samples (ct_phase_correction self) ;;
            results <- calculate_power sqrt self rebuilt_waves board_voltage ;;
            Return (results, (k' + 7 * 2000)%nat))
  end.

(** What the converter delivers when a transfer answers three bytes. *)
Definition reading_at (bus : spi) (k : nat) (adc_num : Z) : Z :=
  let r := bus k (request adc_num) in
  (Z.shiftl (Z.land (nth 1 r 0) 3) 8 + nth 2 r 0)%Z.

(** Every transfer is answered by three bytes. *)
Definition answers_bytes (bus : spi) : Prop :=
  forall k req, List.length (bus k req) = 3%nat /\
                Forall (fun b => 0 <= b < 256)%Z (bus k req).

(** The place of a channel's read within one pass of [collect_data]
    (ct1, ct5, ct2, v, ct3, ct4, ct6) and its converter input. *)
Definition slot (c : channel) : nat :=
  match c with
  | ct1 => 0 | ct5 => 1 | ct2 => 2 | ct3 => 4 | ct4 => 5 | ct6 => 6
  end.

Definition input_of (channels : adc_channels) (c : channel) : Z :=
  match c with
  | ct1 => ct1_channel channels
  | ct2 => ct2_channel channels
  | ct3 => ct3_channel channels
  | ct4 => ct4_channel channels
  | ct5 => ct5_channel channels
  | ct6 => ct6_channel channels
  end.

(** A bus for the examples: the answer depends on the transfer number
    only. *)
Definition counting_bus : spi :=
  fun k _ => [0; Z.of_nat k mod 4; Z.of_nat (37 * k) mod 256]%Z.

End Acquisition.

(** ** The averaging window of [run_main] *)

Module Telemetry.

(** [dict(power=[], pf=[], current=[])] *)
Record pf_dict : Type := {
  d_power : list Q;
  d_pf : list Q;
  d_current : list Q
}.

(** [dict(power=[], current=[])] *)
Record net_dict : Type := {
  n_power : list Q;
  n_current : list Q
}.

(** The locals of [run_main] that live across polling cycles; they are also
    the arguments of [infl.write_to_influx] (without [poll_time]). *)
Record window : Type := {
  solar_power_values : pf_dict;
  home_load_values : pf_dict;
  net_power_values : net_dict;
  ct_dict : six pf_dict;
  rms_voltages : list Q;
  i : nat
}.

Definition empty_dict : pf_dict := {| d_power := []; d_pf := []; d_current := [] |}.

(** The state before the first cycle and after every write. *)
Definition fresh : window :=
  {| solar_power_values := empty_dict;
     home_load_values := empty_dict;
     net_power_values := {| n_power := []; n_current := [] |};
     ct_dict := six_pure empty_dict;
     rms_voltages := [];
     i := 0 |}.

(** The three appends to one channel's dictionary. *)
Definition append_reading (d : pf_dict) (r : reading) : pf_dict :=
  {| d_power := d_power d ++ [power r];
     d_current := d_current d ++ [current r];
     d_pf := d_pf d ++ [pf r] |}.

(** The rest of the loop body of [run_main], from "Prepare values for
    database storage" on: the window after the cycle, and the window handed
    to [write_to_influx] when the cycle writes. *)
Definition aggregate (w : window) (results : power_results)
  : window * option window :=
  let grid_power := six_map power (r_ct results) in
  let grid_current := six_map current (r_ct results) in
  let solar_power := 0 in
  let solar_current := 0 in
  let solar_pf := 0 in
  let voltage := r_voltage results in
  let '(solar_power, solar_current, solar_pf) :=
    if Qlt_bool solar_power 20 then (0, 0, 0)
    else (solar_power, solar_current, solar_pf) in
  let grid_1_current :=
    if Qlt_bool (at1 grid_power) 0
    then at1 grid_current * -1 else at1 grid_current in
  let grid_2_current :=
    if Qlt_bool (at2 grid_power) 0
    then at2 grid_current * -1 else at2 grid_current in
  let solar_current :=
    if Qlt_bool 0 solar_power then solar_current * -1 else solar_current in
  let home_consumption_power :=
    at1 grid_power + at2 grid_power + at3 grid_power
    + at4 grid_power + at5 grid_power + at6 grid_power + solar_power in
  let net_power := home_consumption_power - solar_power in
  let home_consumption_current :=
    grid_1_current + grid_2_current + at3 grid_current
    + at4 grid_current + at5 grid_current + at6 grid_current - solar_current in
  let net_current :=
    grid_1_current + grid_2_current + at3 grid_current
    + at4 grid_current + at5 grid_current + at6 grid_current + solar_current in
  if Nat.ltb (i w) 2 then
    ({| solar_power_values :=
          {| d_power := d_power (solar_power_values w) ++ [solar_power];
             d_current := d_current (solar_power_values w) ++ [solar_current];
             d_pf := d_pf (solar_power_values w) ++ [solar_pf] |};
        home_load_values :=
          {| d_power := d_power (home_load_values w) ++ [home_consumption_power];
             d_current := d_current (home_load_values w) ++ [home_consumption_current];
             d_pf := d_pf (home_load_values w) |};
        net_power_values :=
          {| n_power := n_power (net_power_values w) ++ [net_power];
             n_current := n_current (net_power_values w) ++ [net_current] |};
        ct_dict := six_map2 append_reading (ct_dict w) (r_ct results);
        rms_voltages := rms_voltages w ++ [voltage];
        i := S (i w) |},
     None)
  else (fresh, Some w).

(** [while True] over the results of successive polling cycles: the final
    window and the windows written, in order. *)
Fixpoint run_main_loop (w : window) (cycles : list power_results)
  : window * list window :=
  match cycles with
  | [] => (w, [])
  | results :: cycles' =>
      let '(w', written) := aggregate w results in
      let '(w_end, writes) := run_main_loop w' cycles' in
      (w_end, match written with
              | Some payload => payload :: writes
              | None => writes
              end)
  end.

(** The first [cycles] passes of [while True] in [run_main], starting at
    transfer [k] with window [w]: the windows written so far and either
    the window left behind or the exception that ended the loop.  [None]
    when [fuel] is too small for the loop of [get_board_voltage]. *)
Fixpoint run_main (sqrt : Q -> Q) (bus : Acquisition.spi)
         (channels : Acquisition.adc_channels) (self : monitor) (fuel : nat)
         (cycles k : nat) (w : window) : option (list window * result window) :=
  match cycles with
  | O => Some ([], Return w)
  | S cycles' =>
      match Acquisition.poll sqrt bus channels self fuel k with
      | None => None
      | Some (Raise e) => Some ([], Raise e)
      | Some (Return (results, k')) =>
          let '(w', written) := aggregate w results in
          match run_main sqrt bus channels self fuel cycles' k' w' with
          | None => None
          | Some (writes, outcome) =>
              Some (match written with
                    | Some payload => payload :: writes
                    | None => writes
                    end, outcome)
          end
      end
  end.

End Telemetry.

(** ** The direction rule of the calibration search, as a table *)

(** The factor applied to [previous_phasecal] for the power factor and the
    fine steps of [st]. *)
Definition step_factor (st : walk) : Q :=
  let pf := cur_pf st in
  if Qlt_bool pf (995 # 1000) then big_increment
  else if Qlt_bool pf 1 then increment st
  else if Qle_bool pf (1005 # 1000) then decrement st
  else big_decrement.

(** The fine steps stay on their side of 1 and within their initial gap,
    and the coefficient stays positive. *)
Definition steps_in_range (st : walk) : Prop :=
  1 < increment st /\ increment st <= 1005 # 1000 /\
  995 # 1000 <= decrement st /\ decrement st < 1 /\
  0 < previous_phasecal st.

(** The walk after a first iteration that started from power factor 0.9
    and measured power factor 1 with coefficient 1.01. *)
Definition settled_walk : walk :=
  {| cur_pf := 1; previous_phasecal := 1 * big_increment; previous_pf := 1;
     trends := [1 - (9 # 10)]; increment := 1005 # 1000;
     decrement := 995 # 1000;
     new_phasecal := Some (1 * big_increment * (995 # 1000)); calls := 1 |}.

(** ** Integer batches and their variances *)

(** The codes [s * x + d] for the codes [x] of [l]. *)
Definition rescaled (s d : Z) (l : list Z) : list Z :=
  map (fun x => s * x + d)%Z l.

(** [mean(x * x) - mean(x) * mean(x)], the argument of [sqrt] in the RMS
    statements. *)
Definition variance (l : list Z) : Q :=
  mean (products l l) - mean l * mean l.

(** ** Batches the search can measure *)

(** The current list of channel [c] is as long as the voltage list, and
    neither is empty. *)
Definition matched_batch (c : channel) (samples : samples_dict) : Prop :=
  List.length (sel c (s_ct samples)) = List.length (s_voltage samples) /\
  (0 < List.length (s_voltage samples))%nat.

(** ** The real-power formula of the specification *)

(** The formula as the specification words it, with the means taken over
    the current and voltage samples themselves:
    [(mean(current * voltage) - mean_current * mean_voltage)
     * current_scale * voltage_scale]. *)
Definition Qsum (l : list Q) : Q := fold_right Qplus 0 l.

Fixpoint Qproducts (xs ys : list Q) : list Q :=
  match xs, ys with
  | x :: xs', y :: ys' => x * y :: Qproducts xs' ys'
  | _, _ => []
  end.

Definition Qmean (l : list Q) : Q :=
  Qsum l / inject_Z (Z.of_nat (List.length l)).

Definition stated_real_power (current voltage : list Q)
           (current_scale voltage_scale : Q) : Q :=
  (Qmean (Qproducts current voltage) - Qmean current * Qmean voltage)
  * current_scale * voltage_scale.

(** Three converter codes on every channel; rebuilt with a coefficient
    other than 1 the voltage has fractional parts. *)
Definition ramp_batch : samples_dict :=
  {| s_ct := six_pure [0; 1; 2]; s_voltage := [0; 1; 2] |}.

(** ** Runs of the calibration search for the examples *)

(** A resistive load read through a reversed sensor: power factor -1 at
    each of the 225 measurements of a run. *)
Definition reversed_load : list Q := repeat (-1) 225.

(** A first round of 75 measurements at power factor 0.9, then one
    measurement at power factor 1. *)
Definition late_success : list Q := (repeat (9 # 10) 75 ++ [1])%list.

(** * Properties *)

(** ** Reconstructor *)

Lemma rebuild_points_length (c p : Q) (rest : list Q) :
  List.length (rebuild_points c p rest) = List.length rest.
Proof.
  revert p; induction rest as [|x rest IH]; intros p; simpl; [reflexivity|].
  now rewrite IH.
Qed.

Lemma rebuild_points_nth (c : Q) (rest : list Q) :
  forall (p : Q) (j : nat), (j < List.length rest)%nat ->
    nth j (rebuild_points c p rest) 0
    = nth j (p :: rest) 0 + c * (nth j rest 0 - nth j (p :: rest) 0).
Proof.
  induction rest as [|x rest IH]; intros p j Hj; simpl in Hj; [lia|].
  destruct j as [|j]; [reflexivity|].
  cbn [rebuild_points nth]. rewrite IH by lia. reflexivity.
Qed.

Lemma rebuild_points_recurrence (c v0 : Q) (rest : list Q) :
  prior_input_recurrence c (v0 :: rest) (v0 :: rebuild_points c v0 rest).
Proof.
  split; [|split].
  - simpl. now rewrite rebuild_points_length.
  - simpl. reflexivity.
  - intros i Hi. simpl in Hi.
    destruct i as [|j]; [lia|].
    replace (S j - 1)%nat with j by lia.
    change (nth (S j) (v0 :: rebuild_points c v0 rest) 0)
      with (nth j (rebuild_points c v0 rest) 0).
    change (nth (S j) (v0 :: rest) 0) with (nth j rest 0).
    rewrite rebuild_points_nth by lia. reflexivity.
Qed.

(** The six waves of [rebuild_waves] are six runs of the single-channel
    loop. *)
Lemma rebuild_points6_sel (P : six Q) (k : channel) (rest : list Q) :
  forall (p : Q) (waves : six (list Q)),
    sel k (rebuild_points6 P p rest waves)
    = (sel k waves ++ rebuild_points (sel k P) p rest)%list.
Proof.
  induction rest as [|x rest IH]; intros p waves; simpl.
  - now rewrite app_nil_r.
  - rewrite IH. destruct k; simpl; now rewrite <- app_assoc.
Qed.

Lemma rebuild_wave_nonempty (samples : list Q) (v0 : Q) (rest : list Q) (c : Q) :
  rebuild_wave samples (v0 :: rest) c
  = Return {| new_v := v0 :: rebuild_points c v0 rest;
              ct := samples; original_v := v0 :: rest |}.
Proof. reflexivity. Qed.

Lemma rebuild_waves_nonempty (S : samples_dict) (v0 : Q) (rest : list Q)
      (P : six Q) :
  s_voltage S = v0 :: rest ->
  exists w, rebuild_waves S P = Return w /\
            w_voltage w = v0 :: rest /\ w_ct w = s_ct S /\
            forall k, sel k (w_v_ct w) = v0 :: rebuild_points (sel k P) v0 rest.
Proof.
  intros HV. unfold rebuild_waves. rewrite HV. simpl.
  eexists; split; [reflexivity|]. simpl. repeat split.
  intros k. rewrite rebuild_points6_sel. now destruct k.
Qed.

(** C1, as stated, fails: with [V = [0; 10; 20]] and [c = 1/2] the code
    returns [[0; 5; 15]], while the recurrence on the prior output asks for
    [5 + 1/2 * (20 - 5) = 25/2] at index 2. *)
Lemma rebuild_wave_not_prior_output :
  exists w,
    rebuild_wave [] [0; 10; 20] (1 # 2) = Return w /\
    (1 < List.length [0; 10; 20])%nat /\
    Forall2 Qeq (new_v w) [0; 5; 15] /\
    ~ prior_output_recurrence (1 # 2) [0; 10; 20] (new_v w).
Proof.
  eexists; split; [reflexivity|]. split; [simpl; lia|]. split.
  - simpl. repeat constructor; reflexivity.
  - intros (_ & _ & H). specialize (H 2%nat). simpl in H.
    assert (Hi : (1 <= 2 < 3)%nat) by lia. specialize (H Hi).
    revert H. unfold Qeq. simpl. lia.
Qed.

(** C1 (amended): for every voltage sequence [V] of length [N > 1] and every
    coefficient [c], [rebuild_wave] and every channel of [rebuild_waves]
    return a sequence [V'] of length [N] with [V'[0] = V[0]] and, for
    [i >= 1], [V'[i] = V[i-1] + c * (V[i] - V[i-1])]: each output element
    depends on the prior and the current input element. *)
Theorem rebuild_wave_prior_input (samples V : list Q) (c : Q) :
  (1 < List.length V)%nat ->
  (exists w, rebuild_wave samples V c = Return w /\
             ct w = samples /\ original_v w = V /\
             prior_input_recurrence c V (new_v w)) /\
  (forall (S : samples_dict) (P : six Q), s_voltage S = V ->
     exists w, rebuild_waves S P = Return w /\
               forall k, prior_input_recurrence (sel k P) V (sel k (w_v_ct w))).
Proof.
  intros HN. destruct V as [|v0 rest]; [simpl in HN; lia|]. split.
  - rewrite rebuild_wave_nonempty. eexists; split; [reflexivity|].
    simpl. split; [reflexivity|]. split; [reflexivity|].
    apply rebuild_points_recurrence.
  - intros S P HV. destruct (rebuild_waves_nonempty S v0 rest P HV)
      as (w & Hw & _ & _ & Hk).
    exists w; split; [exact Hw|]. intros k. rewrite Hk.
    apply rebuild_points_recurrence.
Qed.

Lemma rebuild_wave_prior_input_witness :
  (1 < List.length [0; 10; 20])%nat /\
  exists w, rebuild_wave [] [0; 10; 20] (1 # 2) = Return w /\
            prior_input_recurrence (1 # 2) [0; 10; 20] (new_v w).
Proof.
  assert (H : (1 < List.length [0; 10; 20])%nat) by (simpl; lia).
  split; [exact H|].
  destruct (rebuild_wave_prior_input [] [0; 10; 20] (1 # 2) H)
    as [(w & Hw & _ & _ & Hr) _].
  exists w; split; assumption.
Defined.

Lemma rebuild_points_identity (c : Q) (rest : list Q) :
  c == 1 -> forall p, Forall2 Qeq (rebuild_points c p rest) rest.
Proof.
  intros Hc. induction rest as [|x rest IH]; intros p; simpl; constructor.
  - rewrite Hc. ring.
  - apply IH.
Qed.

(** C8: for every voltage sequence of length > 1, the reconstructor with
    coefficient [c = 1.0] returns a sequence equal element for element to
    its input, in [rebuild_wave] and in every channel of [rebuild_waves]
    whose coefficient is 1. *)
Theorem rebuild_wave_identity (samples V : list Q) :
  (1 < List.length V)%nat ->
  (exists w, rebuild_wave samples V 1 = Return w /\ Forall2 Qeq (new_v w) V) /\
  (forall (S : samples_dict) (P : six Q) (k : channel),
     s_voltage S = V -> sel k P == 1 ->
     exists w, rebuild_waves S P = Return w /\ Forall2 Qeq (sel k (w_v_ct w)) V).
Proof.
  intros HN. destruct V as [|v0 rest]; [simpl in HN; lia|]. split.
  - rewrite rebuild_wave_nonempty. eexists; split; [reflexivity|].
    simpl. constructor; [reflexivity|]. now apply rebuild_points_identity.
  - intros S P k HV Hk. destruct (rebuild_waves_nonempty S v0 rest P HV)
      as (w & Hw & _ & _ & Hsel).
    exists w; split; [exact Hw|]. rewrite Hsel.
    constructor; [reflexivity|]. now apply rebuild_points_identity.
Qed.

Lemma rebuild_wave_identity_witness :
  (1 < List.length [10; 20; 30; 40])%nat /\
  exists w, rebuild_wave [10; 20; 30; 40] [10; 20; 30; 40] 1 = Return w /\
            Forall2 Qeq (new_v w) [10; 20; 30; 40].
Proof.
  assert (H : (1 < List.length [10; 20; 30; 40])%nat) by (simpl; lia).
  split; [exact H|].
  exact (proj1 (rebuild_wave_identity [10; 20; 30; 40] [10; 20; 30; 40] H)).
Defined.

(** ** Calculator: truncation *)

Lemma int_inject_Z (z : Z) : int (inject_Z z) = z.
Proof. unfold int; simpl. apply Z.quot_1_r. Qed.

Lemma int_truncated (x : Q) : int (truncated x) = int x.
Proof. apply int_inject_Z. Qed.

Lemma subscript_map {A B : Type} (f : A -> B) (l : list A) (i : nat) :
  subscript (map f l) i = x <- subscript l i ;; Return (f x).
Proof.
  unfold subscript. rewrite nth_error_map.
  now destruct (nth_error l i).
Qed.

Lemma for_range_ext {A : Type} (body1 body2 : nat -> A -> result A) :
  (forall i acc, body1 i acc = body2 i acc) ->
  forall count start acc,
    for_range start count body1 acc = for_range start count body2 acc.
Proof.
  intros Hb. induction count as [|count IH]; intros start acc; simpl.
  - reflexivity.
  - rewrite Hb. destruct (body2 start acc); simpl; [apply IH | reflexivity].
Qed.

(** The loop bodies read their samples only through [int]. *)
Lemma check_phasecal_body_int (s1 w1 s2 w2 : list Q) :
  map int s1 = map int s2 -> map int w1 = map int w2 ->
  forall i acc, check_phasecal_body s1 w1 i acc = check_phasecal_body s2 w2 i acc.
Proof.
  intros Hs Hw i acc. unfold check_phasecal_body, subscript.
  assert (Es := f_equal (fun l => nth_error l i) Hs).
  assert (Ew := f_equal (fun l => nth_error l i) Hw).
  simpl in Es, Ew. rewrite !nth_error_map in Es, Ew.
  destruct (nth_error s1 i), (nth_error s2 i); simpl in *; try discriminate;
    destruct (nth_error w1 i), (nth_error w2 i); simpl in *; try discriminate;
    try reflexivity.
  congruence.
Qed.

Lemma check_phasecal_int (sqrt : Q -> Q) (s1 w1 s2 w2 : list Q) (bv : Q) :
  map int s1 = map int s2 -> map int w1 = map int w2 ->
  check_phasecal sqrt s1 w1 bv = check_phasecal sqrt s2 w2 bv.
Proof.
  intros Hs Hw. unfold check_phasecal.
  assert (HL : List.length w1 = List.length w2).
  { rewrite <- (length_map int w1), <- (length_map int w2). now rewrite Hw. }
  rewrite HL.
  rewrite (for_range_ext _ _ (check_phasecal_body_int s1 w1 s2 w2 Hs Hw)).
  reflexivity.
Qed.

Lemma map_int_truncated (l : list Q) : map int (map truncated l) = map int l.
Proof.
  rewrite map_map. apply map_ext. intros x. apply int_truncated.
Qed.

Lemma map_int_inject_Z (l : list Z) : map int (map inject_Z l) = l.
Proof.
  rewrite map_map. rewrite <- (map_id l) at 2. apply map_ext. apply int_inject_Z.
Qed.

Lemma six_mapM_subscript_map (f : Q -> Q) (s : six (list Q)) (i : nat) :
  six_mapM (fun l => subscript l i) (six_map (map f) s)
  = t <- six_mapM (fun l => subscript l i) s ;; Return (six_map f t).
Proof.
  destruct s as [l1 l2 l3 l4 l5 l6]. unfold six_mapM, six_map; simpl.
  rewrite !subscript_map.
  destruct (subscript l1 i); simpl; [|reflexivity].
  destruct (subscript l2 i); simpl; [|reflexivity].
  destruct (subscript l3 i); simpl; [|reflexivity].
  destruct (subscript l4 i); simpl; [|reflexivity].
  destruct (subscript l5 i); simpl; [|reflexivity].
  destruct (subscript l6 i); simpl; reflexivity.
Qed.

Lemma calculate_power_body_truncated (S : rebuilt_waves_dict) (i : nat)
      (acc : six sums) :
  calculate_power_body S i acc = calculate_power_body (truncated_waves S) i acc.
Proof.
  unfold calculate_power_body, truncated_waves; simpl.
  rewrite !six_mapM_subscript_map.
  destruct (six_mapM (fun l => subscript l i) (w_ct S)) as [cts|e];
    simpl; [|reflexivity].
  destruct (six_mapM (fun l => subscript l i) (w_v_ct S)) as [vs|e];
    simpl; [|reflexivity].
  unfold six_map2, six_map; simpl. now rewrite !int_truncated.
Qed.

(** C9: the calculator reads every sample through [int(...)], so its whole
    result (real power, RMS values, power factor, or the exception raised)
    is the one computed on the integer-truncated current and voltage
    sequences; the fractional part left by the phase correction has no
    influence. *)
Theorem calculator_reads_truncated (sqrt : Q -> Q) :
  (forall (samples rebuilt_wave : list Q) (board_voltage : Q),
     check_phasecal sqrt samples rebuilt_wave board_voltage
     = check_phasecal sqrt (map truncated samples) (map truncated rebuilt_wave)
                      board_voltage) /\
  (forall (self : monitor) (samples : rebuilt_waves_dict) (board_voltage : Q),
     calculate_power sqrt self samples board_voltage
     = calculate_power sqrt self (truncated_waves samples) board_voltage).
Proof.
  split.
  - intros samples wave bv. apply check_phasecal_int;
      symmetry; apply map_int_truncated.
  - intros self S bv. unfold calculate_power.
    destruct (py_div (grid_voltage self) (ac_transformer_output_voltage self));
      simpl; [|reflexivity].
    cbn [truncated_waves w_v_ct six_map at1]. rewrite length_map.
    rewrite (for_range_ext _ _ (calculate_power_body_truncated S)).
    reflexivity.
Qed.

(** ** Calibration search: the first iteration *)

Lemma Qeq_bool_true (a b : Q) : a == b -> Qeq_bool a b = true.
Proof. apply Qeq_bool_iff. Qed.

Lemma Qlt_bool_iff (a b : Q) : Qlt_bool a b = true <-> a < b.
Proof.
  unfold Qlt_bool. rewrite negb_true_iff, <- not_true_iff_false, Qle_bool_iff.
  split; [apply Qnot_le_lt | apply Qlt_not_le].
Qed.

Lemma search_unbound (measure : nat -> Q -> result Q) (pf0 : Q) (k : nat) :
  py_round pf0 4 == 1 ->
  find_phasecal_search measure pf0 k = Raise UnboundLocalError.
Proof.
  intros H. unfold find_phasecal_search, rounds, calibration_round.
  cbn [round_loop]. unfold iteration. cbn [initial_walk cur_pf new_phasecal].
  now rewrite (Qeq_bool_true _ _ H).
Qed.

(** C10: when the initial power factor of [find_phasecal] already rounds to
    1.0 at 4 decimal places, the first iteration of the first round reads
    [new_phasecal] before any assignment and the call ends with an
    unbound-variable error instead of a result. *)
Theorem find_phasecal_unbound_new_phasecal
        (sqrt : Q -> Q) (hw : hardware) (samples : samples_dict)
        (ct_selection : channel) (accuracy_digits : nat) (board_voltage : Q)
        (k : nat) (w : rebuilt_wave) (r : reading) :
  rebuild_wave (sel ct_selection (s_ct samples)) (s_voltage samples) 1 = Return w ->
  check_phasecal sqrt (ct w) (new_v w) board_voltage = Return r ->
  py_round (pf r) 4 == 1 ->
  find_phasecal sqrt hw samples ct_selection accuracy_digits board_voltage k
  = Raise UnboundLocalError.
Proof.
  intros Hw Hr H1. unfold find_phasecal. rewrite Hw; simpl. rewrite Hr; simpl.
  now apply search_unbound.
Qed.

Lemma find_phasecal_unbound_new_phasecal_witness :
  find_phasecal Qsqrt_floor (bench in_phase_batch in_phase_batch)
                in_phase_batch ct1 3 (33 # 10) 1
  = Raise UnboundLocalError.
Proof.
  eapply find_phasecal_unbound_new_phasecal.
  - reflexivity.
  - vm_compute. reflexivity.
  - vm_compute. reflexivity.
Defined.

(** ** Calibration search: the worsening trend *)

(** C5, evaluated where the code departs from it: the initial power factor
    is 0.9 and the next two measurements are 0.8 and 0.7, so both actions
    are increments and both deltas are negative.  The second iteration
    halves both step gaps and leaves [previous_pf] at 0.8, but the next
    coefficient it computes is [previous_phasecal * increment] again, not
    [previous_phasecal * decrement]: [action] holds ["incremented"] and is
    compared with ["increment"]. *)
Theorem worse_trend_repeats_increment :
  exists st1 b1 st2 b2 c,
    iteration (replay [8 # 10; 7 # 10]) (initial_walk (9 # 10) 0)
              {| b_pf := 0; b_cal := 0 |} = Return (Next (st1, b1)) /\
    iteration (replay [8 # 10; 7 # 10]) st1 b1 = Return (Next (st2, b2)) /\
    previous_phasecal st1 == 1 * big_increment /\
    previous_phasecal st2 == previous_phasecal st1 * big_increment /\
    increment st2 == 1 + (increment st1 - 1) / 2 /\
    decrement st2 == 1 - (1 - decrement st1) / 2 /\
    previous_pf st2 == 8 # 10 /\
    new_phasecal st2 = Some c /\
    c == previous_phasecal st2 * increment st2 /\
    ~ c == previous_phasecal st2 * decrement st2.
Proof.
  do 5 eexists.
  split; [vm_compute; reflexivity|].
  split; [vm_compute; reflexivity|].
  cbn [previous_phasecal increment decrement previous_pf new_phasecal].
  do 5 (split; [vm_compute; reflexivity|]).
  split; [reflexivity|].
  split; [vm_compute; reflexivity|].
  vm_compute. discriminate.
Qed.

(** ** Orientation check *)

(** C4, as stated, fails: the first orientation reading is taken with the
    configured coefficient of the channel, not with 1.0.  On
    [skewed_batch] the power factor at coefficient 1 is positive, yet with
    a configured coefficient of 3/2 the operator is told that the sensor is
    reversed. *)
Lemma preflight_uses_configured_coefficient :
  let hw := bench skewed_batch reversed_batch in
  (exists p, orientation_pf Qsqrt_floor hw ct1 1 0 0 = Return p /\ 0 < p) /\
  exists rest,
    fst (phase_mode Qsqrt_floor hw (monitor_with (3 # 2)) ct1)
    = Info installed_backwards :: rest.
Proof.
  split.
  - eexists; split; [vm_compute; reflexivity|]. reflexivity.
  - eexists. vm_compute. reflexivity.
Qed.

(** C4 (amended): the first orientation reading is computed with the
    configured phase coefficient of the selected channel, before
    [find_phasecal] is entered.  A negative power factor makes the code
    report a reversed sensor and wait for the operator; the reading is then
    repeated once, with coefficient 1, and a second negative power factor
    ends the run with [sys.exit()] without entering [find_phasecal].  A
    first reading that is not negative goes straight to the search. *)
Theorem orientation_check (sqrt : Q -> Q) (hw : hardware) (rpm : monitor)
        (ct_selection : channel) (p : Q) :
  orientation_pf sqrt hw ct_selection
                 (sel ct_selection (ct_phase_correction rpm)) 0 0 = Return p ->
  (p < 0 ->
     (exists rest, fst (phase_mode sqrt hw rpm ct_selection)
                   = Info installed_backwards :: Input :: rest) /\
     (forall p', orientation_pf sqrt hw ct_selection 1 1 1 = Return p' ->
        (p' < 0 ->
           phase_mode sqrt hw rpm ct_selection
           = ([Info installed_backwards; Input; Info still_backwards],
              Raise SystemExit)) /\
        (0 <= p' ->
           phase_mode sqrt hw rpm ct_selection
           = search_and_recommend sqrt hw ct_selection
               [Info installed_backwards; Input] 2 2))) /\
  (0 <= p ->
     phase_mode sqrt hw rpm ct_selection
     = search_and_recommend sqrt hw ct_selection [] 1 1).
Proof.
  intros Hp. unfold phase_mode. rewrite Hp. split.
  - intros Hneg. apply Qlt_bool_iff in Hneg. rewrite Hneg. split.
    + destruct (orientation_pf sqrt hw ct_selection 1 1 1) as [p'|e].
      * destruct (Qlt_bool p' 0); [eexists; reflexivity|].
        unfold search_and_recommend.
        destruct (find_phasecal _ _ _ _ _ _ _) as [bs|e];
          [destruct (avg_phasecal bs)|]; eexists; reflexivity.
      * eexists; reflexivity.
    + intros p' Hp'. rewrite Hp'. split.
      * intros Hneg'. apply Qlt_bool_iff in Hneg'. now rewrite Hneg'.
      * intros Hpos'. destruct (Qlt_bool p' 0) eqn:E; [|reflexivity].
        apply Qlt_bool_iff in E. exfalso. lra.
  - intros Hpos. destruct (Qlt_bool p 0) eqn:E; [|reflexivity].
    apply Qlt_bool_iff in E. exfalso. lra.
Qed.

Lemma orientation_check_witness :
  phase_mode Qsqrt_floor (bench reversed_batch reversed_batch)
             (monitor_with (3 # 2)) ct1
  = ([Info installed_backwards; Input; Info still_backwards], Raise SystemExit).
Proof.
  pose (hw := bench reversed_batch reversed_batch).
  assert (H0 : exists p, orientation_pf Qsqrt_floor hw ct1
                 (sel ct1 (ct_phase_correction (monitor_with (3 # 2)))) 0 0
               = Return p /\ p < 0).
  { eexists; split; [vm_compute; reflexivity | reflexivity]. }
  assert (H1 : exists p, orientation_pf Qsqrt_floor hw ct1 1 1 1 = Return p /\ p < 0).
  { eexists; split; [vm_compute; reflexivity | reflexivity]. }
  destruct H0 as (p0 & H0 & N0). destruct H1 as (p1 & H1 & N1).
  destruct (orientation_check Qsqrt_floor hw (monitor_with (3 # 2)) ct1 _ H0)
    as [Hneg _].
  destruct (Hneg N0) as [_ Hsecond].
  destruct (Hsecond _ H1) as [Hexit _].
  exact (Hexit N1).
Defined.

(** ** Calculator: sums, means and the reading of one channel *)

Lemma subscript_lt {A} (l : list A) (i : nat) (d : A) :
  (i < List.length l)%nat -> subscript l i = Return (nth i l d).
Proof.
  intros H. unfold subscript. now rewrite (nth_error_nth' l d H).
Qed.

Lemma subscript_ge {A} (l : list A) (i : nat) :
  (List.length l <= i)%nat -> subscript l i = Raise IndexError.
Proof.
  intros H. unfold subscript. apply nth_error_None in H. now rewrite H.
Qed.

Lemma skipn_nth {A} (l : list A) (i : nat) (d : A) :
  (i < List.length l)%nat -> skipn i l = nth i l d :: skipn (S i) l.
Proof.
  revert i; induction l as [|x l IH]; intros i H; simpl in H; [lia|].
  destruct i as [|i]; [reflexivity|]. simpl. apply IH. lia.
Qed.

Lemma for_range_check_ok (samples wave : list Q) :
  forall count start acc,
    (start + count <= List.length samples)%nat ->
    (start + count <= List.length wave)%nat ->
    for_range start count (check_phasecal_body samples wave) acc
    = Return (sums_over (firstn count (skipn start (map int samples)))
                        (firstn count (skipn start (map int wave))) acc).
Proof.
  induction count as [|count IH]; intros start acc Hs Hw; [reflexivity|].
  cbn [for_range]. unfold check_phasecal_body at 1.
  rewrite (subscript_lt samples start 0) by lia.
  rewrite (subscript_lt wave start 0) by lia. cbn [bind].
  rewrite IH by lia.
  rewrite (skipn_nth (map int samples) start 0%Z) by (rewrite length_map; lia).
  rewrite (skipn_nth (map int wave) start 0%Z) by (rewrite length_map; lia).
  cbn [firstn sums_over].
  change 0%Z with (int 0). now rewrite !map_nth.
Qed.

Lemma sums_over_fields (cts : list Z) :
  forall vs acc, List.length cts = List.length vs ->
    let r := sums_over cts vs acc in
    sum_inst_power r = (sum_inst_power acc + Zsum (products cts vs))%Z /\
    sum_squared_current r = (sum_squared_current acc + Zsum (products cts cts))%Z /\
    sum_raw_current r = (sum_raw_current acc + Zsum cts)%Z /\
    sum_squared_voltage r = (sum_squared_voltage acc + Zsum (products vs vs))%Z /\
    sum_raw_voltage r = (sum_raw_voltage acc + Zsum vs)%Z.
Proof.
  induction cts as [|c cts IH]; intros [|v vs] acc HL; simpl in HL; try lia.
  - simpl. lia.
  - cbn [sums_over]. destruct (IH vs (accumulate acc c v)) as (H1&H2&H3&H4&H5); [lia|].
    cbn zeta. rewrite H1, H2, H3, H4, H5. simpl. lia.
Qed.

Lemma Zsum_shift (l : list Z) (y : Z) :
  (0 <= Zsum (products l l) - 2 * y * Zsum l + Z.of_nat (List.length l) * (y * y))%Z.
Proof.
  induction l as [|a l IH]; [simpl; lia|].
  cbn [products Zsum fold_right List.length]. fold (Zsum l) (Zsum (products l l)).
  rewrite Nat2Z.inj_succ.
  pose proof (Z.square_nonneg (a - y)).
  generalize dependent (Zsum (products l l)). generalize (Zsum l).
  generalize (Z.of_nat (List.length l)). intros. nia.
Qed.

Lemma Zsum_square_le (l : list Z) :
  (Zsum l * Zsum l <= Z.of_nat (List.length l) * Zsum (products l l))%Z.
Proof.
  induction l as [|a l IH]; [simpl; lia|].
  cbn [products Zsum fold_right List.length]. fold (Zsum l) (Zsum (products l l)).
  rewrite Nat2Z.inj_succ. pose proof (Zsum_shift l a).
  generalize dependent (Zsum (products l l)). generalize (Zsum l).
  generalize (Z.of_nat (List.length l)). intros. nia.
Qed.

Lemma inject_Z_pos (n : Z) : (0 < n)%Z -> 0 < inject_Z n.
Proof. intros H. change 0 with (inject_Z 0). now rewrite <- Zlt_Qlt. Qed.

Lemma variance_nonneg (a s n : Z) :
  (0 < n)%Z -> (s * s <= n * a)%Z ->
  Qlt_bool (inject_Z a / inject_Z n - inject_Z s / inject_Z n * (inject_Z s / inject_Z n)) 0 = false.
Proof.
  intros Hn Hs. unfold Qlt_bool. apply negb_false_iff, Qle_bool_iff.
  pose proof (inject_Z_pos n Hn) as Hn'.
  assert (E : inject_Z a / inject_Z n - inject_Z s / inject_Z n * (inject_Z s / inject_Z n)
              == inject_Z (n * a - s * s) / (inject_Z n * inject_Z n)).
  { unfold Z.sub. rewrite inject_Z_plus, inject_Z_opp, !inject_Z_mult. field. lra. }
  rewrite E. apply Qle_shift_div_l.
  - nra.
  - rewrite Qmult_0_l. change 0 with (inject_Z 0). rewrite <- Zle_Qle. lia.
Qed.

Lemma sums_over_sums0 (cts vs : list Z) :
  List.length cts = List.length vs ->
  let r := sums_over cts vs sums0 in
  sum_inst_power r = Zsum (products cts vs) /\
  sum_squared_current r = Zsum (products cts cts) /\
  sum_raw_current r = Zsum cts /\
  sum_squared_voltage r = Zsum (products vs vs) /\
  sum_raw_voltage r = Zsum vs.
Proof.
  intros HL. destruct (sums_over_fields cts vs sums0 HL) as (H1&H2&H3&H4&H5).
  cbn zeta in *. rewrite H1, H2, H3, H4, H5. simpl. repeat split.
Qed.

Lemma products_length (xs : list Z) :
  forall ys, List.length xs = List.length ys ->
    List.length (products xs ys) = List.length xs.
Proof.
  induction xs as [|x xs IH]; intros [|y ys] H; simpl in *; try lia.
  now rewrite IH by lia.
Qed.

Lemma py_div_count (a : Q) (n : nat) :
  (0 < n)%nat ->
  py_div a (inject_Z (Z.of_nat n)) = Return (a / inject_Z (Z.of_nat n)).
Proof.
  intros Hn. unfold py_div.
  destruct (Qeq_bool (inject_Z (Z.of_nat n)) 0) eqn:E; [|reflexivity].
  apply Qeq_bool_iff in E.
  assert (H : 0 < inject_Z (Z.of_nat n)) by (apply inject_Z_pos; lia). lra.
Qed.

Lemma py_div_zero_count (a : Q) :
  py_div a (inject_Z (Z.of_nat 0)) = Raise ZeroDivisionError.
Proof. reflexivity. Qed.

(** The power factor statement of the calculator: the guarded division. *)
Lemma power_factor_cases (real_power apparent_power : Q) :
  exists power_factor,
    try_except (py_div real_power apparent_power) ZeroDivisionError (Return 0)
    = Return power_factor /\
    (apparent_power == 0 -> power_factor = 0) /\
    (~ apparent_power == 0 -> power_factor = real_power / apparent_power).
Proof.
  unfold py_div. destruct (Qeq_bool apparent_power 0) eqn:E; simpl.
  - apply Qeq_bool_iff in E. exists 0. split; [reflexivity|]. split; [reflexivity | tauto].
  - exists (real_power / apparent_power). split; [reflexivity|]. split.
    + intros H. apply Qeq_bool_iff in H. congruence.
    + reflexivity.
Qed.

Lemma channel_reading_ok (sqrt : Q -> Q) (cts vs : list Z) (n : nat)
      (ct_scale v_scale : Q) :
  (0 < n)%nat -> List.length cts = n -> List.length vs = n ->
  exists r,
    channel_reading sqrt n ct_scale v_scale (sums_over cts vs sums0) = Return r /\
    power r = real_power_core (mean (products cts vs)) (mean cts) (mean vs)
              * ct_scale * v_scale /\
    current r = sqrt (mean (products cts cts) - mean cts * mean cts) * ct_scale /\
    voltage r = sqrt (mean (products vs vs) - mean vs * mean vs) * v_scale /\
    (voltage r * current r == 0 -> pf r = 0) /\
    (~ voltage r * current r == 0 -> pf r = power r / (voltage r * current r)).
Proof.
  intros Hn Hc Hv.
  destruct (sums_over_sums0 cts vs) as (H1&H2&H3&H4&H5); [congruence|].
  cbn zeta in *. unfold channel_reading. rewrite H1, H2, H3, H4, H5.
  rewrite !py_div_count by exact Hn. cbn [bind].
  unfold math_sqrt.
  assert (Hn' : (0 < Z.of_nat n)%Z) by lia.
  rewrite (variance_nonneg (Zsum (products cts cts)) (Zsum cts) (Z.of_nat n) Hn')
    by (rewrite <- Hc; apply Zsum_square_le).
  cbn [bind].
  rewrite (variance_nonneg (Zsum (products vs vs)) (Zsum vs) (Z.of_nat n) Hn')
    by (rewrite <- Hv; apply Zsum_square_le).
  cbn [bind].
  match goal with
  | |- context [try_except (py_div ?rp ?ap) _ _] =>
      destruct (power_factor_cases rp ap) as (f & Hf & Hz & Hnz)
  end.
  rewrite Hf. cbn [bind]. eexists; split; [reflexivity|].
  cbn [power current voltage pf]. unfold mean.
  rewrite !products_length by congruence. rewrite Hc, Hv.
  repeat split; assumption.
Qed.

(** *** The six-channel loop *)

Lemma sel_six_map {A B} (f : A -> B) (s : six A) (c : channel) :
  sel c (six_map f s) = f (sel c s).
Proof. now destruct c. Qed.

Lemma sel_six_map2 {A B C} (f : A -> B -> C) (s : six A) (t : six B) (c : channel) :
  sel c (six_map2 f s t) = f (sel c s) (sel c t).
Proof. now destruct c. Qed.

Lemma sel_six_pure {A} (a : A) (c : channel) : sel c (six_pure a) = a.
Proof. now destruct c. Qed.

Lemma six_mapM_Return {A B} (f : A -> result B) (s : six A) :
  (forall c, exists b, f (sel c s) = Return b) ->
  exists t, six_mapM f s = Return t /\ forall c, f (sel c s) = Return (sel c t).
Proof.
  intros H.
  destruct (H ct1) as (b1 & E1), (H ct2) as (b2 & E2), (H ct3) as (b3 & E3),
           (H ct4) as (b4 & E4), (H ct5) as (b5 & E5), (H ct6) as (b6 & E6).
  simpl in *. exists (Six b1 b2 b3 b4 b5 b6). split.
  - unfold six_mapM. now rewrite E1, E2, E3, E4, E5, E6.
  - intros []; assumption.
Qed.

Lemma six_mapM_subscript_cases (s : six (list Q)) (i : nat) :
  ((forall c, (i < List.length (sel c s))%nat) /\
   six_mapM (fun l => subscript l i) s = Return (six_map (fun l => nth i l 0) s))
  \/
  ((exists c, (List.length (sel c s) <= i)%nat) /\
   six_mapM (fun l => subscript l i) s = Raise IndexError).
Proof.
  destruct s as [l1 l2 l3 l4 l5 l6]. unfold six_mapM; cbn [at1 at2 at3 at4 at5 at6].
  destruct (le_lt_dec (List.length l1) i) as [H1|H1];
    [right; split; [now exists ct1 | now rewrite subscript_ge] |].
  rewrite (subscript_lt l1 i 0 H1); cbn [bind].
  destruct (le_lt_dec (List.length l2) i) as [H2|H2];
    [right; split; [now exists ct2 | now rewrite subscript_ge] |].
  rewrite (subscript_lt l2 i 0 H2); cbn [bind].
  destruct (le_lt_dec (List.length l3) i) as [H3|H3];
    [right; split; [now exists ct3 | now rewrite subscript_ge] |].
  rewrite (subscript_lt l3 i 0 H3); cbn [bind].
  destruct (le_lt_dec (List.length l4) i) as [H4|H4];
    [right; split; [now exists ct4 | now rewrite subscript_ge] |].
  rewrite (subscript_lt l4 i 0 H4); cbn [bind].
  destruct (le_lt_dec (List.length l5) i) as [H5|H5];
    [right; split; [now exists ct5 | now rewrite subscript_ge] |].
  rewrite (subscript_lt l5 i 0 H5); cbn [bind].
  destruct (le_lt_dec (List.length l6) i) as [H6|H6];
    [right; split; [now exists ct6 | now rewrite subscript_ge] |].
  rewrite (subscript_lt l6 i 0 H6); cbn [bind].
  left. split; [intros []; assumption | reflexivity].
Qed.

Lemma calculate_power_body_ok (S : rebuilt_waves_dict) (i : nat) (acc : six sums) :
  (forall c, (i < List.length (sel c (w_ct S)))%nat) ->
  (forall c, (i < List.length (sel c (w_v_ct S)))%nat) ->
  exists acc',
    calculate_power_body S i acc = Return acc' /\
    forall c, sel c acc'
              = accumulate (sel c acc) (int (nth i (sel c (w_ct S)) 0))
                           (int (nth i (sel c (w_v_ct S)) 0)).
Proof.
  intros Hc Hv. unfold calculate_power_body.
  destruct (six_mapM_subscript_cases (w_ct S) i) as [[_ E]|[[c Hlt] _]];
    [|specialize (Hc c); lia].
  destruct (six_mapM_subscript_cases (w_v_ct S) i) as [[_ E']|[[c Hlt] _]];
    [|specialize (Hv c); lia].
  rewrite E, E'. cbn [bind]. eexists; split; [reflexivity|].
  intros c. now rewrite !sel_six_map2, !sel_six_map.
Qed.

Lemma calculate_power_body_short (S : rebuilt_waves_dict) (i : nat) (acc : six sums) :
  (exists c, (List.length (sel c (w_ct S)) <= i)%nat
             \/ (List.length (sel c (w_v_ct S)) <= i)%nat) ->
  calculate_power_body S i acc = Raise IndexError.
Proof.
  intros (c & Hshort). unfold calculate_power_body.
  destruct (six_mapM_subscript_cases (w_ct S) i) as [[Hc E]|[_ E]];
    rewrite E; cbn [bind]; [|reflexivity].
  destruct (six_mapM_subscript_cases (w_v_ct S) i) as [[Hv E']|[_ E']];
    rewrite E'; cbn [bind]; [|reflexivity].
  specialize (Hc c); specialize (Hv c); lia.
Qed.

Lemma for_range_power_ok (S : rebuilt_waves_dict) :
  forall count start acc,
    (forall c, (start + count <= List.length (sel c (w_ct S)))%nat) ->
    (forall c, (start + count <= List.length (sel c (w_v_ct S)))%nat) ->
    exists acc',
      for_range start count (calculate_power_body S) acc = Return acc' /\
      forall c, sel c acc'
                = sums_over (firstn count (skipn start (map int (sel c (w_ct S)))))
                            (firstn count (skipn start (map int (sel c (w_v_ct S)))))
                            (sel c acc).
Proof.
  induction count as [|count IH]; intros start acc Hc Hv.
  - exists acc; split; reflexivity.
  - cbn [for_range].
    destruct (calculate_power_body_ok S start acc) as (acc1 & E1 & H1).
    { intros c; specialize (Hc c); lia. }
    { intros c; specialize (Hv c); lia. }
    rewrite E1; cbn [bind].
    destruct (IH (Datatypes.S start) acc1) as (acc' & E' & H').
    { intros c; specialize (Hc c); lia. }
    { intros c; specialize (Hv c); lia. }
    exists acc'; split; [exact E'|]. intros c. rewrite H', H1.
    rewrite (skipn_nth (map int (sel c (w_ct S))) start 0%Z)
      by (rewrite length_map; specialize (Hc c); lia).
    rewrite (skipn_nth (map int (sel c (w_v_ct S))) start 0%Z)
      by (rewrite length_map; specialize (Hv c); lia).
    cbn [firstn sums_over]. change 0%Z with (int 0). now rewrite !map_nth.
Qed.

Lemma firstn_all_map (l : list Q) (n : nat) :
  List.length l = n -> firstn n (skipn 0 (map int l)) = map int l.
Proof.
  intros H. cbn [skipn]. apply firstn_all2. rewrite length_map. lia.
Qed.

(** On a batch of matched length [N > 0] the calculator returns, and each
    channel's reading is the one of [channel_reading] on the sums of that
    channel's truncated samples. *)
Lemma calculate_power_ok (sqrt : Q -> Q) (self : monitor)
      (S : rebuilt_waves_dict) (bv : Q) (N : nat) :
  (0 < N)%nat ->
  (forall c, List.length (sel c (w_ct S)) = N) ->
  (forall c, List.length (sel c (w_v_ct S)) = N) ->
  ~ ac_transformer_output_voltage self == 0 ->
  exists r,
    calculate_power sqrt self S bv = Return r /\
    r_voltage r = voltage (at1 (r_ct r)) /\
    forall c,
      channel_reading sqrt N
        (bv / 1024 * 100 * sel c (accuracy_calibration self))
        (bv / 1024
         * (grid_voltage self / ac_transformer_output_voltage self * 11)
         * accuracy_calibration_AC self)
        (sums_over (map int (sel c (w_ct S))) (map int (sel c (w_v_ct S))) sums0)
      = Return (sel c (r_ct r)).
Proof.
  intros HN Hc Hv Hac. unfold calculate_power, py_div.
  destruct (Qeq_bool (ac_transformer_output_voltage self) 0) eqn:E;
    [apply Qeq_bool_iff in E; contradiction|]. cbn [bind].
  replace (List.length (at1 (w_v_ct S))) with N by (symmetry; apply (Hv ct1)).
  destruct (for_range_power_ok S N 0 (six_pure sums0)) as (acc & Eacc & Hacc).
  { intros c; rewrite Hc; lia. }
  { intros c; rewrite Hv; lia. }
  rewrite Eacc; cbn [bind].
  match goal with
  | |- context [six_mapM ?f ?s] =>
      destruct (six_mapM_Return f s) as (t & Et & Ht)
  end.
  { intros c. rewrite sel_six_map2, sel_six_map. cbn [fst snd].
    rewrite Hacc, !firstn_all_map, sel_six_pure by auto.
    destruct (channel_reading_ok sqrt (map int (sel c (w_ct S)))
                (map int (sel c (w_v_ct S))) N
                (bv / 1024 * 100 * sel c (accuracy_calibration self))
                (bv / 1024
                 * (grid_voltage self / ac_transformer_output_voltage self * 11)
                 * accuracy_calibration_AC self) HN)
      as (r & Er & _); [rewrite length_map; auto ..|].
    exists r. exact Er. }
  rewrite Et; cbn [bind]. eexists; split; [reflexivity|].
  split; [reflexivity|]. intros c. cbn [r_ct]. rewrite <- Ht.
  rewrite sel_six_map2, sel_six_map. cbn [fst snd].
  now rewrite Hacc, !firstn_all_map, sel_six_pure by auto.
Qed.

Lemma check_phasecal_ok (sqrt : Q -> Q) (samples wave : list Q) (bv : Q) :
  (List.length wave <= List.length samples)%nat ->
  check_phasecal sqrt samples wave bv
  = channel_reading sqrt (List.length wave) (bv / 1024 * 100)
      (bv / 1024 * (253 # 2))
      (sums_over (firstn (List.length wave) (map int samples)) (map int wave) sums0).
Proof.
  intros H. unfold check_phasecal.
  rewrite for_range_check_ok by lia. cbn [bind skipn].
  rewrite (firstn_all2 (map int wave)) by (rewrite length_map; lia).
  reflexivity.
Qed.

Lemma Qsum_inject_Z (l : list Z) : Qsum (map inject_Z l) == inject_Z (Zsum l).
Proof.
  induction l as [|z l IH]; [reflexivity|].
  cbn [map Qsum fold_right Zsum]. fold (Qsum (map inject_Z l)) (Zsum l).
  rewrite IH, inject_Z_plus. reflexivity.
Qed.

Lemma Qmean_inject_Z (l : list Z) : Qmean (map inject_Z l) == mean l.
Proof. unfold Qmean, mean. now rewrite Qsum_inject_Z, length_map. Qed.

Lemma Qproducts_inject_Z (xs : list Z) :
  forall ys,
    Qproducts (map inject_Z xs) (map inject_Z ys) = map inject_Z (products xs ys).
Proof.
  induction xs as [|x xs IH]; intros [|y ys]; try reflexivity.
  cbn [map Qproducts products]. now rewrite IH.
Qed.

(** C2, as stated, fails: the means of the calculator are not taken over
    the samples of the batch but over their integer parts.  For the current
    [[0; 1]] and the reconstructed voltage [[0.9; 1.1]] the stated formula
    gives [1/20] before scaling and [check_phasecal] gives [1/4]; for the
    codes [[0; 1; 2]] on every channel, rebuilt with coefficient 0.9 into
    [[0; 0.9; 1.9]], the stated formula gives [19/30] and [calculate_power]
    gives [1/3]. *)
Lemma real_power_not_over_raw_samples :
  let vref := (33 # 10) / 1024 in
  let ct_scale := vref * 100 in
  (stated_real_power [0; 1] [9 # 10; 11 # 10] ct_scale (vref * (253 # 2))
   == (1 # 20) * ct_scale * (vref * (253 # 2)) /\
   exists r,
     check_phasecal Qsqrt_floor [0; 1] [9 # 10; 11 # 10] (33 # 10) = Return r /\
     power r == (1 # 4) * ct_scale * (vref * (253 # 2)) /\
     ~ power r
       == stated_real_power [0; 1] [9 # 10; 11 # 10] ct_scale (vref * (253 # 2))) /\
  (let voltage_scale := vref * ((2474 # 10) / (2771 # 100) * 11) * 1 in
   exists w r,
     rebuild_waves ramp_batch (ct_phase_correction (monitor_with (9 # 10)))
     = Return w /\
     Forall2 Qeq (sel ct1 (w_v_ct w)) [0; 9 # 10; 19 # 10] /\
     sel ct1 (w_ct w) = [0; 1; 2] /\
     calculate_power Qsqrt_floor (monitor_with (9 # 10)) w (33 # 10) = Return r /\
     power (sel ct1 (r_ct r)) == (1 # 3) * ct_scale * voltage_scale /\
     stated_real_power (sel ct1 (w_ct w)) (sel ct1 (w_v_ct w)) ct_scale voltage_scale
     == (19 # 30) * ct_scale * voltage_scale /\
     ~ power (sel ct1 (r_ct r))
       == stated_real_power (sel ct1 (w_ct w)) (sel ct1 (w_v_ct w))
            ct_scale voltage_scale).
Proof.
  intros vref ct_scale. split.
  - split; [vm_compute; reflexivity|].
    eexists. split; [vm_compute; reflexivity|].
    split; [vm_compute; reflexivity|].
    vm_compute. discriminate.
  - intros voltage_scale. do 2 eexists.
    split; [vm_compute; reflexivity|].
    split; [repeat constructor|].
    split; [reflexivity|].
    split; [vm_compute; reflexivity|].
    split; [vm_compute; reflexivity|].
    split; [vm_compute; reflexivity|].
    vm_compute. discriminate.
Qed.

(** C2 (amended): on every batch of [N > 0] matched samples and for every
    channel, the calculator returns and its real power is
    [(mean(i * v) - mean_i * mean_v) * current_scale * voltage_scale], where
    [i] and [v] are the current and voltage samples after [int], the
    truncation toward zero applied to each sample as the loop reads it;
    the same holds for [check_phasecal] with its own two scale factors.
    ([calculate_power] divides by the transformer voltage to form its
    voltage scale, which must not be 0.)  On samples that are whole numbers
    the means are those of the samples themselves.  For
    [I = V' = [10; 20; 30; 40]] the means are 750 and 25 and the unscaled
    factor is exactly [750 - 625 = 125]. *)
Theorem real_power_formula (sqrt : Q -> Q) (self : monitor)
        (S : rebuilt_waves_dict) (board_voltage : Q) (N : nat) (c : channel) :
  (0 < N)%nat ->
  (forall k, List.length (sel k (w_ct S)) = N) ->
  (forall k, List.length (sel k (w_v_ct S)) = N) ->
  ~ ac_transformer_output_voltage self == 0 ->
  let cur := map int (sel c (w_ct S)) in
  let vol := map int (sel c (w_v_ct S)) in
  let vref := board_voltage / 1024 in
  (exists r,
     calculate_power sqrt self S board_voltage = Return r /\
     power (sel c (r_ct r))
     == (mean (products cur vol) - mean cur * mean vol)
        * (vref * 100 * sel c (accuracy_calibration self))
        * (vref * (grid_voltage self / ac_transformer_output_voltage self * 11)
           * accuracy_calibration_AC self)) /\
  (exists r,
     check_phasecal sqrt (sel c (w_ct S)) (sel c (w_v_ct S)) board_voltage
     = Return r /\
     power r
     == (mean (products cur vol) - mean cur * mean vol)
        * (vref * 100) * (vref * (253 # 2))) /\
  (forall codes_ct codes_v : list Z,
     sel c (w_ct S) = map inject_Z codes_ct ->
     sel c (w_v_ct S) = map inject_Z codes_v ->
     forall ct_scale voltage_scale,
       (mean (products cur vol) - mean cur * mean vol) * ct_scale * voltage_scale
       == stated_real_power (sel c (w_ct S)) (sel c (w_v_ct S))
            ct_scale voltage_scale) /\
  (let batch := map int [10; 20; 30; 40] in
   mean (products batch batch) == 750 /\ mean batch == 25 /\
   real_power_core (mean (products batch batch)) (mean batch) (mean batch) == 125 /\
   exists r,
     check_phasecal sqrt [10; 20; 30; 40] [10; 20; 30; 40] board_voltage = Return r /\
     power r == 125 * (vref * 100) * (vref * (253 # 2))).
Proof.
  intros HN Hc Hv Hac cur vol vref. split; [|split; [|split]].
  - destruct (calculate_power_ok sqrt self S board_voltage N HN Hc Hv Hac)
      as (r & Er & _ & Hr).
    exists r; split; [exact Er|].
    destruct (channel_reading_ok sqrt cur vol N
                (vref * 100 * sel c (accuracy_calibration self))
                (vref * (grid_voltage self / ac_transformer_output_voltage self * 11)
                 * accuracy_calibration_AC self) HN)
      as (r' & Er' & Hp & _); [unfold cur | unfold vol | ];
      [rewrite length_map; auto ..|].
    specialize (Hr c). fold cur vol vref in Hr. rewrite Hr in Er'.
    injection Er' as <-. rewrite Hp. reflexivity.
  - rewrite check_phasecal_ok by (rewrite Hc, Hv; lia).
    rewrite Hv. rewrite firstn_all2 by (rewrite length_map, Hc; lia).
    destruct (channel_reading_ok sqrt cur vol N (vref * 100) (vref * (253 # 2)) HN)
      as (r' & Er' & Hp & _); [unfold cur | unfold vol | ];
      [rewrite length_map; auto ..|].
    exists r'; split; [exact Er'|]. rewrite Hp. reflexivity.
  - intros codes_ct codes_v Ect Ev ct_scale voltage_scale.
    unfold cur, vol, stated_real_power. rewrite Ect, Ev, !map_int_inject_Z.
    rewrite Qproducts_inject_Z, !Qmean_inject_Z. reflexivity.
  - intros batch. split; [reflexivity|]. split; [reflexivity|].
    split; [reflexivity|].
    rewrite check_phasecal_ok by (simpl; lia).
    destruct (channel_reading_ok sqrt batch batch 4 (vref * 100) (vref * (253 # 2)))
      as (r' & Er' & Hp & _); [lia | reflexivity | reflexivity |].
    exists r'; split; [exact Er'|]. rewrite Hp.
    assert (E : real_power_core (mean (products batch batch)) (mean batch) (mean batch) == 125)
      by reflexivity.
    rewrite E. reflexivity.
Qed.

Lemma real_power_formula_witness :
  exists r,
    calculate_power Qsqrt_floor (monitor_with 1) anchor_waves (33 # 10) = Return r /\
    power (sel ct1 (r_ct r))
    == 125 * ((33 # 10) / 1024 * 100 * 1)
       * ((33 # 10) / 1024 * ((2474 # 10) / (2771 # 100) * 11) * 1).
Proof.
  assert (HN : (0 < 4)%nat) by lia.
  assert (Hc : forall k, List.length (sel k (w_ct anchor_waves)) = 4%nat)
    by (intros []; reflexivity).
  assert (Hv : forall k, List.length (sel k (w_v_ct anchor_waves)) = 4%nat)
    by (intros []; reflexivity).
  assert (Hac : ~ ac_transformer_output_voltage (monitor_with 1) == 0)
    by (simpl; intros H; discriminate H).
  destruct (real_power_formula Qsqrt_floor (monitor_with 1) anchor_waves (33 # 10)
              4 ct1 HN Hc Hv Hac) as [(r & Er & Hp) _].
  exists r; split; [exact Er|]. rewrite Hp. reflexivity.
Defined.

Lemma Zsum_repeat (z : Z) (n : nat) : Zsum (repeat z n) = (Z.of_nat n * z)%Z.
Proof.
  induction n as [|n IH]; [reflexivity|].
  cbn [repeat Zsum fold_right]. fold (Zsum (repeat z n)). rewrite IH. lia.
Qed.

Lemma products_repeat (a b : Z) (n : nat) :
  products (repeat a n) (repeat b n) = repeat (a * b)%Z n.
Proof. induction n as [|n IH]; simpl; [reflexivity | now rewrite IH]. Qed.

Lemma flat_variance (z : Z) (n : nat) :
  (0 < n)%nat ->
  mean (products (repeat z n) (repeat z n)) - mean (repeat z n) * mean (repeat z n)
  == 0.
Proof.
  intros Hn. unfold mean. rewrite products_repeat, !Zsum_repeat, !repeat_length.
  rewrite !inject_Z_mult.
  assert (H : 0 < inject_Z (Z.of_nat n)) by (apply inject_Z_pos; lia).
  field. lra.
Qed.

(** C3: on every batch of [N > 0] matched samples the calculator returns
    (no exception escapes), and whenever a channel's apparent power
    [rms_voltage * rms_current] is 0 its power factor is exactly 0; in
    particular flat current and voltage sequences give apparent power 0 and
    power factor 0, for any square root with [sqrt 0 = 0]. *)
Theorem zero_apparent_power (sqrt : Q -> Q) (self : monitor)
        (S : rebuilt_waves_dict) (board_voltage : Q) (N : nat) (c : channel) :
  (0 < N)%nat ->
  (forall k, List.length (sel k (w_ct S)) = N) ->
  (forall k, List.length (sel k (w_v_ct S)) = N) ->
  ~ ac_transformer_output_voltage self == 0 ->
  exists r r',
    calculate_power sqrt self S board_voltage = Return r /\
    check_phasecal sqrt (sel c (w_ct S)) (sel c (w_v_ct S)) board_voltage
    = Return r' /\
    (voltage (sel c (r_ct r)) * current (sel c (r_ct r)) == 0 ->
     pf (sel c (r_ct r)) = 0) /\
    (voltage r' * current r' == 0 -> pf r' = 0) /\
    ((forall x, x == 0 -> sqrt x == 0) ->
     forall a b, sel c (w_ct S) = repeat a N -> sel c (w_v_ct S) = repeat b N ->
       voltage (sel c (r_ct r)) * current (sel c (r_ct r)) == 0 /\
       pf (sel c (r_ct r)) = 0 /\
       voltage r' * current r' == 0 /\
       pf r' = 0).
Proof.
  intros HN Hc Hv Hac.
  destruct (calculate_power_ok sqrt self S board_voltage N HN Hc Hv Hac)
    as (r & Er & _ & Hr).
  pose (cur := map int (sel c (w_ct S))). pose (vol := map int (sel c (w_v_ct S))).
  assert (Lc : List.length cur = N) by (unfold cur; rewrite length_map; auto).
  assert (Lv : List.length vol = N) by (unfold vol; rewrite length_map; auto).
  destruct (channel_reading_ok sqrt cur vol N
              (board_voltage / 1024 * 100 * sel c (accuracy_calibration self))
              (board_voltage / 1024
               * (grid_voltage self / ac_transformer_output_voltage self * 11)
               * accuracy_calibration_AC self) HN Lc Lv)
    as (x & Ex & _ & Xc & _ & Xz & _).
  specialize (Hr c). fold cur vol in Hr. rewrite Hr in Ex. injection Ex as <-.
  destruct (channel_reading_ok sqrt cur vol N (board_voltage / 1024 * 100)
              (board_voltage / 1024 * (253 # 2)) HN Lc Lv)
    as (r' & Er' & _ & Yc & _ & Yz & _).
  exists r, r'. split; [exact Er|]. split.
  { rewrite check_phasecal_ok by (rewrite Hc, Hv; lia).
    rewrite Hv, firstn_all2 by (rewrite length_map, Hc; lia). exact Er'. }
  split; [exact Xz|]. split; [exact Yz|].
  intros Hsqrt a b Ha Hb.
  assert (Hflat : sqrt (mean (products cur cur) - mean cur * mean cur) == 0).
  { apply Hsqrt. unfold cur. rewrite Ha, map_repeat. now apply flat_variance. }
  assert (Z1 : voltage (sel c (r_ct r)) * current (sel c (r_ct r)) == 0)
    by (rewrite Xc, Hflat; ring).
  assert (Z2 : voltage r' * current r' == 0) by (rewrite Yc, Hflat; ring).
  auto.
Qed.

Lemma Qsqrt_floor_zero (x : Q) : x == 0 -> Qsqrt_floor x == 0.
Proof.
  intros H. unfold Qsqrt_floor. rewrite (Qred_complete x 0 H). reflexivity.
Qed.

Lemma zero_apparent_power_witness :
  exists r r',
    calculate_power Qsqrt_floor (monitor_with 1) flat_waves (33 # 10) = Return r /\
    check_phasecal Qsqrt_floor (repeat 7 4) (repeat 512 4) (33 # 10) = Return r' /\
    pf (sel ct1 (r_ct r)) = 0 /\ pf r' = 0.
Proof.
  assert (HN : (0 < 4)%nat) by lia.
  assert (Hc : forall k, List.length (sel k (w_ct flat_waves)) = 4%nat)
    by (intros []; reflexivity).
  assert (Hv : forall k, List.length (sel k (w_v_ct flat_waves)) = 4%nat)
    by (intros []; reflexivity).
  assert (Hac : ~ ac_transformer_output_voltage (monitor_with 1) == 0)
    by (simpl; intros H; discriminate H).
  destruct (zero_apparent_power Qsqrt_floor (monitor_with 1) flat_waves (33 # 10)
              4 ct1 HN Hc Hv Hac) as (r & r' & Er & Er' & _ & _ & Hflat).
  destruct (Hflat Qsqrt_floor_zero 7 512 eq_refl eq_refl) as (_ & P1 & _ & P2).
  exists r, r'. repeat split; assumption.
Defined.

(** ** Calculator: sequences of different lengths *)

Lemma for_range_ext_bounded {A : Type} (body1 body2 : nat -> A -> result A) :
  forall count start acc,
    (forall i a, (start <= i < start + count)%nat -> body1 i a = body2 i a) ->
    for_range start count body1 acc = for_range start count body2 acc.
Proof.
  induction count as [|count IH]; intros start acc Hb; [reflexivity|].
  cbn [for_range]. rewrite Hb by lia.
  destruct (body2 start acc); cbn [bind]; [|reflexivity].
  apply IH. intros i a' Hi. apply Hb. lia.
Qed.

Lemma subscript_firstn {A} (l : list A) (n i : nat) :
  (i < n)%nat -> subscript (firstn n l) i = subscript l i.
Proof.
  intros H. unfold subscript. rewrite nth_error_firstn.
  destruct (Nat.ltb_spec i n); [reflexivity | lia].
Qed.

Lemma for_range_check_short (samples wave : list Q) :
  forall count start acc,
    (start <= List.length samples)%nat ->
    (List.length samples < start + count)%nat ->
    (start + count <= List.length wave)%nat ->
    for_range start count (check_phasecal_body samples wave) acc = Raise IndexError.
Proof.
  induction count as [|count IH]; intros start acc H1 H2 H3; [lia|].
  cbn [for_range]. unfold check_phasecal_body at 1.
  destruct (le_lt_dec (List.length samples) start) as [Hs|Hs].
  - now rewrite subscript_ge.
  - rewrite (subscript_lt samples start 0 Hs).
    rewrite (subscript_lt wave start 0) by lia. cbn [bind].
    apply IH; lia.
Qed.

Lemma check_phasecal_empty (sqrt : Q -> Q) (samples : list Q) (bv : Q) :
  check_phasecal sqrt samples [] bv = Raise ZeroDivisionError.
Proof. reflexivity. Qed.

Lemma check_phasecal_short (sqrt : Q -> Q) (samples wave : list Q) (bv : Q) :
  (List.length samples < List.length wave)%nat ->
  check_phasecal sqrt samples wave bv = Raise IndexError.
Proof.
  intros H. unfold check_phasecal.
  now rewrite for_range_check_short by lia.
Qed.

Lemma check_phasecal_long (sqrt : Q -> Q) (samples wave : list Q) (bv : Q) :
  (List.length wave <= List.length samples)%nat ->
  check_phasecal sqrt samples wave bv
  = check_phasecal sqrt (firstn (List.length wave) samples) wave bv.
Proof.
  intros H. rewrite !check_phasecal_ok; [| rewrite length_firstn; lia | exact H].
  now rewrite <- !firstn_map, firstn_firstn, Nat.min_id.
Qed.

Lemma calculate_power_body_cases (S : rebuilt_waves_dict) (i : nat) (acc : six sums) :
  ((forall c, (i < List.length (sel c (w_ct S)))%nat) /\
   (forall c, (i < List.length (sel c (w_v_ct S)))%nat) /\
   exists acc', calculate_power_body S i acc = Return acc')
  \/ calculate_power_body S i acc = Raise IndexError.
Proof.
  unfold calculate_power_body.
  destruct (six_mapM_subscript_cases (w_ct S) i) as [[Hc E]|[_ E]];
    rewrite E; cbn [bind]; [|now right].
  destruct (six_mapM_subscript_cases (w_v_ct S) i) as [[Hv E']|[_ E']];
    rewrite E'; cbn [bind]; [|now right].
  left. split; [exact Hc|]. split; [exact Hv|]. eexists; reflexivity.
Qed.

Lemma for_range_power_short (S : rebuilt_waves_dict) :
  forall count start acc,
    (forall c, (start <= List.length (sel c (w_ct S)))%nat) ->
    (forall c, (start <= List.length (sel c (w_v_ct S)))%nat) ->
    (exists c, (List.length (sel c (w_ct S)) < start + count)%nat
               \/ (List.length (sel c (w_v_ct S)) < start + count)%nat) ->
    for_range start count (calculate_power_body S) acc = Raise IndexError.
Proof.
  induction count as [|count IH]; intros start acc Hc Hv (c & Hshort).
  - specialize (Hc c); specialize (Hv c); lia.
  - cbn [for_range].
    destruct (calculate_power_body_cases S start acc)
      as [(Hc' & Hv' & acc' & E)|E]; rewrite E; cbn [bind]; [|reflexivity].
    apply IH.
    + intros k; specialize (Hc' k); lia.
    + intros k; specialize (Hv' k); lia.
    + exists c. lia.
Qed.

Lemma calculate_power_body_clipped (S : rebuilt_waves_dict) (n i : nat)
      (acc : six sums) :
  (i < n)%nat ->
  calculate_power_body S i acc = calculate_power_body (clipped n S) i acc.
Proof.
  intros H. unfold calculate_power_body, clipped; cbn [w_ct w_v_ct].
  destruct (w_ct S) as [a1 a2 a3 a4 a5 a6], (w_v_ct S) as [b1 b2 b3 b4 b5 b6].
  unfold six_mapM, six_map; cbn [at1 at2 at3 at4 at5 at6].
  now rewrite !subscript_firstn by exact H.
Qed.

(** C7, as stated, fails: with five current samples and four voltage samples
    the calculator raises nothing; it reads the first four current samples
    and returns the result of the matched batch. *)
Lemma longer_current_is_cut :
  (List.length [10; 20; 30; 40; 50] <> List.length [10; 20; 30; 40])%nat /\
  (exists r,
     check_phasecal Qsqrt_floor [10; 20; 30; 40; 50] [10; 20; 30; 40] (33 # 10)
     = Return r /\
     check_phasecal Qsqrt_floor [10; 20; 30; 40] [10; 20; 30; 40] (33 # 10)
     = Return r) /\
  (exists r,
     calculate_power Qsqrt_floor (monitor_with 1) long_current_waves (33 # 10)
     = Return r).
Proof.
  split; [simpl; lia|]. split.
  - eexists; split; vm_compute; reflexivity.
  - eexists; vm_compute; reflexivity.
Qed.

(** C7 (amended): the calculator takes [N] from the (first) reconstructed
    voltage sequence.  It aborts with [ZeroDivisionError] when [N = 0] and
    with an error when another sequence it reads has fewer than [N]
    elements ([IndexError] in [check_phasecal]).  A sequence with more than
    [N] elements raises nothing: only its first [N] elements are read.
    Nothing is ever padded. *)
Theorem calculator_length_contract (sqrt : Q -> Q) (self : monitor)
        (S : rebuilt_waves_dict) (samples rebuilt_wave : list Q)
        (board_voltage : Q) :
  let N := List.length rebuilt_wave in
  let N1 := List.length (at1 (w_v_ct S)) in
  (N = 0%nat ->
     check_phasecal sqrt samples rebuilt_wave board_voltage
     = Raise ZeroDivisionError) /\
  ((List.length samples < N)%nat ->
     check_phasecal sqrt samples rebuilt_wave board_voltage = Raise IndexError) /\
  ((N <= List.length samples)%nat ->
     check_phasecal sqrt samples rebuilt_wave board_voltage
     = check_phasecal sqrt (firstn N samples) rebuilt_wave board_voltage) /\
  (N1 = 0%nat ->
     calculate_power sqrt self S board_voltage = Raise ZeroDivisionError) /\
  ((exists k, (List.length (sel k (w_ct S)) < N1)%nat
              \/ (List.length (sel k (w_v_ct S)) < N1)%nat) ->
     exists e, calculate_power sqrt self S board_voltage = Raise e) /\
  (calculate_power sqrt self S board_voltage
   = calculate_power sqrt self (clipped N1 S) board_voltage).
Proof.
  intros N N1. split; [|split; [|split; [|split; [|split]]]].
  - intros HN. destruct rebuilt_wave; [reflexivity | discriminate HN].
  - apply check_phasecal_short.
  - apply check_phasecal_long.
  - intros HN. unfold calculate_power. fold N1. rewrite HN.
    destruct (py_div (grid_voltage self) (ac_transformer_output_voltage self))
      as [ratio|e] eqn:E; cbn [bind].
    + reflexivity.
    + unfold py_div in E. destruct (Qeq_bool _ 0); now inversion E.
  - intros Hshort. unfold calculate_power. fold N1.
    destruct (py_div (grid_voltage self) (ac_transformer_output_voltage self))
      as [ratio|e]; cbn [bind]; [|eexists; reflexivity].
    rewrite for_range_power_short; [eexists; reflexivity | | | exact Hshort];
      intros k; lia.
  - unfold calculate_power. fold N1.
    destruct (py_div (grid_voltage self) (ac_transformer_output_voltage self))
      as [ratio|e]; cbn [bind]; [|reflexivity].
    replace (List.length (at1 (w_v_ct (clipped N1 S)))) with N1
      by (cbn [clipped w_v_ct six_map at1]; rewrite length_firstn; unfold N1; lia).
    rewrite (for_range_ext_bounded _ (calculate_power_body (clipped N1 S)));
      [reflexivity|].
    intros i a Hi. apply calculate_power_body_clipped. lia.
Qed.

Lemma calculator_length_contract_witness :
  check_phasecal Qsqrt_floor [10; 20; 30] [10; 20; 30; 40] (33 # 10)
  = Raise IndexError /\
  check_phasecal Qsqrt_floor [10; 20; 30; 40; 50] [10; 20; 30; 40] (33 # 10)
  = check_phasecal Qsqrt_floor [10; 20; 30; 40] [10; 20; 30; 40] (33 # 10).
Proof.
  destruct (calculator_length_contract Qsqrt_floor (monitor_with 1)
              long_current_waves [10; 20; 30] [10; 20; 30; 40] (33 # 10))
    as (_ & Hshort & _).
  destruct (calculator_length_contract Qsqrt_floor (monitor_with 1)
              long_current_waves [10; 20; 30; 40; 50] [10; 20; 30; 40] (33 # 10))
    as (_ & _ & Hlong & _).
  split.
  - apply Hshort. simpl. lia.
  - apply Hlong. simpl. lia.
Defined.

(** ** Calibration search: rounds and the recommendation *)

Section RoundProofs.

Variable measure : nat -> Q -> result Q.
Hypothesis measure_returns : forall k c, exists p, measure k c = Return p.

Lemma iteration_cases (st : walk) (b : best) :
  (py_round (cur_pf st) 4 == 1 /\
   iteration measure st b
   = (cal <- read_local (new_phasecal st) ;;
      Return (Break (st, {| b_pf := cur_pf st; b_cal := cal |}))))
  \/
  (~ py_round (cur_pf st) 4 == 1 /\
   exists st' c p,
     iteration measure st b = Return (Next (st', keep_best b (c, p))) /\
     previous_phasecal st' = c /\ cur_pf st' = p /\
     calls st' = Datatypes.S (calls st) /\
     new_phasecal st' <> None).
Proof.
  unfold iteration.
  destruct (Qeq_bool (py_round (cur_pf st) 4) 1) eqn:E.
  - left. split; [now apply Qeq_bool_iff | reflexivity].
  - right. split; [intros H; apply Qeq_bool_iff in H; congruence|].
    destruct (Qlt_bool (cur_pf st) 1);
      destruct (negb (Qeq_bool (py_round (cur_pf st) 2) 1));
      match goal with
      | |- context [measure ?k ?c] => destruct (measure_returns k c) as (p & Hp)
      end; rewrite Hp; cbn [bind];
      (destruct (trends st) as [|t0 [|t1 l]]; cbn [app List.length Nat.eqb];
       [ | cbn [subscript nth_error bind];
           destruct (Qlt_bool t0 0 && Qlt_bool (p - previous_pf st) 0)
         | rewrite length_app, Nat.add_comm; cbn [List.length Nat.add Nat.eqb] ]);
      do 3 eexists; (split; [unfold keep_best; cbn [fst snd]; reflexivity|]);
      cbn; repeat split; discriminate.
Qed.

Lemma round_loop_spec :
  forall count st b,
    (new_phasecal st <> None \/ ~ py_round (cur_pf st) 4 == 1) ->
    exists st' b',
      round_loop measure count st b = Return (st', b') /\
      let ps := probes measure count st b in
      let checked := cur_pf st :: map snd ps in
      (List.length ps <= count)%nat /\
      calls st' = (calls st + List.length ps)%nat /\
      cur_pf st' = nth (List.length ps) checked 0 /\
      (forall i, (i < List.length ps)%nat -> ~ py_round (nth i checked 0) 4 == 1) /\
      (new_phasecal st <> None \/ ps <> [] -> new_phasecal st' <> None) /\
      (((List.length ps < count)%nat /\
        py_round (cur_pf st') 4 == 1 /\ b_pf b' = cur_pf st')
       \/ (List.length ps = count /\ b' = best_of b ps)).
Proof.
  induction count as [|count IH]; intros st b Hst.
  - exists st, b. split; [reflexivity|]. cbn.
    split; [lia|]. split; [lia|]. split; [reflexivity|].
    split; [intros i Hi; lia|].
    split; [intros [H|H]; [exact H | congruence]|].
    right. split; reflexivity.
  - destruct (iteration_cases st b) as [[H1 E]|[H1 (st1 & c & p & E & Ec & Ep & Ek & Hn)]].
    + destruct (new_phasecal st) as [cal|] eqn:En; [|tauto].
      cbn [read_local bind] in E.
      exists st, {| b_pf := cur_pf st; b_cal := cal |}.
      cbn [round_loop probes]. rewrite E. cbn [bind].
      split; [reflexivity|]. cbn.
      split; [lia|]. split; [lia|]. split; [reflexivity|].
      split; [intros i Hi; lia|].
      split; [rewrite En; intros _; discriminate|].
      left. split; [lia|]. split; [exact H1 | reflexivity].
    + destruct (IH st1 (keep_best b (c, p)) (or_introl Hn))
        as (st' & b' & Er & HL & Hk & Hpf & Hfirst & Hbound & Hend).
      exists st', b'. cbn [round_loop probes]. rewrite E. cbn [bind].
      split; [exact Er|]. rewrite Ec, Ep. cbn zeta in *.
      set (ps := probes measure count st1 (keep_best b (c, p))) in *.
      cbn [List.length map snd nth].
      split; [lia|]. split; [lia|]. split; [now rewrite <- Ep|].
      split.
      { intros [|i] Hi; [exact H1|]. cbn [nth]. rewrite <- Ep. apply Hfirst. lia. }
      split; [intros _; apply Hbound; now left|].
      destruct Hend as [(Hlt & Hr & Hb)|(Heq & Hb)].
      * left. split; [lia|]. split; [exact Hr | exact Hb].
      * right. split; [lia | exact Hb].
Qed.

End RoundProofs.

Lemma Qlt_bool_false (a b : Q) : Qlt_bool a b = false -> b <= a.
Proof.
  unfold Qlt_bool. intros H. apply negb_false_iff in H.
  now apply Qle_bool_iff.
Qed.

Lemma best_of_spec (ps : list (Q * Q)) :
  forall b,
    let r := best_of b ps in
    b_pf b <= b_pf r /\
    (forall p, In p ps -> snd p <= b_pf r) /\
    (r = b \/ (b_pf b < b_pf r /\ In (b_cal r, b_pf r) ps)).
Proof.
  induction ps as [|a ps IH]; intros b; cbn zeta.
  - cbn. split; [apply Qle_refl|]. split; [tauto | now left].
  - unfold best_of; cbn [fold_left]. fold (best_of (keep_best b a) ps).
    destruct (IH (keep_best b a)) as (H1 & H2 & H3). cbn zeta in *.
    set (r := best_of (keep_best b a) ps) in *.
    unfold keep_best in *. destruct a as [c p]. cbn [fst snd] in *.
    destruct (Qlt_bool (b_pf b) p) eqn:E.
    + apply Qlt_bool_iff in E. cbn [b_pf b_cal] in *.
      split; [lra|]. split.
      * intros q [<-|Hq]; [exact H1 | now apply H2].
      * right. split; [lra|].
        destruct H3 as [->|[_ Hin]]; [now left | now right].
    + apply Qlt_bool_false in E.
      split; [exact H1|]. split.
      * intros q [<-|Hq]; [cbn [snd]; lra | now apply H2].
      * destruct H3 as [->|[Hlt Hin]]; [now left | right; split; [exact Hlt | now right]].
Qed.

Lemma round_outcome_intro (measure : nat -> Q -> result Q) (st : walk) :
  (forall k c, exists p, measure k c = Return p) ->
  (new_phasecal st <> None \/ ~ py_round (cur_pf st) 4 == 1) ->
  exists st' b,
    calibration_round measure st = Return (st', b) /\
    round_outcome measure st st' b /\
    new_phasecal st' <> None.
Proof.
  intros Hm Hst. unfold calibration_round.
  destruct (round_loop_spec measure Hm 75 st {| b_pf := 0; b_cal := 0 |} Hst)
    as (st' & b & E & HL & Hk & Hpf & Hfirst & Hbound & Hend).
  exists st', b. split; [exact E|]. cbn zeta in *.
  change {| b_pf := 0; b_cal := 0 |} with no_best in *.
  set (ps := probes measure 75 st no_best) in *.
  split.
  - unfold round_outcome. fold ps. cbn zeta.
    split; [exact HL|]. split; [exact Hk|]. split; [exact Hpf|].
    split; [exact Hfirst|].
    destruct Hend as [Hbreak|(Heq & Hb)]; [now left|]. right.
    split; [exact Heq|].
    destruct (best_of_spec ps no_best) as (_ & H2 & H3). cbn zeta in *.
    rewrite <- Hb in H2, H3. split; [exact H2|].
    destruct H3 as [Hno|[Hpos Hin]].
    + left. split; [exact Hno|]. intros p Hp. specialize (H2 p Hp).
      now rewrite Hno in H2.
    + right. split; [exact Hpos | exact Hin].
  - apply Hbound. destruct Hst as [Hs|Hs]; [now left|]. right.
    intros Hnil. rewrite Hnil in *. cbn in Hpf, Hend.
    destruct Hend as [(_ & Hr & _)|(Heq & _)]; [|discriminate Heq].
    rewrite Hpf in Hr. contradiction.
Qed.

(** X21: the shape of a calibration run whose measurements return and whose
    initial power factor does not round to 1.0.  The run has 3 rounds of
    at most 75 measurements each.  A round ends at once, recording the
    current power factor, at the first iteration that finds it rounding to
    exactly 1.0 at 4 decimal places; otherwise it ends after 75
    measurements and holds the highest power factor above 0 measured in
    the round with the coefficient it was measured with, or the initial
    entry with power factor 0 and coefficient 0 when no measurement
    exceeded 0.  The coefficient handed to the operator is the arithmetic
    mean of the three recorded coefficients. *)
Theorem calibration_run (measure : nat -> Q -> result Q) (pf0 : Q) (k : nat) :
  (forall j c, exists p, measure j c = Return p) ->
  ~ py_round pf0 4 == 1 ->
  exists st1 b1 st2 b2 st3 b3 avg,
    find_phasecal_search measure pf0 k = Return [b1; b2; b3] /\
    round_outcome measure (initial_walk pf0 k) st1 b1 /\
    round_outcome measure st1 st2 b2 /\
    round_outcome measure st2 st3 b3 /\
    avg_phasecal [b1; b2; b3] = Return avg /\
    avg == (b_cal b1 + b_cal b2 + b_cal b3) / 3.
Proof.
  intros Hm H0.
  destruct (round_outcome_intro measure (initial_walk pf0 k) Hm (or_intror H0))
    as (st1 & b1 & E1 & O1 & N1).
  destruct (round_outcome_intro measure st1 Hm (or_introl N1))
    as (st2 & b2 & E2 & O2 & N2).
  destruct (round_outcome_intro measure st2 Hm (or_introl N2))
    as (st3 & b3 & E3 & O3 & _).
  exists st1, b1, st2, b2, st3, b3. eexists.
  split.
  { unfold find_phasecal_search. cbn [rounds].
    rewrite E1; cbn [bind fst snd]. rewrite E2; cbn [bind fst snd].
    rewrite E3; cbn [bind fst snd]. reflexivity. }
  split; [exact O1|]. split; [exact O2|]. split; [exact O3|].
  split; [reflexivity|]. cbn. field.
Qed.

Lemma calibration_run_witness :
  exists b1 b2 b3 avg,
    find_phasecal_search (replay late_success) (9 # 10) 0 = Return [b1; b2; b3] /\
    b1 = {| b_pf := 9 # 10; b_cal := 1 * big_increment |} /\
    b_pf b2 = 1 /\ b3 = b2 /\
    avg_phasecal [b1; b2; b3] = Return avg /\
    avg == (b_cal b1 + b_cal b2 + b_cal b3) / 3.
Proof.
  assert (Hm : forall j c, exists p, replay late_success j c = Return p)
    by (intros j c; eexists; reflexivity).
  assert (H0 : ~ py_round (9 # 10) 4 == 1) by (vm_compute; discriminate).
  destruct (calibration_run (replay late_success) (9 # 10) 0 Hm H0)
    as (st1 & b1 & st2 & b2 & st3 & b3 & avg & E & _ & _ & _ & Ea & Hav).
  exists b1, b2, b3, avg. split; [exact E|].
  vm_compute in E. injection E as <- <- <-.
  split; [reflexivity|]. split; [reflexivity|]. split; [reflexivity|].
  split; [exact Ea | exact Hav].
Defined.

(** ** Acquisition *)

(** X2: for the converter inputs 0..7 the request of [read_adc] is
    [[1, 128 + 16 * adc_num, 0]] ([8 + adc_num << 4] shifts the sum): three
    bytes, and different inputs give different requests. *)
Theorem request_is_one_byte_command (adc_num adc_num' : Z) :
  (0 <= adc_num <= 7)%Z -> (0 <= adc_num' <= 7)%Z ->
  Acquisition.request adc_num = [1; 128 + 16 * adc_num; 0]%Z /\
  Forall (fun b => 0 <= b < 256)%Z (Acquisition.request adc_num) /\
  (Acquisition.request adc_num = Acquisition.request adc_num' ->
   adc_num = adc_num').
Proof.
  intros H H'.
  assert (E : forall n, (0 <= n <= 7)%Z ->
                Acquisition.request n = [1; 128 + 16 * n; 0]%Z).
  { intros n Hn. unfold Acquisition.request.
    rewrite Z.shiftl_mul_pow2 by lia. change (2 ^ 4)%Z with 16%Z.
    f_equal. f_equal. lia. }
  split; [now apply E|]. split.
  - rewrite (E adc_num H).
    apply Forall_cons; [lia|]. apply Forall_cons; [lia|].
    apply Forall_cons; [lia|]. apply Forall_nil.
  - rewrite (E adc_num H), (E adc_num' H'). intros Heq.
    assert (Hn : nth 1 [1; 128 + 16 * adc_num; 0]%Z 0%Z
                 = nth 1 [1; 128 + 16 * adc_num'; 0]%Z 0%Z) by now rewrite Heq.
    cbn [nth] in Hn. lia.
Qed.

Lemma request_is_one_byte_command_witness :
  Acquisition.request 5 = [1; 208; 0]%Z.
Proof.
  assert (H : (0 <= 5 <= 7)%Z) by lia.
  exact (proj1 (request_is_one_byte_command 5 5 H H)).
Defined.

Lemma counting_bus_answers : Acquisition.answers_bytes Acquisition.counting_bus.
Proof.
  intros k req. split; [reflexivity|]. unfold Acquisition.counting_bus.
  pose proof (Z.mod_pos_bound (Z.of_nat k) 4).
  pose proof (Z.mod_pos_bound (Z.of_nat (37 * k)) 256).
  apply Forall_cons; [lia|]. apply Forall_cons; [lia|].
  apply Forall_cons; [lia|]. apply Forall_nil.
Qed.

Lemma reading_at_range (bus : Acquisition.spi) (k : nat) (adc_num : Z) :
  Acquisition.answers_bytes bus ->
  (0 <= Acquisition.reading_at bus k adc_num < 1024)%Z /\
  Acquisition.reading_at bus k adc_num
  = (256 * (nth 1 (bus k (Acquisition.request adc_num)) 0 mod 4)
     + nth 2 (bus k (Acquisition.request adc_num)) 0)%Z.
Proof.
  intros Hb. unfold Acquisition.reading_at.
  destruct (Hb k (Acquisition.request adc_num)) as [HL HF].
  destruct (bus k (Acquisition.request adc_num)) as [|r0 [|r1 [|r2 [|]]]];
    try discriminate HL. cbn [nth].
  inversion_clear HF as [|? ? _ HF1]. inversion_clear HF1 as [|? ? _ HF2].
  inversion_clear HF2 as [|? ? H2 _].
  change 3%Z with (Z.ones 2). rewrite Z.land_ones by lia.
  rewrite Z.shiftl_mul_pow2 by lia. change (2 ^ 2)%Z with 4%Z.
  change (2 ^ 8)%Z with 256%Z.
  pose proof (Z.mod_pos_bound r1 4). lia.
Qed.

Lemma read_adc_answers (bus : Acquisition.spi) (k : nat) (adc_num : Z) :
  Acquisition.answers_bytes bus ->
  Acquisition.read_adc bus k adc_num
  = Return (Acquisition.reading_at bus k adc_num).
Proof.
  intros Hb. unfold Acquisition.read_adc, Acquisition.reading_at.
  destruct (Hb k (Acquisition.request adc_num)) as [HL _].
  destruct (bus k (Acquisition.request adc_num)) as [|r0 [|r1 [|r2 [|]]]];
    try discriminate HL. reflexivity.
Qed.

(** X1: [read_adc] raises [IndexError] when the SPI answer has fewer than
    three entries; when every answer is three bytes it returns the 10-bit
    code [256 * (r[1] mod 4) + r[2]], which lies in [0, 1023]. *)
Theorem read_adc_ten_bits (bus : Acquisition.spi) (k : nat) (adc_num : Z) :
  ((List.length (bus k (Acquisition.request adc_num)) < 3)%nat ->
   Acquisition.read_adc bus k adc_num = Raise IndexError) /\
  (Acquisition.answers_bytes bus ->
   exists data,
     Acquisition.read_adc bus k adc_num = Return data /\
     (0 <= data < 1024)%Z /\
     data = (256 * (nth 1 (bus k (Acquisition.request adc_num)) 0 mod 4)
             + nth 2 (bus k (Acquisition.request adc_num)) 0)%Z).
Proof.
  split.
  - intros HL. unfold Acquisition.read_adc.
    destruct (bus k (Acquisition.request adc_num)) as [|r0 [|r1 [|r2 l]]];
      simpl in HL; try lia; reflexivity.
  - intros Hb. exists (Acquisition.reading_at bus k adc_num).
    split; [now apply read_adc_answers|]. now apply reading_at_range.
Qed.

Lemma read_adc_ten_bits_witness :
  exists data,
    Acquisition.read_adc Acquisition.counting_bus 7 5 = Return data /\
    (0 <= data < 1024)%Z.
Proof.
  destruct (read_adc_ten_bits Acquisition.counting_bus 7 5) as [_ H].
  destruct (H counting_bus_answers) as (data & E & R & _).
  exists data. split; assumption.
Defined.

Lemma collect_data_loop (bus : Acquisition.spi) (ch : Acquisition.adc_channels)
      (k0 : nat) :
  Acquisition.answers_bytes bus ->
  forall count start acc,
    let col := fun (o : nat) (n : Z) =>
      map (fun i => Acquisition.reading_at bus (k0 + 7 * i + o) n) (seq start count) in
    for_range start count (Acquisition.collect_data_body bus ch k0) acc
    = Return
        {| Acquisition.ct1_data :=
             Acquisition.ct1_data acc ++ col 0%nat (Acquisition.ct1_channel ch);
           Acquisition.ct2_data :=
             Acquisition.ct2_data acc ++ col 2%nat (Acquisition.ct2_channel ch);
           Acquisition.ct3_data :=
             Acquisition.ct3_data acc ++ col 4%nat (Acquisition.ct3_channel ch);
           Acquisition.ct4_data :=
             Acquisition.ct4_data acc ++ col 5%nat (Acquisition.ct4_channel ch);
           Acquisition.ct5_data :=
             Acquisition.ct5_data acc ++ col 1%nat (Acquisition.ct5_channel ch);
           Acquisition.ct6_data :=
             Acquisition.ct6_data acc ++ col 6%nat (Acquisition.ct6_channel ch);
           Acquisition.v_data :=
             Acquisition.v_data acc ++ col 3%nat (Acquisition.v_sensor_channel ch) |}.
Proof.
  intros Hb. induction count as [|count IH]; intros start acc; cbn zeta.
  - cbn [for_range seq map]. rewrite !app_nil_r. now destruct acc.
  - cbn [for_range]. unfold Acquisition.collect_data_body at 1.
    rewrite !(read_adc_answers bus) by exact Hb. cbn [bind].
    rewrite IH. cbn zeta.
    cbn [Acquisition.ct1_data Acquisition.ct2_data Acquisition.ct3_data
         Acquisition.ct4_data Acquisition.ct5_data Acquisition.ct6_data
         Acquisition.v_data seq map].
    rewrite <- !app_assoc. cbn [app]. rewrite Nat.add_0_r. reflexivity.
Qed.

(** X3: on a bus that answers three bytes, [collect_data(num_samples)]
    returns seven lists of exactly [num_samples] entries each; sample [i] of
    a channel is the code read at transfer [7 * i + slot] of the call, in
    the order ct1, ct5, ct2, voltage, ct3, ct4, ct6. *)
Theorem collect_data_batch (bus : Acquisition.spi) (ch : Acquisition.adc_channels)
        (k0 num_samples : nat) :
  Acquisition.answers_bytes bus ->
  exists samples,
    Acquisition.collect_data bus ch k0 num_samples = Return samples /\
    (forall c, List.length (sel c (s_ct samples)) = num_samples) /\
    List.length (s_voltage samples) = num_samples /\
    (forall c i, (i < num_samples)%nat ->
       nth i (sel c (s_ct samples)) 0
       = inject_Z (Acquisition.reading_at bus (k0 + 7 * i + Acquisition.slot c)
                     (Acquisition.input_of ch c))) /\
    (forall i, (i < num_samples)%nat ->
       nth i (s_voltage samples) 0
       = inject_Z (Acquisition.reading_at bus (k0 + 7 * i + 3)
                     (Acquisition.v_sensor_channel ch))).
Proof.
  intros Hb. unfold Acquisition.collect_data.
  rewrite (collect_data_loop bus ch k0 Hb). cbn [bind]. eexists.
  split; [reflexivity|]. cbn zeta.
  cbn [Acquisition.to_samples Acquisition.ct1_data Acquisition.ct2_data
       Acquisition.ct3_data Acquisition.ct4_data Acquisition.ct5_data
       Acquisition.ct6_data Acquisition.v_data Acquisition.no_data app
       s_ct s_voltage].
  assert (HN : forall (f : nat -> Z) i, (i < num_samples)%nat ->
            nth i (map inject_Z (map f (seq 0 num_samples))) 0 = inject_Z (f i)).
  { intros f i Hi. change 0 with (inject_Z 0). rewrite map_nth.
    rewrite (nth_indep _ 0%Z (f 0%nat)) by (rewrite length_map, length_seq; exact Hi).
    rewrite map_nth, seq_nth by exact Hi. reflexivity. }
  split; [intros []; cbn [sel at1 at2 at3 at4 at5 at6];
          now rewrite !length_map, length_seq|].
  split; [now rewrite !length_map, length_seq|].
  split.
  - intros [] i Hi; cbn [sel at1 at2 at3 at4 at5 at6 Acquisition.slot
                        Acquisition.input_of]; now rewrite HN.
  - intros i Hi. now rewrite HN.
Qed.

Lemma collect_data_batch_witness :
  exists samples,
    Acquisition.collect_data Acquisition.counting_bus Acquisition.ADC_CHANNELS 11 4
    = Return samples /\
    List.length (s_voltage samples) = 4%nat.
Proof.
  destruct (collect_data_batch Acquisition.counting_bus Acquisition.ADC_CHANNELS
              11 4 counting_bus_answers) as (samples & E & _ & L & _).
  exists samples. split; assumption.
Defined.

Lemma board_samples_loop (bus : Acquisition.spi) (ch : Acquisition.adc_channels) :
  Acquisition.answers_bytes bus ->
  forall m samples k fuel,
    (List.length samples + m = 11)%nat -> (m <= fuel)%nat ->
    Acquisition.board_samples bus ch fuel k samples
    = Some (Return
              (samples ++ map (fun j => Acquisition.reading_at bus j
                                          (Acquisition.board_voltage_channel ch))
                              (seq k m),
               (k + m)%nat)).
Proof.
  intros Hb. induction m as [|m IH]; intros samples k fuel HL Hf.
  - destruct fuel; cbn [Acquisition.board_samples];
      rewrite (leb_correct_conv 10 (List.length samples)) by lia;
      cbn [seq map]; now rewrite app_nil_r, Nat.add_0_r.
  - destruct fuel as [|fuel]; [lia|]. cbn [Acquisition.board_samples].
    rewrite (leb_correct (List.length samples) 10) by lia.
    rewrite (read_adc_answers bus) by exact Hb.
    rewrite IH by (rewrite ?length_app; simpl; lia).
    cbn [seq map]. rewrite <- app_assoc. cbn [app].
    now rewrite Nat.add_succ_r.
Qed.

Lemma py_sum_bounds (l : list Z) :
  Forall (fun z => 0 <= z < 1024)%Z l ->
  forall acc,
    (acc <= fold_left Z.add l acc <= acc + 1023 * Z.of_nat (List.length l))%Z.
Proof.
  induction 1 as [|z l Hz _ IH]; intros acc; cbn [fold_left List.length].
  - lia.
  - specialize (IH (acc + z)%Z). rewrite Nat2Z.inj_succ. lia.
Qed.

(** X4: on a bus that answers three bytes, [get_board_voltage] leaves its
    loop after exactly 11 reads (its condition is [len(samples) <= 10]),
    whatever fuel of at least 11 passes is allowed, and returns
    [sum / 11 / 1024 * 3.31 * 2], a value in [0, 6.62). *)
Theorem get_board_voltage_eleven (bus : Acquisition.spi)
        (ch : Acquisition.adc_channels) (fuel k : nat) :
  Acquisition.answers_bytes bus -> (11 <= fuel)%nat ->
  let samples :=
    map (fun j => Acquisition.reading_at bus j (Acquisition.board_voltage_channel ch))
        (seq k 11) in
  exists board_voltage,
    Acquisition.get_board_voltage bus ch fuel k
    = Some (Return (board_voltage, (k + 11)%nat)) /\
    board_voltage
    == inject_Z (Acquisition.py_sum samples) / 11 / 1024 * (331 # 100) * 2 /\
    0 <= board_voltage /\ board_voltage < 662 # 100.
Proof.
  intros Hb Hf samples. unfold Acquisition.get_board_voltage.
  rewrite (board_samples_loop bus ch Hb 11 [] k fuel) by (simpl; lia).
  cbn [app]. fold samples.
  assert (HL : List.length samples = 11%nat)
    by (unfold samples; now rewrite length_map, length_seq).
  rewrite HL. cbn [bind py_div]. eexists. split; [reflexivity|].
  assert (HS : (0 <= Acquisition.py_sum samples <= 1023 * 11)%Z).
  { unfold Acquisition.py_sum.
    assert (HF : Forall (fun z => 0 <= z < 1024)%Z samples).
    { unfold samples. apply Forall_forall. intros z Hz.
      apply in_map_iff in Hz as (j & <- & _). now apply reading_at_range. }
    pose proof (py_sum_bounds samples HF 0%Z) as HB. rewrite HL in HB. lia. }
  assert (H0 : 0 <= inject_Z (Acquisition.py_sum samples))
    by (change 0 with (inject_Z 0); rewrite <- Zle_Qle; lia).
  assert (H1 : inject_Z (Acquisition.py_sum samples) <= inject_Z (1023 * 11))
    by (rewrite <- Zle_Qle; lia).
  change (inject_Z (1023 * 11)) with (11253 # 1) in H1.
  change (inject_Z (Z.of_nat 11)) with 11.
  split; [reflexivity|].
  set (x := inject_Z (Acquisition.py_sum samples)) in *.
  assert (E : x / 11 / 1024 * (331 # 100) * 2 == x * (662 # 1126400)) by field.
  rewrite E. split; nra.
Qed.

Lemma get_board_voltage_eleven_witness :
  exists board_voltage,
    Acquisition.get_board_voltage Acquisition.counting_bus
      Acquisition.ADC_CHANNELS 20 0
    = Some (Return (board_voltage, 11%nat)) /\
    board_voltage < 662 # 100.
Proof.
  assert (Hf : (11 <= 20)%nat) by lia.
  destruct (get_board_voltage_eleven Acquisition.counting_bus
              Acquisition.ADC_CHANNELS 20 0 counting_bus_answers Hf)
    as (v & E & _ & _ & Hlt).
  exists v. split; assumption.
Defined.

Lemma collect_data_lengths (bus : Acquisition.spi) (ch : Acquisition.adc_channels)
      (k0 num_samples : nat) :
  Acquisition.answers_bytes bus ->
  exists samples,
    Acquisition.collect_data bus ch k0 num_samples = Return samples /\
    (forall c, List.length (sel c (s_ct samples)) = num_samples) /\
    List.length (s_voltage samples) = num_samples.
Proof.
  intros Hb. unfold Acquisition.collect_data.
  rewrite (collect_data_loop bus ch k0 Hb). cbn [bind]. eexists.
  split; [reflexivity|]. cbn zeta.
  cbn [Acquisition.to_samples Acquisition.ct1_data Acquisition.ct2_data
       Acquisition.ct3_data Acquisition.ct4_data Acquisition.ct5_data
       Acquisition.ct6_data Acquisition.v_data Acquisition.no_data app
       s_ct s_voltage].
  split; [intros []; cbn [sel at1 at2 at3 at4 at5 at6]|];
    now rewrite !length_map, length_seq.
Qed.

Lemma get_board_voltage_returns (bus : Acquisition.spi)
      (ch : Acquisition.adc_channels) (fuel k : nat) :
  Acquisition.answers_bytes bus -> (11 <= fuel)%nat ->
  exists board_voltage,
    Acquisition.get_board_voltage bus ch fuel k
    = Some (Return (board_voltage, (k + 11)%nat)).
Proof.
  intros Hb Hf. unfold Acquisition.get_board_voltage.
  rewrite (board_samples_loop bus ch Hb 11 [] k fuel) by (simpl; lia).
  cbn [app]. rewrite length_map, length_seq. cbn [bind py_div].
  eexists. reflexivity.
Qed.

Lemma poll_spec (sqrt : Q -> Q) (bus : Acquisition.spi)
        (ch : Acquisition.adc_channels) (self : monitor) (fuel k : nat) :
  Acquisition.answers_bytes bus -> (11 <= fuel)%nat ->
  ~ ac_transformer_output_voltage self == 0 ->
  exists r,
    Acquisition.poll sqrt bus ch self fuel k
    = Some (Return (r, (k + 11 + 7 * 2000)%nat)).
Proof.
  intros Hb Hf Hac. unfold Acquisition.poll.
  destruct (get_board_voltage_returns bus ch fuel k Hb Hf) as (bv & E).
  rewrite E.
  destruct (collect_data_lengths bus ch (k + 11) 2000 Hb)
    as (samples & Es & Hc & Hv).
  rewrite Es. cbn [bind].
  destruct (s_voltage samples) as [|v0 rest] eqn:EV; [discriminate Hv|].
  destruct (rebuild_waves_nonempty samples v0 rest (ct_phase_correction self) EV)
    as (w & Ew & _ & Hct & Hw).
  rewrite Ew. cbn [bind].
  destruct (calculate_power_ok sqrt self w bv 2000) as (r & Er & _).
  - lia.
  - intros c. rewrite Hct. apply Hc.
  - intros c. rewrite Hw. cbn [List.length]. rewrite rebuild_points_length.
    exact Hv.
  - exact Hac.
  - exists r. now rewrite Er.
Qed.

(** ** The averaging window of [run_main] *)

Lemma aggregate_buffers (w : Telemetry.window) (results : power_results) :
  (Telemetry.i w < 2)%nat ->
  snd (Telemetry.aggregate w results) = None /\
  Telemetry.i (fst (Telemetry.aggregate w results)) = S (Telemetry.i w) /\
  Telemetry.rms_voltages (fst (Telemetry.aggregate w results))
  = Telemetry.rms_voltages w ++ [r_voltage results] /\
  Telemetry.ct_dict (fst (Telemetry.aggregate w results))
  = six_map2 Telemetry.append_reading (Telemetry.ct_dict w) (r_ct results).
Proof.
  intros Hi. unfold Telemetry.aggregate. cbn zeta.
  change (Qlt_bool 0 20) with true. cbv iota.
  apply Nat.ltb_lt in Hi. rewrite Hi. cbn [fst snd].
  repeat split.
Qed.

Lemma aggregate_writes (w : Telemetry.window) (results : power_results) :
  (2 <= Telemetry.i w)%nat ->
  Telemetry.aggregate w results = (Telemetry.fresh, Some w).
Proof.
  intros Hi. unfold Telemetry.aggregate. cbn zeta.
  change (Qlt_bool 0 20) with true. cbv iota.
  apply Nat.ltb_ge in Hi. now rewrite Hi.
Qed.

(** X6: in [run_main] the first two cycles after a write are buffered and
    the third cycle writes the buffer and resets it; the readings of that
    third cycle reach neither the write nor the next window. *)
Theorem third_cycle_is_dropped (r1 r2 r3 : power_results)
        (cycles : list power_results) :
  let buffered :=
    fst (Telemetry.aggregate (fst (Telemetry.aggregate Telemetry.fresh r1)) r2) in
  Telemetry.run_main_loop Telemetry.fresh (r1 :: r2 :: r3 :: cycles)
  = (fst (Telemetry.run_main_loop Telemetry.fresh cycles),
     buffered :: snd (Telemetry.run_main_loop Telemetry.fresh cycles)) /\
  Telemetry.i buffered = 2%nat /\
  Telemetry.rms_voltages buffered = [r_voltage r1; r_voltage r2] /\
  forall c,
    sel c (Telemetry.ct_dict buffered)
    = {| Telemetry.d_power := [power (sel c (r_ct r1)); power (sel c (r_ct r2))];
         Telemetry.d_pf := [pf (sel c (r_ct r1)); pf (sel c (r_ct r2))];
         Telemetry.d_current :=
           [current (sel c (r_ct r1)); current (sel c (r_ct r2))] |}.
Proof.
  intros buffered.
  destruct (aggregate_buffers Telemetry.fresh r1) as (N1 & I1 & V1 & C1);
    [cbn; lia|].
  set (w1 := fst (Telemetry.aggregate Telemetry.fresh r1)) in *.
  destruct (aggregate_buffers w1 r2) as (N2 & I2 & V2 & C2);
    [rewrite I1; cbn; lia|].
  fold buffered in N2, I2, V2, C2.
  assert (E3 : Telemetry.aggregate buffered r3 = (Telemetry.fresh, Some buffered))
    by (apply aggregate_writes; rewrite I2, I1; cbn; lia).
  split; [|split; [|split]].
  - cbn [Telemetry.run_main_loop].
    rewrite (surjective_pairing (Telemetry.aggregate Telemetry.fresh r1)).
    fold w1. rewrite N1.
    rewrite (surjective_pairing (Telemetry.aggregate w1 r2)).
    fold buffered. rewrite N2, E3.
    now destruct (Telemetry.run_main_loop Telemetry.fresh cycles).
  - rewrite I2, I1. reflexivity.
  - rewrite V2, V1. reflexivity.
  - intros c. rewrite C2, C1. now destruct c.
Qed.


Lemma list_ind3 {A : Type} (P : list A -> Prop) :
  P [] -> (forall a, P [a]) -> (forall a b, P [a; b]) ->
  (forall a b c l, P l -> P (a :: b :: c :: l)) ->
  forall l, P l.
Proof.
  intros H0 H1 H2 H3.
  assert (H : forall l, P l /\ (forall a, P (a :: l)) /\ (forall a b, P (a :: b :: l))).
  { induction l as [|x l (IH0 & IH1 & IH2)].
    - repeat split; auto.
    - repeat split; auto. }
  intros l. apply H.
Qed.

Lemma run_main_loop_three (r1 r2 r3 : power_results) (cycles : list power_results) :
  snd (Telemetry.run_main_loop Telemetry.fresh (r1 :: r2 :: r3 :: cycles))
  = fst (Telemetry.aggregate (fst (Telemetry.aggregate Telemetry.fresh r1)) r2)
    :: snd (Telemetry.run_main_loop Telemetry.fresh cycles) /\
  fst (Telemetry.run_main_loop Telemetry.fresh (r1 :: r2 :: r3 :: cycles))
  = fst (Telemetry.run_main_loop Telemetry.fresh cycles).
Proof.
  destruct (aggregate_buffers Telemetry.fresh r1) as (N1 & I1 & _);
    [cbn; lia|].
  set (w1 := fst (Telemetry.aggregate Telemetry.fresh r1)) in *.
  destruct (aggregate_buffers w1 r2) as (N2 & I2 & _);
    [rewrite I1; cbn; lia|].
  set (w2 := fst (Telemetry.aggregate w1 r2)) in *.
  assert (E3 : Telemetry.aggregate w2 r3 = (Telemetry.fresh, Some w2))
    by (apply aggregate_writes; rewrite I2, I1; cbn; lia).
  cbn [Telemetry.run_main_loop].
  rewrite (surjective_pairing (Telemetry.aggregate Telemetry.fresh r1)).
  fold w1. rewrite N1.
  rewrite (surjective_pairing (Telemetry.aggregate w1 r2)).
  fold w2. rewrite N2, E3.
  now destruct (Telemetry.run_main_loop Telemetry.fresh cycles).
Qed.

(** X7: over any sequence of polling results, [run_main] writes once per
    three cycles, and every window written holds exactly two readings
    ([i = 2]). *)
Theorem one_write_per_three_cycles (cycles : list power_results) :
  let writes := snd (Telemetry.run_main_loop Telemetry.fresh cycles) in
  List.length writes = (List.length cycles / 3)%nat /\
  Forall (fun payload =>
            Telemetry.i payload = 2%nat /\
            List.length (Telemetry.rms_voltages payload) = 2%nat) writes.
Proof.
  induction cycles as [|a|a b|a b c cycles [IHn IHf]] using list_ind3.
  - split; [reflexivity | constructor].
  - destruct (aggregate_buffers Telemetry.fresh a) as (N1 & _); [cbn; lia|].
    cbn [Telemetry.run_main_loop].
    rewrite (surjective_pairing (Telemetry.aggregate Telemetry.fresh a)), N1.
    split; [reflexivity | constructor].
  - destruct (aggregate_buffers Telemetry.fresh a) as (N1 & I1 & _); [cbn; lia|].
    destruct (aggregate_buffers (fst (Telemetry.aggregate Telemetry.fresh a)) b)
      as (N2 & _); [rewrite I1; cbn; lia|].
    cbn [Telemetry.run_main_loop].
    rewrite (surjective_pairing (Telemetry.aggregate Telemetry.fresh a)), N1.
    rewrite (surjective_pairing
               (Telemetry.aggregate (fst (Telemetry.aggregate Telemetry.fresh a)) b)),
      N2.
    split; [reflexivity | constructor].
  - cbn zeta in *. destruct (run_main_loop_three a b c cycles) as [E _].
    rewrite E. split.
    + cbn [List.length]. rewrite IHn.
      change (S (S (S (List.length cycles)))) with (3 + List.length cycles)%nat.
      replace (3 + List.length cycles)%nat with (List.length cycles + 1 * 3)%nat by lia.
      rewrite Nat.div_add by lia. lia.
    + constructor; [|exact IHf].
      destruct (aggregate_buffers Telemetry.fresh a) as (_ & I1 & V1 & _);
        [cbn; lia|].
      destruct (aggregate_buffers (fst (Telemetry.aggregate Telemetry.fresh a)) b)
        as (_ & I2 & V2 & _); [rewrite I1; cbn; lia|].
      rewrite I2, I1, V2, V1. split; reflexivity.
Qed.

(** X8: a buffered cycle always records 0 for solar power, current and
    power factor and never records a home power factor; net power and net
    current equal home consumption, which is the sum of the six channels,
    the currents of ct1 and ct2 negated when their real power is negative
    and the other four never. *)
Theorem solar_is_disabled (w : Telemetry.window) (results : power_results) :
  (Telemetry.i w < 2)%nat ->
  let w' := fst (Telemetry.aggregate w results) in
  let p := fun c => power (sel c (r_ct results)) in
  let signed := fun c =>
    if Qlt_bool (p c) 0 then - current (sel c (r_ct results))
    else current (sel c (r_ct results)) in
  Telemetry.solar_power_values w'
  = {| Telemetry.d_power := Telemetry.d_power (Telemetry.solar_power_values w) ++ [0];
       Telemetry.d_pf := Telemetry.d_pf (Telemetry.solar_power_values w) ++ [0];
       Telemetry.d_current :=
         Telemetry.d_current (Telemetry.solar_power_values w) ++ [0] |} /\
  Telemetry.d_pf (Telemetry.home_load_values w')
  = Telemetry.d_pf (Telemetry.home_load_values w) /\
  exists home_power net_power home_current net_current,
    Telemetry.d_power (Telemetry.home_load_values w')
    = Telemetry.d_power (Telemetry.home_load_values w) ++ [home_power] /\
    Telemetry.n_power (Telemetry.net_power_values w')
    = Telemetry.n_power (Telemetry.net_power_values w) ++ [net_power] /\
    Telemetry.d_current (Telemetry.home_load_values w')
    = Telemetry.d_current (Telemetry.home_load_values w) ++ [home_current] /\
    Telemetry.n_current (Telemetry.net_power_values w')
    = Telemetry.n_current (Telemetry.net_power_values w) ++ [net_current] /\
    net_power == home_power /\
    home_power == p ct1 + p ct2 + p ct3 + p ct4 + p ct5 + p ct6 /\
    net_current == home_current /\
    home_current
    == signed ct1 + signed ct2 + current (sel ct3 (r_ct results))
       + current (sel ct4 (r_ct results)) + current (sel ct5 (r_ct results))
       + current (sel ct6 (r_ct results)).
Proof.
  intros Hi w' p signed. subst w'. unfold Telemetry.aggregate. cbn zeta.
  change (Qlt_bool 0 20) with true. cbv iota.
  change (Qlt_bool 0 0) with false. cbv iota.
  apply Nat.ltb_lt in Hi. rewrite Hi. cbn [fst].
  cbn [Telemetry.solar_power_values Telemetry.home_load_values
       Telemetry.net_power_values Telemetry.d_power Telemetry.d_pf
       Telemetry.d_current Telemetry.n_power Telemetry.n_current].
  split; [reflexivity|]. split; [reflexivity|].
  do 4 eexists. do 4 (split; [reflexivity|]).
  subst p signed. cbn [sel six_map at1 at2 at3 at4 at5 at6].
  split; [ring|]. split; [ring|]. split; [ring|].
  destruct (Qlt_bool (power (at1 (r_ct results))) 0),
           (Qlt_bool (power (at2 (r_ct results))) 0); ring.
Qed.

(** X5: with a bus that answers three bytes and a non-zero transformer
    voltage, no polling cycle of [run_main] raises; started with [i] readings
    buffered, [cycles] cycles write [(cycles + i) / 3] windows and leave
    [(cycles + i) mod 3] readings buffered. *)
Theorem run_main_writes_every_third_cycle (sqrt : Q -> Q) (bus : Acquisition.spi)
        (ch : Acquisition.adc_channels) (self : monitor) (fuel : nat) :
  Acquisition.answers_bytes bus -> (11 <= fuel)%nat ->
  ~ ac_transformer_output_voltage self == 0 ->
  forall cycles k w,
    (Telemetry.i w <= 2)%nat ->
    exists writes w',
      Telemetry.run_main sqrt bus ch self fuel cycles k w
      = Some (writes, Return w') /\
      List.length writes = ((cycles + Telemetry.i w) / 3)%nat /\
      Telemetry.i w' = ((cycles + Telemetry.i w) mod 3)%nat.
Proof.
  intros Hb Hf Hac. induction cycles as [|cycles IH]; intros k w Hi.
  - exists [], w. split; [reflexivity|]. cbn [List.length Nat.add].
    rewrite Nat.div_small, Nat.mod_small by lia. split; reflexivity.
  - cbn [Telemetry.run_main].
    destruct (poll_spec sqrt bus ch self fuel k Hb Hf Hac) as (r & Er).
    rewrite Er.
    destruct (Nat.lt_ge_cases (Telemetry.i w) 2) as [Hlt|Hge].
    + destruct (aggregate_buffers w r Hlt) as (N1 & I1 & _).
      rewrite (surjective_pairing (Telemetry.aggregate w r)), N1.
      destruct (IH (k + 11 + 7 * 2000)%nat (fst (Telemetry.aggregate w r)))
        as (writes & w' & E & HL & HI); [rewrite I1; lia|].
      rewrite E. exists writes, w'. split; [reflexivity|].
      rewrite I1 in HL, HI.
      replace (S cycles + Telemetry.i w)%nat with (cycles + S (Telemetry.i w))%nat
        by lia.
      split; assumption.
    + rewrite (aggregate_writes w r Hge).
      destruct (IH (k + 11 + 7 * 2000)%nat Telemetry.fresh)
        as (writes & w' & E & HL & HI); [cbn; lia|].
      rewrite E. exists (w :: writes), w'. split; [reflexivity|].
      change (Telemetry.i Telemetry.fresh) with 0%nat in HL, HI.
      rewrite Nat.add_0_r in HL, HI.
      assert (Hi2 : Telemetry.i w = 2%nat) by lia. rewrite Hi2.
      replace (S cycles + 2)%nat with (cycles + 1 * 3)%nat by lia.
      rewrite Nat.div_add, Nat.Div0.mod_add by lia.
      cbn [List.length]. split; lia.
Qed.

Lemma run_main_writes_every_third_cycle_witness :
  exists writes w',
    Telemetry.run_main Qsqrt_floor Acquisition.counting_bus
      Acquisition.ADC_CHANNELS (monitor_with 1) 11 7 0 Telemetry.fresh
    = Some (writes, Return w') /\
    List.length writes = 2%nat /\ Telemetry.i w' = 1%nat.
Proof.
  assert (Hf : (11 <= 11)%nat) by lia.
  assert (Hac : ~ ac_transformer_output_voltage (monitor_with 1) == 0)
    by (simpl; intros H; discriminate H).
  assert (Hi : (Telemetry.i Telemetry.fresh <= 2)%nat) by (cbn; lia).
  exact (run_main_writes_every_third_cycle Qsqrt_floor Acquisition.counting_bus
           Acquisition.ADC_CHANNELS (monitor_with 1) 11 counting_bus_answers Hf Hac
           7 0 Telemetry.fresh Hi).
Defined.

Lemma solar_is_disabled_witness :
  let results :=
    {| r_ct := six_pure {| power := - (5 # 1); current := 2; voltage := 240;
                           pf := - (1 # 2) |};
       r_voltage := 240 |} in
  exists home_power net_power,
    Telemetry.d_power
      (Telemetry.home_load_values (fst (Telemetry.aggregate Telemetry.fresh results)))
    = [home_power] /\
    Telemetry.n_power
      (Telemetry.net_power_values (fst (Telemetry.aggregate Telemetry.fresh results)))
    = [net_power] /\
    net_power == home_power.
Proof.
  intros results.
  assert (Hi : (Telemetry.i Telemetry.fresh < 2)%nat) by (cbn; lia).
  destruct (solar_is_disabled Telemetry.fresh results Hi)
    as (_ & _ & h & n & hc & nc & E1 & E2 & _ & _ & E & _).
  exists h, n. repeat split; assumption.
Defined.

(** ** Calibration search: rounding thresholds *)

Lemma round_half_even_even (y : Q) (n : Z) :
  Z.even n = true ->
  (round_half_even y = n <->
   inject_Z n - (1 # 2) <= y /\ y <= inject_Z n + (1 # 2)).
Proof.
  intros Hn. unfold round_half_even.
  pose proof (Qfloor_le y) as Hlo. pose proof (Qlt_floor y) as Hhi.
  set (f := Qfloor y) in *. rewrite inject_Z_plus in Hhi.
  change (inject_Z 1) with 1 in Hhi.
  assert (Hodd : Z.even (n - 1) = false).
  { rewrite Z.even_sub, Hn. reflexivity. }
  split.
  - destruct (Qlt_bool (y - inject_Z f) (1 # 2)) eqn:E1.
    + apply Qlt_bool_iff in E1. intros <-. split; lra.
    + apply Qlt_bool_false in E1.
      destruct (Qlt_bool (1 # 2) (y - inject_Z f)) eqn:E2.
      * apply Qlt_bool_iff in E2. intros <-. rewrite inject_Z_plus.
        change (inject_Z 1) with 1. split; lra.
      * apply Qlt_bool_false in E2.
        destruct (Z.even f); intros <-;
          rewrite ?inject_Z_plus; change (inject_Z 1) with 1; split; lra.
  - intros [H1 H2].
    assert (Hf : (f = n \/ f = n - 1)%Z).
    { assert (A : inject_Z f < inject_Z (n + 1))
        by (rewrite inject_Z_plus; change (inject_Z 1) with 1; lra).
      assert (B : inject_Z (n - 2) < inject_Z f).
      { unfold Z.sub. rewrite inject_Z_plus. change (inject_Z (- (2))) with (-2#1). lra. }
      rewrite <- Zlt_Qlt in A, B. lia. }
    destruct Hf as [Hf|Hf]; rewrite Hf in *.
    + destruct (Qlt_bool (y - inject_Z n) (1 # 2)) eqn:E1; [reflexivity|].
      apply Qlt_bool_false in E1.
      destruct (Qlt_bool (1 # 2) (y - inject_Z n)) eqn:E2;
        [apply Qlt_bool_iff in E2; lra|]. now rewrite Hn.
    + assert (E : inject_Z (n - 1) == inject_Z n - 1).
      { unfold Z.sub. rewrite inject_Z_plus. reflexivity. }
      destruct (Qlt_bool (y - inject_Z (n - 1)) (1 # 2)) eqn:E1;
        [apply Qlt_bool_iff in E1; lra|].
      destruct (Qlt_bool (1 # 2) (y - inject_Z (n - 1))) eqn:E2; [lia|].
      rewrite Hodd. lia.
Qed.

Lemma py_round_4_one (x : Q) :
  py_round x 4 == 1 <-> 99995 # 100000 <= x /\ x <= 100005 # 100000.
Proof.
  unfold py_round. change (inject_Z (10 ^ Z.of_nat 4)) with 10000.
  assert (E : forall z, inject_Z z / 10000 == 1 <-> z = 10000%Z).
  { intros z. split.
    - intros H. apply inject_Z_injective.
      change (inject_Z 10000) with 10000. 
      assert (H' : inject_Z z == inject_Z z / 10000 * 10000) by field. lra.
    - intros ->. reflexivity. }
  rewrite E, (round_half_even_even (x * 10000) 10000 eq_refl).
  change (inject_Z 10000) with 10000. split; intros [H1 H2]; split; lra.
Qed.

Lemma py_round_2_one (x : Q) :
  py_round x 2 == 1 <-> 995 # 1000 <= x /\ x <= 1005 # 1000.
Proof.
  unfold py_round. change (inject_Z (10 ^ Z.of_nat 2)) with 100.
  assert (E : forall z, inject_Z z / 100 == 1 <-> z = 100%Z).
  { intros z. split.
    - intros H. apply inject_Z_injective.
      change (inject_Z 100) with 100.
      assert (H' : inject_Z z == inject_Z z / 100 * 100) by field. lra.
    - intros ->. reflexivity. }
  rewrite E, (round_half_even_even (x * 100) 100 eq_refl).
  change (inject_Z 100) with 100. split; intros [H1 H2]; split; lra.
Qed.

Lemma Qeq_bool_false (a b : Q) : ~ a == b -> Qeq_bool a b = false.
Proof.
  intros H. destruct (Qeq_bool a b) eqn:E; [|reflexivity].
  apply Qeq_bool_iff in E. contradiction.
Qed.

Lemma Qle_bool_false (a b : Q) : Qle_bool a b = false -> b < a.
Proof.
  intros H. apply Qnot_le_lt. intros Hle. apply Qle_bool_iff in Hle. congruence.
Qed.

(** The coefficient an iteration measures, by the thresholds of the
    direction rule. *)
Lemma direction_coefficient (st : walk) :
  fst (if Qlt_bool (cur_pf st) 1
       then (if negb (Qeq_bool (py_round (cur_pf st) 2) 1)
             then previous_phasecal st * big_increment
             else previous_phasecal st * increment st, "incremented"%string)
       else (if negb (Qeq_bool (py_round (cur_pf st) 2) 1)
             then previous_phasecal st * big_decrement
             else previous_phasecal st * decrement st, "decremented"%string))
  = previous_phasecal st * step_factor st.
Proof.
  unfold step_factor.
  destruct (Qlt_bool (cur_pf st) 1) eqn:E1; cbn [fst].
  - apply Qlt_bool_iff in E1.
    destruct (Qlt_bool (cur_pf st) (995 # 1000)) eqn:E2.
    + apply Qlt_bool_iff in E2.
      rewrite Qeq_bool_false; [reflexivity|]. rewrite py_round_2_one. lra.
    + apply Qlt_bool_false in E2.
      rewrite Qeq_bool_true; [reflexivity|]. rewrite py_round_2_one. lra.
  - apply Qlt_bool_false in E1.
    destruct (Qlt_bool (cur_pf st) (995 # 1000)) eqn:E2;
      [apply Qlt_bool_iff in E2; lra|].
    destruct (Qle_bool (cur_pf st) (1005 # 1000)) eqn:E3.
    + apply Qle_bool_iff in E3.
      rewrite Qeq_bool_true; [reflexivity|]. rewrite py_round_2_one. lra.
    + apply Qle_bool_false in E3.
      rewrite Qeq_bool_false; [reflexivity|]. rewrite py_round_2_one. lra.
Qed.

Lemma iteration_next_inv (measure : nat -> Q -> result Q) (st st' : walk)
      (b b' : best) :
  iteration measure st b = Return (Next (st', b')) ->
  ~ py_round (cur_pf st) 4 == 1 /\
  previous_phasecal st' = previous_phasecal st * step_factor st /\
  measure (calls st) (previous_phasecal st') = Return (cur_pf st') /\
  calls st' = S (calls st) /\
  b' = keep_best b (previous_phasecal st', cur_pf st') /\
  ((increment st' = increment st /\ decrement st' = decrement st)
   \/ (increment st' = 1 + Qabs (1 - increment st) / 2 /\
       decrement st' = decrement st + (1 - decrement st) / 2)).
Proof.
  unfold iteration. intros H.
  destruct (Qeq_bool (py_round (cur_pf st) 4) 1) eqn:E0.
  { destruct (new_phasecal st); discriminate H. }
  split; [intros Hs; apply Qeq_bool_iff in Hs; congruence|].
  pose proof (direction_coefficient st) as Hc.
  destruct (if Qlt_bool (cur_pf st) 1
            then (if negb (Qeq_bool (py_round (cur_pf st) 2) 1)
                  then previous_phasecal st * big_increment
                  else previous_phasecal st * increment st, "incremented"%string)
            else (if negb (Qeq_bool (py_round (cur_pf st) 2) 1)
                  then previous_phasecal st * big_decrement
                  else previous_phasecal st * decrement st, "decremented"%string))
    as [c action].
  cbn [fst] in Hc. subst c.
  destruct (measure (calls st) (previous_phasecal st * step_factor st)) as [p|e] eqn:Em;
    [|discriminate H]. cbn [bind] in H.
  destruct (trends st) as [|t0 [|t1 l]]; cbn [app List.length Nat.eqb] in H.
  - injection H as <- <-. cbn. rewrite Em. repeat split. now left.
  - cbn [subscript nth_error bind] in H.
    destruct (Qlt_bool t0 0 && Qlt_bool (p - previous_pf st) 0);
      injection H as <- <-; cbn; rewrite Em; repeat split; [now right | now left].
  - rewrite length_app, Nat.add_comm in H. cbn [List.length Nat.add Nat.eqb] in H.
    injection H as <- <-. cbn. rewrite Em. repeat split. now left.
Qed.

Lemma iteration_break_inv (measure : nat -> Q -> result Q) (st : walk)
      (b : best) (out : walk * best) :
  iteration measure st b = Return (Break out) ->
  py_round (cur_pf st) 4 == 1 /\ fst out = st.
Proof.
  unfold iteration. intros H.
  destruct (Qeq_bool (py_round (cur_pf st) 4) 1) eqn:E0.
  - split; [now apply Qeq_bool_iff|].
    destruct (new_phasecal st); [|discriminate H]. cbn in H. now injection H as <-.
  - exfalso.
    destruct (if Qlt_bool (cur_pf st) 1
              then (if negb (Qeq_bool (py_round (cur_pf st) 2) 1)
                    then previous_phasecal st * big_increment
                    else previous_phasecal st * increment st, "incremented"%string)
              else (if negb (Qeq_bool (py_round (cur_pf st) 2) 1)
                    then previous_phasecal st * big_decrement
                    else previous_phasecal st * decrement st, "decremented"%string))
      as [c action].
    destruct (measure (calls st) c) as [p|e]; [|discriminate H]. cbn [bind] in H.
    destruct (trends st) as [|t0 [|t1 l]]; cbn [app List.length Nat.eqb] in H.
    + discriminate H.
    + cbn [subscript nth_error bind] in H.
      destruct (Qlt_bool t0 0 && Qlt_bool (p - previous_pf st) 0); discriminate H.
    + rewrite length_app, Nat.add_comm in H.
      cbn [List.length Nat.add Nat.eqb] in H. discriminate H.
Qed.

(** X9: an iteration of the search stops the round without measuring
    exactly when the power factor lies in [0.99995, 1.00005] (both ends
    included, by rounding ties to even); outside that band it never
    breaks. *)
Theorem success_band (measure : nat -> Q -> result Q) (st : walk) (b : best) :
  (99995 # 100000 <= cur_pf st /\ cur_pf st <= 100005 # 100000 ->
   iteration measure st b
   = (cal <- read_local (new_phasecal st) ;;
      Return (Break (st, {| b_pf := cur_pf st; b_cal := cal |})))) /\
  (forall out, iteration measure st b = Return (Break out) ->
     99995 # 100000 <= cur_pf st /\ cur_pf st <= 100005 # 100000) /\
  (forall st' b', iteration measure st b = Return (Next (st', b')) ->
     ~ (99995 # 100000 <= cur_pf st /\ cur_pf st <= 100005 # 100000)).
Proof.
  split; [|split].
  - intros Hin. apply py_round_4_one in Hin. unfold iteration.
    now rewrite (Qeq_bool_true _ _ Hin).
  - intros out H. apply py_round_4_one.
    now apply (iteration_break_inv measure st b out).
  - intros st' b' H. apply iteration_next_inv in H as (Hn & _).
    now rewrite <- py_round_4_one.
Qed.



Lemma step_factor_bounds (st : walk) :
  steps_in_range st -> 98 # 100 <= step_factor st /\ step_factor st <= 101 # 100.
Proof.
  intros (H1 & H2 & H3 & H4 & _). unfold step_factor, big_increment, big_decrement.
  destruct (Qlt_bool (cur_pf st) (995 # 1000)); [split; lra|].
  destruct (Qlt_bool (cur_pf st) 1); [split; lra|].
  destruct (Qle_bool (cur_pf st) (1005 # 1000)); split; lra.
Qed.

Lemma iteration_keeps_steps (measure : nat -> Q -> result Q) (st st' : walk)
      (b b' : best) :
  steps_in_range st ->
  iteration measure st b = Return (Next (st', b')) ->
  steps_in_range st' /\
  (98 # 100) * previous_phasecal st <= previous_phasecal st' /\
  previous_phasecal st' <= (101 # 100) * previous_phasecal st.
Proof.
  intros Hs H. pose proof (step_factor_bounds st Hs) as [F1 F2].
  destruct Hs as (H1 & H2 & H3 & H4 & H5).
  apply iteration_next_inv in H as (_ & Ep & _ & _ & _ & Hsteps).
  assert (P : 0 < previous_phasecal st') by (rewrite Ep; nra).
  split; [|rewrite Ep; split; nra].
  unfold steps_in_range.
  destruct Hsteps as [[-> ->]|[-> ->]]; [repeat split; assumption|].
  assert (A : Qabs (1 - increment st) == increment st - 1).
  { rewrite Qabs_neg by lra. ring. }
  assert (B : forall x, x / 2 == x * (1 # 2)) by (intros x; field).
  rewrite A, !B. split; [lra|]. split; [lra|]. split; [lra|]. split; [lra | exact P].
Qed.


Lemma initial_walk_steps (pf0 : Q) (k : nat) : steps_in_range (initial_walk pf0 k).
Proof. unfold steps_in_range; cbn. repeat split; try reflexivity; discriminate. Qed.


(** X12: once the current power factor rounds to 1.0 at 4 decimals (and
    [new_phasecal] is bound), every further round ends at its first
    iteration without any measurement and records the same entry: the
    rounds are not independent. *)
Theorem success_freezes_rounds (measure : nat -> Q -> result Q) (st : walk) (c : Q) :
  new_phasecal st = Some c ->
  py_round (cur_pf st) 4 == 1 ->
  calibration_round measure st
  = Return (st, {| b_pf := cur_pf st; b_cal := c |}) /\
  forall count best_pfs,
    rounds measure count st best_pfs
    = Return (best_pfs ++ repeat {| b_pf := cur_pf st; b_cal := c |} count).
Proof.
  intros Hc Hr.
  assert (E : calibration_round measure st
              = Return (st, {| b_pf := cur_pf st; b_cal := c |})).
  { unfold calibration_round. cbn [round_loop]. unfold iteration.
    rewrite (Qeq_bool_true _ _ Hr), Hc. reflexivity. }
  split; [exact E|].
  induction count as [|count IH]; intros best_pfs; cbn [rounds repeat].
  - now rewrite app_nil_r.
  - rewrite E. cbn [bind fst snd]. rewrite IH, <- app_assoc. reflexivity.
Qed.

Lemma success_freezes_rounds_witness :
  iteration (replay [1]) (initial_walk (9 # 10) 0) no_best
  = Return (Next (settled_walk, keep_best no_best (1 * big_increment, 1))) /\
  rounds (replay []) 2 settled_walk []
  = Return [ {| b_pf := 1; b_cal := 1 * big_increment * (995 # 1000) |};
             {| b_pf := 1; b_cal := 1 * big_increment * (995 # 1000) |} ].
Proof.
  split; [reflexivity|].
  assert (Hr : py_round (cur_pf settled_walk) 4 == 1) by (vm_compute; reflexivity).
  exact (proj2 (success_freezes_rounds (replay []) settled_walk _ eq_refl Hr)
               2%nat []).
Defined.

(** ** Calibration search: the coefficient a round records *)

Lemma keep_best_no_best (c p : Q) : p <= 0 -> keep_best no_best (c, p) = no_best.
Proof.
  intros H. unfold keep_best. cbn [snd no_best b_pf].
  destruct (Qlt_bool 0 p) eqn:E; [|reflexivity].
  apply Qlt_bool_iff in E. exfalso. lra.
Qed.

(** A round, or any part of it, in which no measurement exceeds 0. *)
Lemma barren_round_loop (measure : nat -> Q -> result Q) :
  (forall j c, exists p, measure j c = Return p /\ p <= 0) ->
  forall count st,
    steps_in_range st -> ~ py_round (cur_pf st) 4 == 1 ->
    exists st',
      round_loop measure count st no_best = Return (st', no_best) /\
      steps_in_range st' /\ ~ py_round (cur_pf st') 4 == 1 /\
      calls st' = (calls st + count)%nat /\
      List.length (probes measure count st no_best) = count /\
      Forall (fun p => 0 < fst p /\ snd p <= 0) (probes measure count st no_best).
Proof.
  intros Hneg.
  assert (Hm : forall j c, exists p, measure j c = Return p).
  { intros j c. destruct (Hneg j c) as (p & Hp & _). now exists p. }
  induction count as [|count IH]; intros st Hs Hr.
  - exists st. split; [reflexivity|]. split; [exact Hs|]. split; [exact Hr|].
    split; [lia|]. split; [reflexivity | constructor].
  - destruct (iteration_cases measure Hm st no_best)
      as [[H1 _]|[_ (st1 & c & p & E & Ec & Ep & _)]]; [contradiction|].
    pose proof (iteration_next_inv measure st st1 _ _ E) as (_ & _ & Em & Ek & _).
    destruct (Hneg (calls st) (previous_phasecal st1)) as (p' & Hp' & Hle).
    rewrite Hp' in Em. injection Em as Em.
    assert (Hp : p <= 0) by (rewrite <- Ep, <- Em; exact Hle).
    rewrite (keep_best_no_best c p Hp) in E.
    destruct (iteration_keeps_steps measure st st1 _ _ Hs E) as (Hs1 & _).
    assert (Hr1 : ~ py_round (cur_pf st1) 4 == 1).
    { rewrite py_round_4_one, Ep. intros [H _]. lra. }
    destruct (IH st1 Hs1 Hr1) as (st' & El & Hs' & Hr' & Hk & HL & HF).
    exists st'. cbn [round_loop probes]. rewrite E. cbn [bind].
    split; [exact El|]. split; [exact Hs'|]. split; [exact Hr'|].
    split; [lia|]. split; [cbn [List.length]; now rewrite HL|].
    constructor; [|exact HF]. cbn [fst snd]. split.
    + now destruct Hs1 as (_ & _ & _ & _ & H).
    + now rewrite Ep.
Qed.

Lemma round_loop_next (measure : nat -> Q -> result Q) (count : nat)
      (st st' : walk) (b b' : best) :
  iteration measure st b = Return (Next (st', b')) ->
  round_loop measure (S count) st b = round_loop measure count st' b' /\
  probes measure (S count) st b
  = (previous_phasecal st', cur_pf st') :: probes measure count st' b'.
Proof. intros E. cbn [round_loop probes]. now rewrite E. Qed.

Lemma round_loop_break (measure : nat -> Q -> result Q) (count : nat)
      (st : walk) (b : best) (out : walk * best) :
  iteration measure st b = Return (Break out) ->
  round_loop measure (S count) st b = Return out /\
  probes measure (S count) st b = [].
Proof. intros E. cbn [round_loop probes]. now rewrite E. Qed.

(** A run whose first measurement rounds to 1.0: the two iterations of its
    first round. *)
Lemma first_measurement_success (measure : nat -> Q -> result Q)
      (pf0 : Q) (k : nat) (p : Q) :
  ~ py_round pf0 4 == 1 ->
  measure k (1 * step_factor (initial_walk pf0 k)) = Return p ->
  py_round p 4 == 1 ->
  let c := 1 * step_factor (initial_walk pf0 k) in
  let st1 :=
    {| cur_pf := p; previous_phasecal := c; previous_pf := p;
       trends := [p - pf0]; increment := 1005 # 1000; decrement := 995 # 1000;
       new_phasecal := Some (c * (995 # 1000)); calls := S k |} in
  iteration measure (initial_walk pf0 k) no_best
  = Return (Next (st1, {| b_pf := p; b_cal := c |})) /\
  forall b,
    iteration measure st1 b
    = Return (Break (st1, {| b_pf := p; b_cal := c * (995 # 1000) |})).
Proof.
  intros H0 Hp H1 c st1. split.
  - assert (Hpos : Qlt_bool 0 p = true).
    { apply Qlt_bool_iff. apply py_round_4_one in H1. lra. }
    pose proof (direction_coefficient (initial_walk pf0 k)) as Hc.
    unfold iteration.
    cbn [initial_walk cur_pf previous_phasecal previous_pf trends increment
         decrement calls no_best b_pf] in Hc |- *.
    rewrite (Qeq_bool_false _ _ H0).
    destruct (Qlt_bool pf0 1); destruct (negb (Qeq_bool (py_round pf0 2) 1));
      cbn [fst] in Hc; rewrite Hc; fold c; fold c in Hp; rewrite Hp; cbn [bind];
      rewrite Hpos; reflexivity.
  - intros b. unfold iteration. cbn [cur_pf new_phasecal st1].
    rewrite (Qeq_bool_true _ _ H1). reflexivity.
Qed.

(** C6, where the code departs from it: the entry a round records need not
    hold a coefficient that was measured, against the claim and against
    the docstring of [find_phasecal] ("the corresponding PHASECAL constant
    that was used to calculate the PF").

    First, when no measurement of the run exceeds 0 (a reversed or idle
    sensor), every round makes its 75 measurements, all with positive
    coefficients, and records the initial [{'pf': 0, 'cal': 0}]: neither
    the highest power factor seen with its coefficient nor any coefficient
    tried, and the recommended mean is 0.

    Second, when the first measurement of the run, taken with coefficient
    [c], rounds to 1.0, the round ends at its next iteration and records
    [new_phasecal], by then overwritten with the next candidate
    [c * decrement]; the entry [{pf, c}] that [best_pf] held is replaced, and
    the two later rounds record the same entry without measuring. *)
Theorem calibration_records_unmeasured_coefficient
        (measure : nat -> Q -> result Q) (pf0 : Q) (k : nat) :
  ~ py_round pf0 4 == 1 ->
  ((forall j c, exists p, measure j c = Return p /\ p <= 0) ->
   find_phasecal_search measure pf0 k = Return [no_best; no_best; no_best] /\
   (exists avg, avg_phasecal [no_best; no_best; no_best] = Return avg /\ avg == 0) /\
   exists st1 st2 st3,
     calibration_round measure (initial_walk pf0 k) = Return (st1, no_best) /\
     calibration_round measure st1 = Return (st2, no_best) /\
     calibration_round measure st2 = Return (st3, no_best) /\
     calls st3 = (k + 225)%nat /\
     Forall (fun st =>
               let ps := probes measure 75 st no_best in
               List.length ps = 75%nat /\
               Forall (fun probe => 0 < fst probe /\ snd probe <= 0) ps /\
               ~ keeps_highest_seen ps no_best)
            [initial_walk pf0 k; st1; st2]) /\
  (forall p,
     measure k (1 * step_factor (initial_walk pf0 k)) = Return p ->
     py_round p 4 == 1 ->
     let c := 1 * step_factor (initial_walk pf0 k) in
     let recorded := {| b_pf := p; b_cal := c * (995 # 1000) |} in
     probes measure 75 (initial_walk pf0 k) no_best = [(c, p)] /\
     find_phasecal_search measure pf0 k = Return [recorded; recorded; recorded] /\
     (exists avg,
        avg_phasecal [recorded; recorded; recorded] = Return avg /\
        avg == c * (995 # 1000)) /\
     0 < c /\ b_cal recorded < c).
Proof.
  intros H0. split.
  - intros Hneg.
    destruct (barren_round_loop measure Hneg 75 (initial_walk pf0 k)
                (initial_walk_steps pf0 k) H0)
      as (st1 & E1 & S1 & R1 & K1 & L1 & F1).
    destruct (barren_round_loop measure Hneg 75 st1 S1 R1)
      as (st2 & E2 & S2 & R2 & K2 & L2 & F2).
    destruct (barren_round_loop measure Hneg 75 st2 S2 R2)
      as (st3 & E3 & _ & _ & K3 & L3 & F3).
    assert (Hnot : forall ps,
               Forall (fun probe => 0 < fst probe /\ snd probe <= 0) ps ->
               ~ keeps_highest_seen ps no_best).
    { intros ps HF [Hex _]. apply Exists_exists in Hex as (q & Hin & Hq & _).
      rewrite Forall_forall in HF. destruct (HF q Hin) as [Hpos _].
      cbn [no_best b_cal] in Hq. lra. }
    split.
    { unfold find_phasecal_search. cbn [rounds]. unfold calibration_round.
      change {| b_pf := 0; b_cal := 0 |} with no_best.
      rewrite E1; cbn [bind fst snd]. rewrite E2; cbn [bind fst snd].
      rewrite E3; cbn [bind fst snd]. reflexivity. }
    split; [eexists; split; [reflexivity | reflexivity]|].
    exists st1, st2, st3. unfold calibration_round.
    change {| b_pf := 0; b_cal := 0 |} with no_best.
    split; [exact E1|]. split; [exact E2|]. split; [exact E3|].
    split; [rewrite K3, K2, K1; cbn [initial_walk calls]; lia|].
    repeat (apply Forall_cons; [cbn zeta; auto|]). apply Forall_nil.
  - intros p Hp H1 c recorded.
    destruct (first_measurement_success measure pf0 k p H0 Hp H1) as [E1 E2].
    cbn zeta in E1, E2. fold c in E1, E2.
    set (st1 := {| cur_pf := p; previous_phasecal := c; previous_pf := p;
                   trends := [p - pf0]; increment := 1005 # 1000;
                   decrement := 995 # 1000;
                   new_phasecal := Some (c * (995 # 1000)); calls := S k |}) in *.
    fold recorded in E2.
    assert (R1 : calibration_round measure (initial_walk pf0 k)
                 = Return (st1, recorded)).
    { unfold calibration_round. change {| b_pf := 0; b_cal := 0 |} with no_best.
      rewrite (proj1 (round_loop_next measure 74 _ _ _ _ E1)).
      exact (proj1 (round_loop_break measure 73 _ _ _ (E2 _))). }
    assert (R2 : calibration_round measure st1 = Return (st1, recorded)).
    { unfold calibration_round.
      exact (proj1 (round_loop_break measure 74 _ _ _ (E2 _))). }
    destruct (step_factor_bounds (initial_walk pf0 k) (initial_walk_steps pf0 k))
      as [F1 _].
    assert (Hc : 0 < c) by (unfold c; lra).
    split.
    { rewrite (proj2 (round_loop_next measure 74 _ _ _ _ E1)).
      rewrite (proj2 (round_loop_break measure 73 _ _ _ (E2 _))).
      reflexivity. }
    split.
    { unfold find_phasecal_search. cbn [rounds].
      rewrite R1; cbn [bind fst snd]. rewrite R2; cbn [bind fst snd].
      rewrite R2; cbn [bind fst snd]. reflexivity. }
    split.
    { eexists. split; [reflexivity|]. cbn. field. }
    split; [exact Hc|]. cbn [recorded b_cal]. lra.
Qed.

Lemma reversed_load_measurements :
  forall j c, exists p, replay reversed_load j c = Return p /\ p <= 0.
Proof.
  intros j c. unfold replay. eexists. split; [reflexivity|].
  destruct (nth_in_or_default j reversed_load 0) as [Hin|Hd].
  - apply repeat_spec in Hin. rewrite Hin. discriminate.
  - rewrite Hd. discriminate.
Qed.

Lemma calibration_records_unmeasured_coefficient_witness :
  find_phasecal_search (replay reversed_load) (-1) 0
  = Return [no_best; no_best; no_best] /\
  find_phasecal_search (replay [1]) (9 # 10) 0
  = Return (repeat {| b_pf := 1;
                      b_cal := 1 * step_factor (initial_walk (9 # 10) 0)
                               * (995 # 1000) |} 3) /\
  1 * step_factor (initial_walk (9 # 10) 0) == 101 # 100.
Proof.
  assert (Hr : ~ py_round (-1) 4 == 1) by (vm_compute; discriminate).
  assert (H0 : ~ py_round (9 # 10) 4 == 1) by (vm_compute; discriminate).
  assert (H1 : py_round 1 4 == 1) by (vm_compute; reflexivity).
  split.
  - exact (proj1 (proj1 (calibration_records_unmeasured_coefficient
                           (replay reversed_load) (-1) 0 Hr)
                        reversed_load_measurements)).
  - split; [|vm_compute; reflexivity].
    destruct (proj2 (calibration_records_unmeasured_coefficient
                       (replay [1]) (9 # 10) 0 H0) 1 eq_refl H1)
      as (_ & E & _).
    exact E.
Defined.

(** ** Calculator: offsets, scales and bounds *)

Lemma check_phasecal_codes (sqrt : Q -> Q) (cs vs : list Z) (bv : Q) :
  List.length cs = List.length vs ->
  check_phasecal sqrt (map inject_Z cs) (map inject_Z vs) bv
  = channel_reading sqrt (List.length vs) (bv / 1024 * 100) (bv / 1024 * (253 # 2))
      (sums_over cs vs sums0).
Proof.
  intros HL. rewrite check_phasecal_ok by (rewrite !length_map; lia).
  rewrite !map_int_inject_Z, length_map, firstn_all2 by lia. reflexivity.
Qed.

Lemma Zsum_rescaled (s d : Z) (l : list Z) :
  Zsum (rescaled s d l) = (s * Zsum l + Z.of_nat (List.length l) * d)%Z.
Proof.
  unfold rescaled. induction l as [|x l IH]; [simpl; lia|].
  cbn [map Zsum fold_right List.length].
  fold (Zsum (map (fun x => s * x + d)%Z l)). fold (Zsum l).
  rewrite IH, Nat2Z.inj_succ. lia.
Qed.

Lemma Zsum_products_rescaled (s d t e : Z) (xs : list Z) :
  forall ys, List.length xs = List.length ys ->
    Zsum (products (rescaled s d xs) (rescaled t e ys))
    = (s * t * Zsum (products xs ys) + s * e * Zsum xs + t * d * Zsum ys
       + Z.of_nat (List.length xs) * (d * e))%Z.
Proof.
  unfold rescaled.
  induction xs as [|x xs IH]; intros [|y ys] HL; simpl in HL; try lia.
  - simpl. lia.
  - cbn [map products Zsum fold_right List.length].
    fold (Zsum (products (map (fun x => s * x + d)%Z xs)
                         (map (fun x => t * x + e)%Z ys))).
    fold (Zsum (products xs ys)). fold (Zsum xs). fold (Zsum ys).
    rewrite IH by lia. rewrite Nat2Z.inj_succ. lia.
Qed.

Lemma rescaled_length (s d : Z) (l : list Z) :
  List.length (rescaled s d l) = List.length l.
Proof. apply length_map. Qed.

(** The covariance term of real power under an affine change of both
    sequences. *)
Lemma real_power_core_rescaled (s d t e : Z) (xs ys : list Z) :
  (0 < List.length xs)%nat -> List.length xs = List.length ys ->
  real_power_core (mean (products (rescaled s d xs) (rescaled t e ys)))
                  (mean (rescaled s d xs)) (mean (rescaled t e ys))
  == inject_Z (s * t)
     * real_power_core (mean (products xs ys)) (mean xs) (mean ys).
Proof.
  intros Hn HL. unfold real_power_core, mean.
  rewrite (products_length (rescaled s d xs) (rescaled t e ys))
    by (rewrite !rescaled_length; exact HL).
  rewrite (products_length xs ys HL), !rescaled_length, <- HL.
  rewrite Zsum_products_rescaled, !Zsum_rescaled, <- HL by exact HL.
  set (n := Z.of_nat (List.length xs)).
  assert (Hn' : 0 < inject_Z n) by (apply inject_Z_pos; unfold n; lia).
  rewrite !inject_Z_plus, !inject_Z_mult.
  field. lra.
Qed.

(** X13: for integer codes, replacing every current code [x] by
    [s * x + d] and every voltage code [y] by [t * y + e] multiplies the
    real power of [check_phasecal] by [s * t]: offsets are rejected, and
    mirroring the current codes negates the real power. *)
Theorem real_power_rescaled (sqrt : Q -> Q) (cs vs : list Z) (s d t e : Z)
        (board_voltage : Q) :
  (0 < List.length cs)%nat -> List.length cs = List.length vs ->
  exists r r',
    check_phasecal sqrt (map inject_Z cs) (map inject_Z vs) board_voltage
    = Return r /\
    check_phasecal sqrt (map inject_Z (rescaled s d cs))
                   (map inject_Z (rescaled t e vs)) board_voltage
    = Return r' /\
    power r' == inject_Z (s * t) * power r.
Proof.
  intros Hn HL.
  rewrite !check_phasecal_codes by (rewrite ?rescaled_length; exact HL).
  rewrite rescaled_length.
  destruct (channel_reading_ok sqrt cs vs (List.length vs)
              (board_voltage / 1024 * 100) (board_voltage / 1024 * (253 # 2)))
    as (r & Er & Hp & _); [lia | lia | reflexivity |].
  destruct (channel_reading_ok sqrt (rescaled s d cs) (rescaled t e vs)
              (List.length vs)
              (board_voltage / 1024 * 100) (board_voltage / 1024 * (253 # 2)))
    as (r' & Er' & Hp' & _);
    [lia | rewrite rescaled_length; lia | apply rescaled_length |].
  exists r, r'. split; [exact Er|]. split; [exact Er'|].
  rewrite Hp, Hp', (real_power_core_rescaled s d t e cs vs Hn HL). ring.
Qed.

Lemma real_power_rescaled_witness :
  exists r r',
    check_phasecal Qsqrt_floor [10; 20; 30; 40] [10; 20; 30; 40] (33 # 10)
    = Return r /\
    check_phasecal Qsqrt_floor [1013; 1003; 993; 983] [10; 20; 30; 40] (33 # 10)
    = Return r' /\
    power r' == - power r.
Proof.
  assert (Hn : (0 < List.length [10; 20; 30; 40]%Z)%nat) by (simpl; lia).
  destruct (real_power_rescaled Qsqrt_floor [10; 20; 30; 40]%Z [10; 20; 30; 40]%Z
              (-1) 1023 1 0 (33 # 10) Hn eq_refl) as (r & r' & E & E' & Hp).
  exists r, r'. split; [exact E|]. split; [exact E'|].
  rewrite Hp. change (inject_Z (-1 * 1)) with (- (1)). ring.
Defined.

(** The power factor of a reading, whatever the two (non-zero) scale
    factors. *)
Lemma channel_reading_pf (sqrt : Q -> Q) (cts vs : list Z) (n : nat)
      (ct_scale v_scale : Q) :
  (0 < n)%nat -> List.length cts = n -> List.length vs = n ->
  ~ ct_scale == 0 -> ~ v_scale == 0 ->
  exists r,
    channel_reading sqrt n ct_scale v_scale (sums_over cts vs sums0) = Return r /\
    ((sqrt (variance vs) * sqrt (variance cts) == 0 /\ pf r = 0)
     \/ (~ sqrt (variance vs) * sqrt (variance cts) == 0 /\
         pf r == real_power_core (mean (products cts vs)) (mean cts) (mean vs)
                 / (sqrt (variance vs) * sqrt (variance cts)))).
Proof.
  intros Hn Hc Hv Hcs Hvs.
  destruct (channel_reading_ok sqrt cts vs n ct_scale v_scale Hn Hc Hv)
    as (r & Er & Hp & Hcur & Hvol & Hz & Hnz).
  exists r. split; [exact Er|]. fold (variance cts) in Hcur. fold (variance vs) in Hvol.
  set (rv := sqrt (variance vs)) in *. set (rc := sqrt (variance cts)) in *.
  assert (Happ : voltage r * current r == rv * rc * (v_scale * ct_scale))
    by (rewrite Hcur, Hvol; ring).
  assert (Hs : ~ v_scale * ct_scale == 0).
  { intros H. apply Qmult_integral in H. tauto. }
  destruct (Qeq_dec (rv * rc) 0) as [E|E].
  - left. split; [exact E|]. apply Hz. rewrite Happ, E. ring.
  - right. split; [exact E|].
    assert (Ha : ~ voltage r * current r == 0).
    { rewrite Happ. intros H. apply Qmult_integral in H. tauto. }
    rewrite (Hnz Ha), Hp, Happ. field.
    assert (Hrc : ~ rc == 0) by (intros H; apply E; rewrite H; ring).
    assert (Hrv : ~ rv == 0) by (intros H; apply E; rewrite H; ring).
    tauto.
Qed.

(** X14: on matched batches the power factor of a channel depends on
    neither the board voltage nor the accuracy calibration:
    [check_phasecal] gives the same power factor for any two non-zero board
    voltages, and [calculate_power] reports the same one when its scale
    factors are non-zero. *)
Theorem power_factor_scale_free (sqrt : Q -> Q) (self : monitor)
        (S : rebuilt_waves_dict) (board_voltage board_voltage' : Q)
        (N : nat) (c : channel) :
  (0 < N)%nat ->
  (forall k, List.length (sel k (w_ct S)) = N) ->
  (forall k, List.length (sel k (w_v_ct S)) = N) ->
  ~ board_voltage == 0 -> ~ board_voltage' == 0 ->
  ~ grid_voltage self == 0 -> ~ ac_transformer_output_voltage self == 0 ->
  ~ sel c (accuracy_calibration self) == 0 -> ~ accuracy_calibration_AC self == 0 ->
  exists r r1 r2,
    calculate_power sqrt self S board_voltage = Return r /\
    check_phasecal sqrt (sel c (w_ct S)) (sel c (w_v_ct S)) board_voltage
    = Return r1 /\
    check_phasecal sqrt (sel c (w_ct S)) (sel c (w_v_ct S)) board_voltage'
    = Return r2 /\
    pf r1 == pf r2 /\ pf (sel c (r_ct r)) == pf r1.
Proof.
  intros HN Hc Hv Hb Hb' Hg Hac Hacc HAC.
  destruct (calculate_power_ok sqrt self S board_voltage N HN Hc Hv Hac)
    as (r & Er & _ & Hr).
  pose (cur := map int (sel c (w_ct S))). pose (vol := map int (sel c (w_v_ct S))).
  assert (Lc : List.length cur = N) by (unfold cur; rewrite length_map; auto).
  assert (Lv : List.length vol = N) by (unfold vol; rewrite length_map; auto).
  assert (Hchk : forall bv,
            check_phasecal sqrt (sel c (w_ct S)) (sel c (w_v_ct S)) bv
            = channel_reading sqrt N (bv / 1024 * 100) (bv / 1024 * (253 # 2))
                (sums_over cur vol sums0)).
  { intros bv. rewrite check_phasecal_ok by (rewrite Hc, Hv; lia).
    now rewrite Hv, firstn_all2 by (rewrite length_map, Hc; lia). }
  assert (Hscale : forall bv k, ~ bv == 0 -> ~ k == 0 -> ~ bv / 1024 * k == 0).
  { intros bv k H1 H2 H. apply Qmult_integral in H as [H|H]; [|tauto].
    apply H1. assert (E : bv == bv / 1024 * 1024) by field. rewrite E, H. ring. }
  destruct (channel_reading_pf sqrt cur vol N
              (board_voltage / 1024 * 100 * sel c (accuracy_calibration self))
              (board_voltage / 1024
               * (grid_voltage self / ac_transformer_output_voltage self * 11)
               * accuracy_calibration_AC self) HN Lc Lv)
    as (x & Ex & Hx).
  { intros H. apply Qmult_integral in H as [H|H]; [|tauto].
    revert H. apply Hscale; [exact Hb | discriminate]. }
  { intros H. apply Qmult_integral in H as [H|H]; [|tauto].
    revert H. apply Hscale; [exact Hb|].
    intros H. apply Qmult_integral in H as [H|H]; [|discriminate H].
    apply Hg. assert (E : grid_voltage self
                          == grid_voltage self / ac_transformer_output_voltage self
                             * ac_transformer_output_voltage self) by (field; exact Hac).
    rewrite E, H. ring. }
  specialize (Hr c). fold cur vol in Hr. rewrite Hr in Ex. injection Ex as <-.
  destruct (channel_reading_pf sqrt cur vol N (board_voltage / 1024 * 100)
              (board_voltage / 1024 * (253 # 2)) HN Lc Lv)
    as (r1 & E1 & H1); [apply Hscale; [exact Hb | discriminate] ..|].
  destruct (channel_reading_pf sqrt cur vol N (board_voltage' / 1024 * 100)
              (board_voltage' / 1024 * (253 # 2)) HN Lc Lv)
    as (r2 & E2 & H2); [apply Hscale; [exact Hb' | discriminate] ..|].
  exists r, r1, r2. rewrite !Hchk.
  split; [exact Er|]. split; [exact E1|]. split; [exact E2|].
  destruct Hx as [[Zx Px]|[Nx Px]], H1 as [[Z1 P1]|[N1 P1]],
           H2 as [[Z2 P2]|[N2 P2]]; try contradiction;
    rewrite ?Px, ?P1, ?P2; split; reflexivity.
Qed.

Lemma power_factor_scale_free_witness :
  exists r r1 r2,
    calculate_power Qsqrt_floor (monitor_with 1) anchor_waves (33 # 10) = Return r /\
    check_phasecal Qsqrt_floor [10; 20; 30; 40] [10; 20; 30; 40] (33 # 10)
    = Return r1 /\
    check_phasecal Qsqrt_floor [10; 20; 30; 40] [10; 20; 30; 40] 5 = Return r2 /\
    pf r1 == pf r2 /\ pf (sel ct3 (r_ct r)) == pf r1.
Proof.
  assert (HN : (0 < 4)%nat) by lia.
  assert (Hc : forall k, List.length (sel k (w_ct anchor_waves)) = 4%nat)
    by (intros []; reflexivity).
  assert (Hv : forall k, List.length (sel k (w_v_ct anchor_waves)) = 4%nat)
    by (intros []; reflexivity).
  assert (Hnz : forall q : Q, Qeq_bool q 0 = false -> ~ q == 0).
  { intros q H E. apply Qeq_bool_iff in E. congruence. }
  apply (power_factor_scale_free Qsqrt_floor (monitor_with 1) anchor_waves
           (33 # 10) 5 4 ct3 HN Hc Hv); apply Hnz; reflexivity.
Defined.

Lemma psd_discriminant (A B C : Z) :
  (forall s t, 0 <= A * s * s + 2 * B * s * t + C * t * t)%Z ->
  (B * B <= A * C)%Z.
Proof.
  intros H.
  pose proof (H 1 0)%Z as HA. pose proof (H 0 1)%Z as HC.
  destruct (Z.eq_dec A 0) as [E|E].
  - subst A. destruct (Z.eq_dec B 0) as [EB|EB]; [subst B; lia|].
    pose proof (H (- B * (C + 1)) 1)%Z as H2.
    assert (HB : (1 <= B * B)%Z) by nia.
    assert (HK : (0 <= (B * B - 1) * (C + 1))%Z)
      by (apply Z.mul_nonneg_nonneg; lia).
    exfalso.
    replace (0 * (- B * (C + 1)) * (- B * (C + 1))
             + 2 * B * (- B * (C + 1)) * 1 + C * 1 * 1)%Z
      with (- 2 * (B * B) * (C + 1) + C)%Z in H2 by ring.
    replace ((B * B - 1) * (C + 1))%Z with ((B * B) * (C + 1) - C - 1)%Z in HK
      by ring.
    lia.
  - pose proof (H (- B) A)%Z as H1.
    replace (A * - B * - B + 2 * B * - B * A + C * A * A)%Z
      with (A * (A * C - B * B))%Z in H1 by ring.
    assert (HA' : (0 < A)%Z) by lia.
    destruct (Z.le_gt_cases (B * B) (A * C)) as [L|G]; [exact L|].
    exfalso. assert (A * (A * C - B * B) < 0)%Z; [|lia].
    apply Z.mul_pos_neg; lia.
Qed.

Lemma Zsum_combination (s t : Z) (xs : list Z) :
  forall ys, List.length xs = List.length ys ->
    let zs := map (fun p => s * fst p + t * snd p)%Z (combine xs ys) in
    List.length zs = List.length xs /\
    Zsum zs = (s * Zsum xs + t * Zsum ys)%Z /\
    Zsum (products zs zs)
    = (s * s * Zsum (products xs xs) + 2 * s * t * Zsum (products xs ys)
       + t * t * Zsum (products ys ys))%Z.
Proof.
  induction xs as [|x xs IH]; intros [|y ys] HL; simpl in HL; try lia.
  - cbn [combine map products Zsum fold_right List.length].
    split; [reflexivity|]. split; lia.
  - destruct (IH ys) as (L & S1 & S2); [lia|]. cbn zeta in *.
    cbn [combine map products Zsum fold_right List.length fst snd].
    fold (Zsum (map (fun p => s * fst p + t * snd p)%Z (combine xs ys))).
    fold (Zsum (products (map (fun p => s * fst p + t * snd p)%Z (combine xs ys))
                         (map (fun p => s * fst p + t * snd p)%Z (combine xs ys)))).
    fold (Zsum xs) (Zsum ys) (Zsum (products xs xs)) (Zsum (products xs ys))
         (Zsum (products ys ys)).
    rewrite L, S1, S2. split; [reflexivity|]. split; lia.
Qed.

Lemma Zsum_cauchy_schwarz (xs ys : list Z) :
  List.length xs = List.length ys ->
  let n := Z.of_nat (List.length xs) in
  let A := (n * Zsum (products xs xs) - Zsum xs * Zsum xs)%Z in
  let B := (n * Zsum (products xs ys) - Zsum xs * Zsum ys)%Z in
  let C := (n * Zsum (products ys ys) - Zsum ys * Zsum ys)%Z in
  (B * B <= A * C)%Z.
Proof.
  intros HL n A B C. apply psd_discriminant. intros s t.
  destruct (Zsum_combination s t xs ys HL) as (L & S1 & S2). cbn zeta in *.
  pose proof (Zsum_square_le
                (map (fun p => s * fst p + t * snd p)%Z (combine xs ys))) as H.
  rewrite L, S1, S2 in H. fold n in H. subst A B C. nia.
Qed.

Lemma covariance_bound (xs ys : list Z) :
  (0 < List.length xs)%nat -> List.length xs = List.length ys ->
  let cov := real_power_core (mean (products xs ys)) (mean xs) (mean ys) in
  cov * cov <= variance xs * variance ys.
Proof.
  intros Hn HL cov. pose proof (Zsum_cauchy_schwarz xs ys HL) as H.
  cbn zeta in H. subst cov. unfold real_power_core, variance, mean.
  rewrite (products_length xs ys HL), (products_length xs xs eq_refl),
    (products_length ys ys eq_refl), <- HL.
  set (n := Z.of_nat (List.length xs)) in *.
  set (Sx := Zsum xs) in *. set (Sy := Zsum ys) in *.
  set (Sxx := Zsum (products xs xs)) in *. set (Sxy := Zsum (products xs ys)) in *.
  set (Syy := Zsum (products ys ys)) in *.
  assert (Hq : 0 < inject_Z n) by (apply inject_Z_pos; unfold n; lia).
  set (u := / (inject_Z n * inject_Z n)).
  assert (Hu : 0 < u) by (apply Qinv_lt_0_compat; nra).
  assert (Eb : inject_Z Sxy / inject_Z n - inject_Z Sx / inject_Z n * (inject_Z Sy / inject_Z n)
               == inject_Z (n * Sxy - Sx * Sy) * u).
  { unfold u, Z.sub. rewrite inject_Z_plus, inject_Z_opp, !inject_Z_mult. field. lra. }
  assert (Ea : inject_Z Sxx / inject_Z n - inject_Z Sx / inject_Z n * (inject_Z Sx / inject_Z n)
               == inject_Z (n * Sxx - Sx * Sx) * u).
  { unfold u, Z.sub. rewrite inject_Z_plus, inject_Z_opp, !inject_Z_mult. field. lra. }
  assert (Ec : inject_Z Syy / inject_Z n - inject_Z Sy / inject_Z n * (inject_Z Sy / inject_Z n)
               == inject_Z (n * Syy - Sy * Sy) * u).
  { unfold u, Z.sub. rewrite inject_Z_plus, inject_Z_opp, !inject_Z_mult. field. lra. }
  rewrite Eb, Ea, Ec.
  set (a := (n * Sxx - Sx * Sx)%Z) in *. set (b := (n * Sxy - Sx * Sy)%Z) in *.
  set (c := (n * Syy - Sy * Sy)%Z) in *.
  assert (Hz : inject_Z (b * b) <= inject_Z (a * c)) by (rewrite <- Zle_Qle; exact H).
  rewrite !inject_Z_mult in Hz.
  assert (Hk : 0 <= (inject_Z a * inject_Z c - inject_Z b * inject_Z b) * (u * u)).
  { apply Qmult_le_0_compat; [lra | nra]. }
  lra.
Qed.

(** X15: when the square root is exact on the two variances, real power
    never exceeds apparent power in magnitude and the power factor of
    [check_phasecal] lies in [-1, 1]. *)
Theorem power_factor_bounded (sqrt : Q -> Q) (samples rebuilt_wave : list Q)
        (board_voltage : Q) :
  let cur := map int samples in
  let vol := map int rebuilt_wave in
  (0 < List.length rebuilt_wave)%nat ->
  List.length samples = List.length rebuilt_wave ->
  sqrt (variance cur) * sqrt (variance cur) == variance cur ->
  sqrt (variance vol) * sqrt (variance vol) == variance vol ->
  exists r,
    check_phasecal sqrt samples rebuilt_wave board_voltage = Return r /\
    power r * power r <= voltage r * current r * (voltage r * current r) /\
    -1 <= pf r /\ pf r <= 1.
Proof.
  intros cur vol HN HL Hsc Hsv.
  rewrite check_phasecal_ok by lia.
  rewrite firstn_all2 by (rewrite length_map; lia). fold cur vol.
  destruct (channel_reading_ok sqrt cur vol (List.length rebuilt_wave)
              (board_voltage / 1024 * 100) (board_voltage / 1024 * (253 # 2)) HN)
    as (r & Er & Hp & Hc & Hv & Hz & Hnz);
    [unfold cur; rewrite length_map; exact HL | unfold vol; apply length_map |].
  fold (variance cur) in Hc. fold (variance vol) in Hv.
  exists r. split; [exact Er|].
  pose proof (covariance_bound cur vol) as Hcov. cbn zeta in Hcov.
  assert (Hcov' := Hcov ltac:(unfold cur; rewrite length_map; lia)
                        ltac:(unfold cur, vol; rewrite !length_map; exact HL)).
  clear Hcov.
  set (cov := real_power_core (mean (products cur vol)) (mean cur) (mean vol)) in *.
  set (cs := board_voltage / 1024 * 100) in *.
  set (vs := board_voltage / 1024 * (253 # 2)) in *.
  set (rc := sqrt (variance cur)) in *. set (rv := sqrt (variance vol)) in *.
  assert (Hsq : power r * power r <= voltage r * current r * (voltage r * current r)).
  { rewrite Hp, Hc, Hv.
    assert (E1 : cov * cs * vs * (cov * cs * vs) == cov * cov * (cs * vs * (cs * vs)))
      by ring.
    assert (E2 : rv * vs * (rc * cs) * (rv * vs * (rc * cs))
                 == rc * rc * (rv * rv) * (cs * vs * (cs * vs))) by ring.
    rewrite E1, E2, Hsc, Hsv.
    apply Qmult_le_compat_r; [exact Hcov'|]. nra. }
  split; [exact Hsq|].
  destruct (Qeq_dec (voltage r * current r) 0) as [E|E].
  - rewrite (Hz E). split; discriminate.
  - rewrite (Hnz E).
    set (P := power r) in *. set (A := voltage r * current r) in *.
    assert (Eq : P / A * A == P) by (field; exact E).
    assert (HA : 0 < A * A) by nra.
    assert (Hq : (P / A) * (P / A) * (A * A) <= 1 * (A * A)).
    { assert (E3 : P / A * (P / A) * (A * A) == (P / A * A) * (P / A * A)) by ring.
      rewrite E3, Eq. lra. }
    apply Qmult_le_r in Hq; [|exact HA].
    split; nra.
Qed.

Lemma power_factor_bounded_witness :
  exists r,
    check_phasecal Qsqrt_floor [0; 4; 0; 4] [0; 2; 2; 0] (33 # 10) = Return r /\
    -1 <= pf r /\ pf r <= 1.
Proof.
  assert (HN : (0 < List.length [0; 2; 2; 0])%nat) by (simpl; lia).
  destruct (power_factor_bounded Qsqrt_floor [0; 4; 0; 4] [0; 2; 2; 0] (33 # 10)
              HN eq_refl) as (r & E & _ & H1 & H2);
    [vm_compute; reflexivity | vm_compute; reflexivity |].
  exists r. repeat split; assumption.
Defined.

(** ** Reconstructor: composition and bounds *)

(** X16: [rebuild_waves] raises [IndexError] on an empty voltage list, as
    [rebuild_wave] does; otherwise it passes the voltage and current lists
    through unchanged and its wave for channel [k] is the wave of
    [rebuild_wave] with that channel's coefficient. *)
Theorem rebuild_waves_is_six_rebuild_wave (S : samples_dict) (P : six Q) :
  (s_voltage S = [] ->
   rebuild_waves S P = Raise IndexError /\
   forall samples c, rebuild_wave samples (s_voltage S) c = Raise IndexError) /\
  (s_voltage S <> [] ->
   exists w,
     rebuild_waves S P = Return w /\
     w_voltage w = s_voltage S /\ w_ct w = s_ct S /\
     forall k, exists wk,
       rebuild_wave (sel k (s_ct S)) (s_voltage S) (sel k P) = Return wk /\
       sel k (w_v_ct w) = new_v wk /\
       ct wk = sel k (w_ct w) /\ original_v wk = w_voltage w).
Proof.
  split.
  - intros E. unfold rebuild_waves, rebuild_wave. rewrite E. split; reflexivity.
  - intros HV. destruct (s_voltage S) as [|v0 rest] eqn:EV; [contradiction|].
    destruct (rebuild_waves_nonempty S v0 rest P EV) as (w & Ew & Hv & Hc & Hk).
    exists w. split; [exact Ew|]. split; [exact Hv|]. split; [exact Hc|].
    intros k. rewrite rebuild_wave_nonempty. eexists. split; [reflexivity|].
    cbn [new_v ct original_v]. rewrite Hk, Hc, Hv. repeat split.
Qed.

Lemma rebuild_points_within (c lo hi : Q) (rest : list Q) :
  0 <= c -> c <= 1 ->
  Forall (fun v => lo <= v /\ v <= hi) rest ->
  forall p, lo <= p -> p <= hi ->
    Forall (fun v => lo <= v /\ v <= hi) (rebuild_points c p rest).
Proof.
  intros Hc0 Hc1. induction 1 as [|x rest [Hx1 Hx2] _ IH]; intros p Hp1 Hp2;
    cbn [rebuild_points]; constructor.
  - split; nra.
  - now apply IH.
Qed.

(** X17: with a coefficient between 0 and 1 the rebuilt wave stays within
    any bounds that hold for the input samples. *)
Theorem rebuild_wave_no_overshoot (samples V : list Q) (c lo hi : Q) :
  V <> [] -> 0 <= c -> c <= 1 ->
  Forall (fun v => lo <= v /\ v <= hi) V ->
  exists w,
    rebuild_wave samples V c = Return w /\
    Forall (fun v => lo <= v /\ v <= hi) (new_v w).
Proof.
  intros HV Hc0 Hc1 HF. destruct V as [|v0 rest]; [contradiction|].
  rewrite rebuild_wave_nonempty. eexists. split; [reflexivity|].
  cbn [new_v]. inversion_clear HF as [|? ? [H1 H2] HR].
  constructor; [now split|]. now apply rebuild_points_within.
Qed.

Lemma rebuild_wave_no_overshoot_witness :
  exists w,
    rebuild_wave [] [0; 1023; 512] (1 # 2) = Return w /\
    Forall (fun v => 0 <= v /\ v <= 1023) (new_v w).
Proof.
  apply rebuild_wave_no_overshoot.
  - discriminate.
  - discriminate.
  - discriminate.
  - repeat constructor; discriminate.
Defined.

(** [int] reads the value of a rational, not its representation. *)
Lemma int_as_floor (x : Q) :
  int x = if (0 <=? Qnum x)%Z then Qfloor x else (- Qfloor (- x))%Z.
Proof.
  unfold int, Qfloor. destruct x as [n d]. cbn [Qnum Qden Qopp].
  destruct (Z.leb_spec 0 n) as [H|H].
  - apply Z.quot_div_nonneg; lia.
  - rewrite <- (Z.opp_involutive n) at 1. rewrite Z.quot_opp_l by lia.
    f_equal. apply Z.quot_div_nonneg; lia.
Qed.

Lemma int_Qeq (x y : Q) : x == y -> int x = int y.
Proof.
  intros E. rewrite !int_as_floor.
  assert (S : (0 <=? Qnum x)%Z = (0 <=? Qnum y)%Z).
  { unfold Qeq in E. destruct (Z.leb_spec 0 (Qnum x)), (Z.leb_spec 0 (Qnum y));
      try reflexivity; exfalso; nia. }
  rewrite S. destruct (0 <=? Qnum y)%Z.
  - now apply Qfloor_comp.
  - f_equal. apply Qfloor_comp. now rewrite E.
Qed.

Lemma map_int_Forall2 (l l' : list Q) : Forall2 Qeq l l' -> map int l = map int l'.
Proof.
  induction 1 as [|x y l l' E _ IH]; [reflexivity|].
  cbn [map]. now rewrite (int_Qeq x y E), IH.
Qed.

(** X18: the wave rebuilt with coefficient 1 gives [check_phasecal] the
    same result as the raw voltage samples, so the initial reading of
    [find_phasecal] is the uncorrected one. *)
Theorem initial_reading_is_uncorrected (sqrt : Q -> Q) (samples V : list Q)
        (board_voltage : Q) :
  V <> [] ->
  exists w,
    rebuild_wave samples V 1 = Return w /\
    check_phasecal sqrt (ct w) (new_v w) board_voltage
    = check_phasecal sqrt samples V board_voltage.
Proof.
  intros HV. destruct V as [|v0 rest]; [contradiction|].
  rewrite rebuild_wave_nonempty. eexists. split; [reflexivity|].
  cbn [ct new_v]. apply check_phasecal_int; [reflexivity|].
  apply map_int_Forall2. constructor; [reflexivity|].
  apply rebuild_points_identity. reflexivity.
Qed.

Lemma initial_reading_is_uncorrected_witness :
  exists w,
    rebuild_wave [10; 20; 30; 40] [10; 20; 30; 40] 1 = Return w /\
    check_phasecal Qsqrt_floor (ct w) (new_v w) (33 # 10)
    = check_phasecal Qsqrt_floor [10; 20; 30; 40] [10; 20; 30; 40] (33 # 10).
Proof.
  apply initial_reading_is_uncorrected. discriminate.
Defined.

(** ** The recommendation *)

Lemma fold_left_Qplus_bounds (lo hi : Q) (l : list Q) :
  Forall (fun x => lo <= x /\ x <= hi) l ->
  forall acc,
    acc + inject_Z (Z.of_nat (List.length l)) * lo <= fold_left Qplus l acc /\
    fold_left Qplus l acc <= acc + inject_Z (Z.of_nat (List.length l)) * hi.
Proof.
  induction 1 as [|x l [H1 H2] _ IH]; intros acc.
  - cbn [fold_left List.length]. change (inject_Z (Z.of_nat 0)) with 0.
    split; lra.
  - cbn [fold_left List.length]. destruct (IH (acc + x)) as [A B].
    rewrite Nat2Z.inj_succ. unfold Z.succ. rewrite inject_Z_plus.
    change (inject_Z 1) with 1. split; lra.
Qed.

(** X19: the recommended coefficient of an empty list of round results is a
    [ZeroDivisionError]; otherwise it lies between any bounds that hold for
    all round coefficients. *)
Theorem avg_phasecal_between (best_pfs : list best) (lo hi : Q) :
  (best_pfs = [] -> avg_phasecal best_pfs = Raise ZeroDivisionError) /\
  (best_pfs <> [] ->
   Forall (fun b => lo <= b_cal b /\ b_cal b <= hi) best_pfs ->
   exists avg, avg_phasecal best_pfs = Return avg /\ lo <= avg /\ avg <= hi).
Proof.
  split; [intros ->; reflexivity|].
  intros Hne HF. unfold avg_phasecal.
  assert (Hn : (0 < List.length (map b_cal best_pfs))%nat).
  { rewrite length_map. destruct best_pfs; [contradiction | simpl; lia]. }
  rewrite py_div_count by exact Hn. eexists. split; [reflexivity|].
  assert (HF' : Forall (fun x => lo <= x /\ x <= hi) (map b_cal best_pfs)).
  { apply Forall_map. exact HF. }
  destruct (fold_left_Qplus_bounds lo hi _ HF' 0) as [A B].
  set (n := inject_Z (Z.of_nat (List.length (map b_cal best_pfs)))) in *.
  assert (Hq : 0 < n) by (apply inject_Z_pos; lia).
  split.
  - apply Qle_shift_div_l; [exact Hq | lra].
  - apply Qle_shift_div_r; [exact Hq | lra].
Qed.

Lemma avg_phasecal_between_witness :
  exists avg,
    avg_phasecal [ {| b_pf := 1; b_cal := 101 # 100 |};
                   {| b_pf := 1; b_cal := 103 # 100 |};
                   {| b_pf := 1; b_cal := 102 # 100 |} ] = Return avg /\
    101 # 100 <= avg /\ avg <= 103 # 100.
Proof.
  apply (avg_phasecal_between _ (101 # 100) (103 # 100)).
  - discriminate.
  - repeat constructor; discriminate.
Defined.

(** ** Calibration search on live batches *)

Lemma measurement_returns (sqrt : Q -> Q) (samples : samples_dict)
      (c : channel) (PHASECAL board_voltage : Q) :
  matched_batch c samples ->
  exists w r,
    rebuild_wave (sel c (s_ct samples)) (s_voltage samples) PHASECAL = Return w /\
    check_phasecal sqrt (ct w) (new_v w) board_voltage = Return r.
Proof.
  intros [HL HN]. destruct (s_voltage samples) as [|v0 rest] eqn:EV;
    [simpl in HN; lia|].
  rewrite rebuild_wave_nonempty.
  assert (LW : List.length (v0 :: rebuild_points PHASECAL v0 rest)
               = List.length (sel c (s_ct samples))).
  { cbn [List.length]. rewrite rebuild_points_length, HL. reflexivity. }
  destruct (channel_reading_ok sqrt (map int (sel c (s_ct samples)))
              (map int (v0 :: rebuild_points PHASECAL v0 rest))
              (List.length (sel c (s_ct samples)))
              (board_voltage / 1024 * 100) (board_voltage / 1024 * (253 # 2)))
    as (r & Er & _).
  - rewrite HL. cbn [List.length]. lia.
  - apply length_map.
  - now rewrite length_map.
  - eexists. exists r. split; [reflexivity|]. cbn [ct new_v].
    rewrite check_phasecal_ok by lia. rewrite LW.
    rewrite firstn_all2 by (rewrite length_map; lia). exact Er.
Qed.

Lemma live_pf_returns (sqrt : Q -> Q) (hw : hardware) (c : channel)
      (board_voltage : Q) :
  (forall k, matched_batch c (collect_data hw k)) ->
  forall k PHASECAL, exists p, live_pf sqrt hw c board_voltage k PHASECAL = Return p.
Proof.
  intros Hhw k PHASECAL. unfold live_pf.
  destruct (measurement_returns sqrt (collect_data hw k) c PHASECAL board_voltage
              (Hhw k)) as (w & r & Ew & Er).
  rewrite Ew. cbn [bind]. rewrite Er. cbn [bind]. eexists. reflexivity.
Qed.

(** X20: when the batch handed to [find_phasecal] and every live batch have
    a non-empty voltage list and a current list of the same length for the
    selected channel, no rebuild or power-factor computation of the search
    raises: the call either ends with the unbound-variable error of its
    first iteration or returns exactly three round results. *)
Theorem find_phasecal_on_matched_batches (sqrt : Q -> Q) (hw : hardware)
        (samples : samples_dict) (ct_selection : channel)
        (accuracy_digits : nat) (board_voltage : Q) (k : nat) :
  matched_batch ct_selection samples ->
  (forall j, matched_batch ct_selection (collect_data hw j)) ->
  find_phasecal sqrt hw samples ct_selection accuracy_digits board_voltage k
  = Raise UnboundLocalError
  \/ exists b1 b2 b3,
       find_phasecal sqrt hw samples ct_selection accuracy_digits board_voltage k
       = Return [b1; b2; b3].
Proof.
  intros Hs Hhw. unfold find_phasecal.
  destruct (measurement_returns sqrt samples ct_selection 1 board_voltage Hs)
    as (w & r & Ew & Er).
  rewrite Ew. cbn [bind]. rewrite Er. cbn [bind].
  destruct (Qeq_dec (py_round (pf r) 4) 1) as [E|E].
  - left. now apply search_unbound.
  - right.
    pose proof (live_pf_returns sqrt hw ct_selection board_voltage Hhw) as Hm.
    set (measure := live_pf sqrt hw ct_selection board_voltage) in *.
    destruct (round_outcome_intro measure (initial_walk (pf r) k) Hm (or_intror E))
      as (st1 & b1 & E1 & _ & N1).
    destruct (round_outcome_intro measure st1 Hm (or_introl N1))
      as (st2 & b2 & E2 & _ & N2).
    destruct (round_outcome_intro measure st2 Hm (or_introl N2))
      as (st3 & b3 & E3 & _ & _).
    exists b1, b2, b3. unfold find_phasecal_search. cbn [rounds].
    rewrite E1; cbn [bind fst snd]. rewrite E2; cbn [bind fst snd].
    rewrite E3; cbn [bind fst snd]. reflexivity.
Qed.

Lemma find_phasecal_on_matched_batches_witness :
  find_phasecal Qsqrt_floor (bench skewed_batch skewed_batch) skewed_batch ct1 3
                (33 # 10) 1
  = Raise UnboundLocalError
  \/ exists b1 b2 b3,
       find_phasecal Qsqrt_floor (bench skewed_batch skewed_batch) skewed_batch
                     ct1 3 (33 # 10) 1
       = Return [b1; b2; b3].
Proof.
  apply find_phasecal_on_matched_batches.
  - split; [reflexivity | simpl; lia].
  - intros [|j]; (split; [reflexivity | simpl; lia]).
Defined.
